(** * tx: a tmux workspace manager -- the layout compiler, the stored state
      and the interactive editors of [bin/tx.js], embedded in Rocq.

    The definitions follow the source file:
    - [Text]: the string operations the program uses ([endsWith],
      [replace], [includes], template pieces) and the lines of a text;
    - the configuration object ([name], [baseDir], [panes]) and
      [generateScript], written with the three loops of the source;
    - the process: the two storage directories as finite maps from file
      names to contents, the prompts as a sequence of answers, the lines
      printed, the children spawned; a small monad [Proc] with [throw],
      [try_catch] and [process_exit];
    - the commands [create], [load], [list], [edit], [rename], [delete],
      [config], with [getWorkspaces], [saveConfig], [loadConfig],
      [openEditor] and [ensureDirectories];
    - the script line by line, as the specification describes it, to be
      compared with [generateScript];
    - [JsonText]: an instance of the JSON functions for the examples, a
      writer of indented JSON text and a reader, which reads back every
      configuration it writes ([JsonFacts]).

    Conventions.  A field that is absent, [undefined] or [null] is [None];
    sizes are integers, written in decimal.  The two directories hold
    files only, and either may be missing (their creation at startup can
    fail).  A workspace name stands for the file of that name in a
    directory; this is what the program does for a name that is a file
    name ([file_name]).  For a name with a path separator [path.join]
    normalises the path, and the properties that would not hold there
    are stated for file names.  [readdir] gives the names in
    the order of the map; the properties use only which names it gives.
    An answer is the value a prompt resolves to; a prompt that gets no
    admissible answer waits for ever ([Pending]).  Of the console only the
    lines that tell the outcome of a command are kept.  [JSON.stringify]
    and [JSON.parse] are a class, on configuration objects: the commands
    are defined and verified for any implementation, and the properties
    that need a round trip through JSON say so.  A descriptor that
    [JSON.parse] reads as something else than a layout is not represented;
    the properties of the commands that would go on with such a value are
    stated for disks whose descriptors are layouts ([layouts_only]).  Of
    the editor only the file it is started on and its exit status are
    kept.  The SIGINT handler and the dispatch of the command line are not
    part of the embedding.

    The properties follow the definitions: the texts, the compiler, the
    process, the stored state, the editors, the JSON texts, and examples;
    then more of the compiler, what the commands leave as it was, what
    they store and how they can fail, the layouts the menus build, and the
    startup. *)

From Stdlib Require Import ZArith Ascii String DecimalString DecimalZ Lia.
From stdpp Require Import base option list strings gmap.

Local Open Scope Z_scope.
Local Open Scope nat_scope.

(* ===================================================================== *)
(** * Text *)
(* ===================================================================== *)

Module Text.

(** The line feed, and the two quote characters used by the templates. *)
Definition LF : ascii := "010"%char.
Definition nl : string := String LF "".
Definition dquote : string := String "034"%char "".
Definition squote : string := String "039"%char "".

(** [`${i}`] for an array index and for an integer. *)
Definition show_nat (n : nat) : string := NilZero.string_of_uint (Nat.to_uint n).
Definition show_Z (z : Z) : string := NilZero.string_of_int (Z.to_int z).

(** JavaScript truthiness of a value that is [undefined], [null] or a
    string: only a non-empty string is truthy. *)
Definition truthy (o : option string) : bool :=
  match o with
  | Some s => negb (String.eqb s "")
  | None => false
  end.

(** [o || d] for such a value. *)
Definition or_else (o : option string) (d : string) : string :=
  match o with
  | Some s => if String.eqb s "" then d else s
  | None => d
  end.

(** Concatenation of a sequence of text pieces. *)
Definition glue (pieces : list string) : string := foldr String.app "" pieces.

(** [s.endsWith(suffix)] *)
Fixpoint endsWith (s suffix : string) : bool :=
  if String.eqb s suffix then true
  else match s with
       | "" => false
       | String _ s' => endsWith s' suffix
       end.

(** [s.replace(pat, '')] with a string pattern: the first occurrence of
    [pat] is removed, later ones stay. *)
Fixpoint remove_first (pat s : string) : string :=
  if String.prefix pat s then String.substring (String.length pat) (String.length s - String.length pat) s
  else match s with
       | "" => ""
       | String c s' => String c (remove_first pat s')
       end.

(** [s.includes(pat)] *)
Fixpoint includes (pat s : string) : bool :=
  if String.prefix pat s then true
  else match s with
       | "" => false
       | String _ s' => includes pat s'
       end.

(** The lines of a text: the pieces between line feeds. *)
Fixpoint lines (s : string) : list string :=
  match s with
  | "" => [""]
  | String c s' =>
      if Ascii.eqb c LF then "" :: lines s'
      else match lines s' with
           | l :: ls => String c l :: ls
           | [] => [String c ""]
           end
  end.

(** A text without a line feed. *)
Definition single_line (s : string) : bool := negb (includes nl s).

End Text.
Export Text.

(* ===================================================================== *)
(** * Layout *)
(* ===================================================================== *)

(** [resize: { type, value }] *)
Record Resize := mkResize { type : string; value : Z }.

(** One entry of [panes].  A field that is absent, [undefined] or [null] in
    the object is [None]. *)
Record Pane := mkPane {
  split : option string;
  directory : option string;
  command : option string;
  resize : option Resize
}.

(** [{ name, baseDir, panes }] *)
Record Config := mkConfig {
  name : string;
  baseDir : string;
  panes : list Pane
}.

#[export] Instance Resize_eq_dec : EqDecision Resize.
Proof. solve_decision. Defined.
#[export] Instance Pane_eq_dec : EqDecision Pane.
Proof. solve_decision. Defined.
#[export] Instance Config_eq_dec : EqDecision Config.
Proof. solve_decision. Defined.

(* ===================================================================== *)
(** * Compiler *)
(* ===================================================================== *)

(** [for (let i = lo; i < hi; i++) body] on an accumulator. *)
Definition for_range {A : Type} (lo hi : nat) (body : nat -> A -> A) (init : A) : A :=
  fold_left (fun acc i => body i acc) (seq lo (hi - lo)) init.

(** [l.forEach((x, i) => body)] on an accumulator, the index starting at [i]. *)
Fixpoint forEach_from {A B : Type} (body : B -> nat -> A -> A) (i : nat) (l : list B) (acc : A) : A :=
  match l with
  | [] => acc
  | x :: l' => forEach_from body (S i) l' (body x i acc)
  end.

Definition forEach {A B : Type} (l : list B) (body : B -> nat -> A -> A) (acc : A) : A :=
  forEach_from body 0 l acc.

(** The template the script starts with. *)
Definition script_head (name baseDir : string) : string :=
  "#!/bin/bash" +:+ nl +:+
  "SESSION=" +:+ dquote +:+ name +:+ dquote +:+ nl +:+
  "BASE_DIR=" +:+ baseDir +:+ nl +:+
  nl +:+
  "tmux has-session -t $SESSION 2>/dev/null && tmux attach -t $SESSION && exit" +:+ nl +:+
  nl +:+
  "tmux new-session -d -s $SESSION -c $BASE_DIR" +:+ nl.

(** The body of the first loop: the split of [pane]. *)
Definition split_step (pane : Pane) (script : string) : string :=
  let dir := or_else (directory pane) "$BASE_DIR" in
  if decide (split pane = Some "horizontal")
  then script +:+ (nl +:+ "tmux split-window -h -c " +:+ dir)
  else script +:+ (nl +:+ "tmux split-window -v -c " +:+ dir).

(** The body of the second loop: select and resize pane [i]. *)
Definition resize_step (pane : Pane) (i : nat) (script : string) : string :=
  match resize pane with
  | Some r =>
      let script := script +:+ (nl +:+ nl +:+ "tmux select-pane -t " +:+ show_nat i) in
      if decide (type r = "width")
      then script +:+ (nl +:+ "tmux resize-pane -x " +:+ show_Z (value r))
      else if decide (type r = "height")
      then script +:+ (nl +:+ "tmux resize-pane -y " +:+ show_Z (value r))
      else script
  | None => script
  end.

(** The body of the third loop: type the command into pane [i]. *)
Definition command_step (pane : Pane) (i : nat) (script : string) : string :=
  if truthy (command pane)
  then script +:+ (nl +:+ "tmux send-keys -t " +:+ show_nat i +:+ " " +:+ squote
                     +:+ default "" (command pane) +:+ squote +:+ " C-m")
  else script.

Definition script_tail : string :=
  nl +:+ nl +:+ "tmux select-pane -t 0" +:+ nl +:+ "tmux attach -t $SESSION" +:+ nl.

Definition generateScript (config : Config) : string :=
  let name := name config in
  let baseDir := baseDir config in
  let panes := panes config in
  let script := script_head name baseDir in
  let script :=
    for_range 1 (length panes)
      (fun i script =>
         match panes !! i with
         | Some pane => split_step pane script
         | None => script
         end) script in
  let script := forEach panes resize_step script in
  let script := forEach panes command_step script in
  script +:+ script_tail.

(* ===================================================================== *)
(** * The process: disk, terminal, console *)
(* ===================================================================== *)

(** The two storage directories.  A directory is a finite map from file
    names to file contents; [None] is a directory that does not exist.
    A workspace name is used as a file name inside these directories. *)
Inductive Dir := SCRIPT_DIR | CONFIG_DIR.

Inductive Path :=
| Folder (d : Dir)
| File (d : Dir) (file : string).

(** [path.join(dir, file)] for a [file] that is a file name: the file of
    that name in [dir].  (For a [file] with a path separator [path.join]
    normalises the path, which may then lie elsewhere.) *)
Definition path_join (d : Dir) (file : string) : Path := File d file.

Record FS := mkFS {
  scripts : option (gmap string string);
  configs : option (gmap string string)
}.

Definition folder (fs : FS) (d : Dir) : option (gmap string string) :=
  match d with
  | SCRIPT_DIR => scripts fs
  | CONFIG_DIR => configs fs
  end.

Definition set_folder (fs : FS) (d : Dir) (m : gmap string string) : FS :=
  match d with
  | SCRIPT_DIR => {| scripts := Some m; configs := configs fs |}
  | CONFIG_DIR => {| scripts := scripts fs; configs := Some m |}
  end.

(** What the prompts resolve to, in the order in which they are asked, and
    the exit status of an editor that was spawned. *)
Inductive Answer :=
| Pick (n : nat)       (* list prompt: the n-th selectable choice *)
| Text (s : string)    (* input prompt *)
| YesNo (b : bool)     (* confirm prompt *)
| Num (z : Z)          (* number prompt *)
| EditorExit (code : nat).

Inductive Error :=
| ENOENT (p : Path)
| TypeError
| SyntaxError
| EditorExitedWith (code : nat).

(** The lines the commands print that tell their outcome. *)
Inductive Message :=
| Cancelled
| NotFound (workspace : string)
| AlreadyExists (name : string)
| NoWorkspaces
| Created (name : string)
| Updated (workspace : string)
| Available (entries : list (string * option (nat * string)))
| Loading (workspace : string)
| RenamePlan (workspace newname : string)
| Renamed
| FailedToRename (e : Error)
| Deleted (workspace : string)
| FailedToDelete (e : Error)
| CannotRemoveLastPane
| PaneAdded (i : nat)
| PaneUpdated (i : nat)
| PaneRemoved (i : nat)
| EditorDone
| FailedToOpenEditor (e : Error).

Inductive Child :=
| Bash (script : Path)
| Chmod (target : Path)
| Editor (target : Path).

Record World := mkWorld {
  disk : FS;
  answers : list Answer;
  transcript : list (string * Answer);
  console : list Message;
  spawned : list Child
}.

(** How a piece of the program ends: with a value, with a thrown error, with
    [process.exit(code)], or never, at a prompt that gets no answer. *)
Inductive Completion (A : Type) :=
| Return (a : A)
| Throw (e : Error)
| Exit (code : nat)
| Pending.
Arguments Return {A} a.
Arguments Throw {A} e.
Arguments Exit {A} code.
Arguments Pending {A}.

Definition Proc (A : Type) : Type := World -> Completion A * World.

Definition ret {A : Type} (a : A) : Proc A := fun w => (Return a, w).

Definition bind {A B : Type} (m : Proc A) (k : A -> Proc B) : Proc B :=
  fun w =>
    match m w with
    | (Return a, w') => k a w'
    | (Throw e, w') => (Throw e, w')
    | (Exit code, w') => (Exit code, w')
    | (Pending, w') => (Pending, w')
    end.

Notation "x <- m ;; k" := (bind m (fun x => k))
  (at level 100, m at next level, right associativity).
Notation "m ;;; k" := (bind m (fun _ => k))
  (at level 100, right associativity).

Definition throw {A : Type} (e : Error) : Proc A := fun w => (Throw e, w).
Definition process_exit {A : Type} (code : nat) : Proc A := fun w => (Exit code, w).

(** [try { m } catch (err) { handler }] *)
Definition try_catch {A : Type} (m : Proc A) (handler : Error -> Proc A) : Proc A :=
  fun w =>
    match m w with
    | (Throw e, w') => handler e w'
    | r => r
    end.

(** The world after a line was printed, after a child was spawned, and
    with another disk. *)
Definition printed (msg : Message) (w : World) : World :=
  {| disk := disk w; answers := answers w; transcript := transcript w;
     console := console w ++ [msg]; spawned := spawned w |}.

Definition with_child (c : Child) (w : World) : World :=
  {| disk := disk w; answers := answers w; transcript := transcript w;
     console := console w; spawned := spawned w ++ [c] |}.

Definition with_disk (fs : FS) (w : World) : World :=
  {| disk := fs; answers := answers w; transcript := transcript w;
     console := console w; spawned := spawned w |}.

(** [console.log] / [console.error] *)
Definition say (msg : Message) : Proc unit := fun w => (Return tt, printed msg w).

(** [spawn(...)], not awaited. *)
Definition spawn (c : Child) : Proc unit := fun w => (Return tt, with_child c w).

Definition get_disk : Proc FS := fun w => (Return (disk w), w).

Definition put_disk (fs : FS) : Proc unit := fun w => (Return tt, with_disk fs w).

(** One prompt: the next answer is taken if the prompt can resolve to it,
    and the exchange is recorded. *)
Definition ask {A : Type} (message : string) (resolve : Answer -> option A) : Proc A :=
  fun w =>
    match answers w with
    | a :: rest =>
        match resolve a with
        | Some v => (Return v, {| disk := disk w; answers := rest;
                                  transcript := transcript w ++ [(message, a)];
                                  console := console w; spawned := spawned w |})
        | None => (Pending, w)
        end
    | [] => (Pending, w)
    end.

(** [type: 'list']: one of the selectable choices. *)
Definition prompt_list {A : Type} (message : string) (choices : list A) : Proc A :=
  ask message (fun a => match a with Pick n => choices !! n | _ => None end).

(** [type: 'input'], with its [validate] function. *)
Definition prompt_input (message : string) (validate : string -> bool) : Proc string :=
  ask message (fun a => match a with Text s => if validate s then Some s else None | _ => None end).

(** [type: 'confirm'] *)
Definition prompt_confirm (message : string) : Proc bool :=
  ask message (fun a => match a with YesNo b => Some b | _ => None end).

(** [type: 'number'] *)
Definition prompt_number (message : string) : Proc Z :=
  ask message (fun a => match a with Num z => Some z | _ => None end).

(** [while (...) { body }]: the body returns the next state ([inl]) or leaves
    the loop ([inr]).  Every turn of the loops of this program starts with
    a prompt, so a loop takes at most one turn more than there are
    answers left. *)
Fixpoint loop {St R : Type} (fuel : nat) (body : St -> Proc (St + R)) (s : St) : Proc R :=
  match fuel with
  | 0 => fun w => (Pending, w)
  | S fuel' =>
      r <- body s ;;
      match r with
      | inl s' => loop fuel' body s'
      | inr r => ret r
      end
  end.

Definition while {St R : Type} (body : St -> Proc (St + R)) (s : St) : Proc R :=
  fun w => loop (S (length (answers w))) body s w.

(** ** File operations of [fs] and [fs/promises] *)

Definition present (fs : FS) (p : Path) : bool :=
  match p with
  | Folder d => bool_decide (is_Some (folder fs d))
  | File d file =>
      match folder fs d with
      | Some m => bool_decide (is_Some (m !! file))
      | None => false
      end
  end.

Definition existsSync (p : Path) : Proc bool :=
  fs <- get_disk ;; ret (present fs p).

Definition readdir (d : Dir) : Proc (list string) :=
  fs <- get_disk ;;
  match folder fs d with
  | Some m => ret ((map_to_list m).*1)
  | None => throw (ENOENT (Folder d))
  end.

Definition readFile (p : Path) : Proc string :=
  fs <- get_disk ;;
  match p with
  | File d file =>
      match folder fs d with
      | Some m => match m !! file with
                  | Some content => ret content
                  | None => throw (ENOENT p)
                  end
      | None => throw (ENOENT p)
      end
  | Folder _ => throw (ENOENT p)
  end.

Definition writeFile (p : Path) (content : string) : Proc unit :=
  fs <- get_disk ;;
  match p with
  | File d file =>
      match folder fs d with
      | Some m => put_disk (set_folder fs d (<[file := content]> m))
      | None => throw (ENOENT p)
      end
  | Folder _ => throw (ENOENT p)
  end.

Definition unlink (p : Path) : Proc unit :=
  fs <- get_disk ;;
  match p with
  | File d file =>
      match folder fs d with
      | Some m => match m !! file with
                  | Some _ => put_disk (set_folder fs d (delete file m))
                  | None => throw (ENOENT p)
                  end
      | None => throw (ENOENT p)
      end
  | Folder _ => throw (ENOENT p)
  end.

(** [rename(from, to)] inside one directory. *)
Definition rename_file (d : Dir) (from to : string) : Proc unit :=
  fs <- get_disk ;;
  match folder fs d with
  | Some m => match m !! from with
              | Some content => put_disk (set_folder fs d (<[to := content]> (delete from m)))
              | None => throw (ENOENT (File d from))
              end
  | None => throw (ENOENT (File d from))
  end.

(* ===================================================================== *)
(** * The commands *)
(* ===================================================================== *)

(** Assignments to the fields of a pane and of the configuration. *)
Definition set_split (v : option string) (p : Pane) : Pane :=
  {| split := v; directory := directory p; command := command p; resize := resize p |}.
Definition set_directory (v : option string) (p : Pane) : Pane :=
  {| split := split p; directory := v; command := command p; resize := resize p |}.
Definition set_command (v : option string) (p : Pane) : Pane :=
  {| split := split p; directory := directory p; command := v; resize := resize p |}.
Definition set_resize (v : option Resize) (p : Pane) : Pane :=
  {| split := split p; directory := directory p; command := command p; resize := v |}.

Definition set_name (v : string) (config : Config) : Config :=
  {| name := v; baseDir := baseDir config; panes := panes config |}.
Definition set_baseDir (v : string) (config : Config) : Config :=
  {| name := name config; baseDir := v; panes := panes config |}.
Definition set_panes (v : list Pane) (config : Config) : Config :=
  {| name := name config; baseDir := baseDir config; panes := v |}.

(** [pane.field = v] where [pane] is [config.panes[paneIndex]]: the object
    in the array is the one that changes. *)
Definition update_pane (f : Pane -> Pane) (paneIndex : nat) (config : Config) : Config :=
  set_panes (alter f paneIndex (panes config)) config.

(** [x || null] for an input that is a string. *)
Definition or_null (x : string) : option string :=
  if String.eqb x "" then None else Some x.

Inductive CreateChoice :=
| C_edit_name | C_edit_basedir | C_edit_pane (i : nat)
| C_add_pane | C_remove_pane | C_create | C_cancel.

Inductive Field := F_split | F_directory | F_command | F_resize | F_done.

Inductive ResizeAction := R_enable | R_disable | R_cancel.

Inductive ResizeBy := By (type : string) | By_disable | By_cancel.

Inductive EditChoice :=
| E_base_directory | E_add_pane | E_edit_pane | E_remove_pane
| E_edit_script | E_save_and_exit | E_cancel.

(** ['horizontal', 'vertical', '<- Cancel'] and ['width', 'height', '<- Cancel']
    (or '<- Skip'): the last choice is [None]. *)
Definition split_choices : list (option string) := [Some "horizontal"; Some "vertical"; None].
Definition size_choices : list (option string) := [Some "width"; Some "height"; None].

(** The fields offered for a pane: pane 0 has a command and a size only. *)
Definition fieldChoices (paneIndex : nat) : list Field :=
  if decide (paneIndex = 0)
  then [F_command; F_resize; F_done]
  else [F_split; F_directory; F_command; F_resize; F_done].

(** The questions asked for a new pane, after its split was chosen. *)
Definition new_pane (splitChoice : string) (q_directory q_command q_needResize q_type q_value : string) : Proc Pane :=
  directory <- prompt_input q_directory (fun _ => true) ;;
  command <- prompt_input q_command (fun _ => true) ;;
  needResize <- prompt_confirm q_needResize ;;
  resize <- (if (needResize : bool)
             then ty <- prompt_list q_type size_choices ;;
                  match ty with
                  | Some t => v <- prompt_number q_value ;; ret (Some {| type := t; value := v |})
                  | None => ret None
                  end
             else ret None) ;;
  ret {| split := Some splitChoice; directory := or_null directory;
         command := Some command; resize := resize |}.

(** The JSON functions of the platform, on configuration objects:
    [JSON.stringify(config, null, 2)] and [JSON.parse], the latter being
    [None] where it throws.  A text that [JSON.parse] reads as another
    value than a configuration object has no counterpart here. *)
Class JSON := {
  JSON_stringify : Config -> string;
  JSON_parse : string -> option Config
}.

Section Commands.

Context {json : JSON}.

Definition getWorkspaces : Proc (list string) :=
  try_catch
    (files <- readdir SCRIPT_DIR ;;
     ret (map (remove_first ".sh") (filter (fun f => endsWith f ".sh") files)))
    (fun _ => ret []).

Definition saveConfig (name : string) (config : Config) : Proc unit :=
  there <- existsSync (Folder CONFIG_DIR) ;;
  (if (there : bool) then ret tt else writeFile (path_join CONFIG_DIR ".gitkeep") "") ;;;
  writeFile (path_join CONFIG_DIR (name +:+ ".json")) (JSON_stringify config).

Definition loadConfig (name : string) : Proc (option Config) :=
  try_catch
    (content <- readFile (path_join CONFIG_DIR (name +:+ ".json")) ;;
     match JSON_parse content with
     | Some config => ret (Some config)
     | None => throw SyntaxError
     end)
    (fun _ => ret None).

(** [openEditor]: the editor runs on the file, and its exit status decides.
    The words of the command ([$EDITOR], or vim) are not kept, and the
    editor is taken to start. *)
Definition openEditor (filePath : Path) : Proc unit :=
  spawn (Editor filePath) ;;;
  code <- ask "$EDITOR" (fun a => match a with EditorExit code => Some code | _ => None end) ;;
  if decide (code = 0) then ret tt else throw (EditorExitedWith code).

(** ** create *)

Definition create_choices (config : Config) : list CreateChoice :=
  [C_edit_name; C_edit_basedir; C_edit_pane 0]
  ++ imap (fun idx _ => C_edit_pane (idx + 1)) (drop 1 (panes config))
  ++ [C_add_pane]
  ++ (if decide (1 < length (panes config)) then [C_remove_pane] else [])
  ++ (if truthy (Some (name config)) then [C_create] else [])
  ++ [C_cancel].

(** One turn of the loop that edits pane [paneIndex]. *)
Definition create_edit_pane (paneIndex : nat) (config : Config) : Proc (Config + unit) :=
  field <- prompt_list ("Edit Pane " +:+ show_nat paneIndex +:+ ":") (fieldChoices paneIndex) ;;
  match field with
  | F_done => ret (inr tt)
  | F_split =>
      result <- prompt_list "Split direction:" split_choices ;;
      match result with
      | Some s => ret (inl (update_pane (set_split (Some s)) paneIndex config))
      | None => ret (inl config)
      end
  | F_directory =>
      result <- prompt_input "Directory (empty = base):" (fun _ => true) ;;
      ret (inl (update_pane (set_directory (or_null result)) paneIndex config))
  | F_command =>
      result <- prompt_input "Command:" (fun _ => true) ;;
      ret (inl (update_pane (set_command (Some result)) paneIndex config))
  | F_resize =>
      hasResize <- prompt_list "Resize action:" [R_enable; R_disable; R_cancel] ;;
      match hasResize with
      | R_enable =>
          result <- prompt_list "Resize by:" size_choices ;;
          match result with
          | Some t =>
              sizeResult <- prompt_number "Size (lines/columns):" ;;
              ret (inl (update_pane (set_resize (Some {| type := t; value := sizeResult |})) paneIndex config))
          | None => ret (inl config)
          end
      | R_disable => ret (inl (update_pane (set_resize None) paneIndex config))
      | R_cancel => ret (inl config)
      end
  end.

(** One turn of the menu loop of [create]: the next configuration, or the
    way the loop is left ([Some config]: create it; [None]: cancelled). *)
Definition create_turn (config : Config) : Proc (Config + option Config) :=
  match panes config with
  | [] => throw TypeError
  | _ :: _ =>
      action <- prompt_list "Select field to edit:" (create_choices config) ;;
      match action with
      | C_edit_name =>
          result <- prompt_input "Workspace name:" (fun input => bool_decide (0 < String.length input)) ;;
          ret (inl (set_name result config))
      | C_edit_basedir =>
          result <- prompt_input "Base directory:" (fun _ => true) ;;
          ret (inl (set_baseDir result config))
      | C_edit_pane paneIndex =>
          match panes config !! paneIndex with
          | None => throw TypeError
          | Some _ =>
              config' <- while (fun c => r <- create_edit_pane paneIndex c ;;
                                         ret match r with
                                             | inl c' => inl c'
                                             | inr _ => inr c
                                             end) config ;;
              ret (inl config')
          end
      | C_add_pane =>
          let paneIndex := length (panes config) in
          splitChoice <- prompt_list ("Pane " +:+ show_nat paneIndex +:+ " - Split:") split_choices ;;
          match splitChoice with
          | None => ret (inl config)
          | Some s =>
              pane <- new_pane s "Directory (empty = base):" "Command:" "Custom size?" "Resize by:" "Size:" ;;
              ret (inl (set_panes (panes config ++ [pane]) config))
          end
      | C_remove_pane => ret (inl (set_panes (removelast (panes config)) config))
      | C_create => ret (inr (Some config))
      | C_cancel => say Cancelled ;;; ret (inr None)
      end
  end.

Definition initial_config (cwd : string) : Config :=
  {| name := ""; baseDir := cwd;
     panes := [ {| split := None; directory := None; command := Some ""; resize := None |} ] |}.

Definition create_action (cwd : string) : Proc unit :=
  r <- while create_turn (initial_config cwd) ;;
  match r with
  | None => ret tt
  | Some config =>
      let script := generateScript config in
      writeFile (path_join SCRIPT_DIR (name config +:+ ".sh")) script ;;;
      spawn (Chmod (path_join SCRIPT_DIR (name config +:+ ".sh"))) ;;;
      saveConfig (name config) config ;;;
      say (Created (name config))
  end.

(** ** load *)

Definition load_action (workspace : string) : Proc unit :=
  let script := path_join SCRIPT_DIR (workspace +:+ ".sh") in
  there <- existsSync script ;;
  (if (there : bool) then ret tt
   else say (NotFound workspace) ;;; process_exit 1) ;;;
  spawn (Bash script).

(** ** list *)

(** What is shown next to a workspace: pane count and base directory when
    its descriptor loads. *)
Fixpoint describe (workspaces : list string) : Proc (list (string * option (nat * string))) :=
  match workspaces with
  | [] => ret []
  | ws :: rest =>
      config <- loadConfig ws ;;
      entries <- describe rest ;;
      ret ((ws, (fun c => (length (panes c), baseDir c)) <$> config) :: entries)
  end.

Definition list_action (interactive : bool) : Proc unit :=
  workspaces <- getWorkspaces ;;
  if decide (length workspaces = 0) then say NoWorkspaces
  else
    entries <- describe workspaces ;;
    say (Available entries) ;;;
    if interactive then
      answer <- prompt_list "Select workspace to load:" ((Some <$> workspaces) ++ [None]) ;;
      match answer with
      | Some ws =>
          if truthy (Some ws)
          then say (Loading ws) ;;; spawn (Bash (path_join SCRIPT_DIR (ws +:+ ".sh")))
          else say Cancelled
      | None => say Cancelled
      end
    else ret tt.

(** ** edit *)

(** One turn of the loop that edits pane [paneIndex]. *)
Definition edit_edit_pane (paneIndex : nat) (config : Config) : Proc (Config + unit) :=
  field <- prompt_list ("Edit Pane " +:+ show_nat paneIndex +:+ ":") (fieldChoices paneIndex) ;;
  match field with
  | F_done => ret (inr tt)
  | F_command =>
      answer <- prompt_input "Command:" (fun _ => true) ;;
      ret (inl (update_pane (set_command (Some answer)) paneIndex config))
  | F_split =>
      answer <- prompt_list "Split direction:" split_choices ;;
      match answer with
      | Some s => ret (inl (update_pane (set_split (Some s)) paneIndex config))
      | None => ret (inl config)
      end
  | F_directory =>
      answer <- prompt_input "Directory (empty = base):" (fun _ => true) ;;
      ret (inl (update_pane (set_directory (or_null answer)) paneIndex config))
  | F_resize =>
      resizeTypeChoice <- prompt_list "Resize by:" [By "width"; By "height"; By_disable; By_cancel] ;;
      match resizeTypeChoice with
      | By_cancel => ret (inl config)
      | By_disable => ret (inl (update_pane (set_resize None) paneIndex config))
      | By t =>
          sizeValue <- prompt_number "Size (lines or columns):" ;;
          ret (inl (update_pane (set_resize (Some {| type := t; value := sizeValue |})) paneIndex config))
      end
  end.

(** One turn of the menu loop of [edit]: the next configuration, or [inr]
    when the action returns. *)
Definition edit_turn (workspace : string) (config : Config) : Proc (Config + unit) :=
  editChoice <- prompt_list "What do you want to edit?"
    [E_base_directory; E_add_pane; E_edit_pane; E_remove_pane; E_edit_script; E_save_and_exit; E_cancel] ;;
  match editChoice with
  | E_cancel =>
      sure <- prompt_confirm "Discard changes?" ;;
      if (sure : bool) then ret (inr tt) else ret (inl config)
  | E_save_and_exit =>
      let script := generateScript config in
      writeFile (path_join SCRIPT_DIR (workspace +:+ ".sh")) script ;;;
      saveConfig workspace config ;;;
      say (Updated workspace) ;;;
      ret (inr tt)
  | E_edit_script =>
      try_catch
        (openEditor (path_join SCRIPT_DIR (workspace +:+ ".sh")) ;;; say EditorDone)
        (fun err => say (FailedToOpenEditor err)) ;;;
      ret (inr tt)
  | E_base_directory =>
      answer <- prompt_input "New base directory:" (fun _ => true) ;;
      ret (inl (set_baseDir answer config))
  | E_add_pane =>
      let paneIndex := length (panes config) in
      splitChoice <- prompt_list ("Pane " +:+ show_nat paneIndex +:+ " - Split direction:") split_choices ;;
      match splitChoice with
      | None => ret (inl config)
      | Some s =>
          pane <- new_pane s
                    ("Pane " +:+ show_nat paneIndex +:+ " - Directory (leave empty for base dir):")
                    ("Pane " +:+ show_nat paneIndex +:+ " - Command to run:")
                    ("Pane " +:+ show_nat paneIndex +:+ " - Need custom size?")
                    "Resize by:" "Size (lines or columns):" ;;
          say (PaneAdded paneIndex) ;;;
          ret (inl (set_panes (panes config ++ [pane]) config))
      end
  | E_edit_pane =>
      paneSelect <- prompt_list "Which pane to edit?"
                      (imap (fun i _ => Some i) (panes config) ++ [None]) ;;
      match paneSelect with
      | None => ret (inl config)
      | Some paneIndex =>
          match panes config !! paneIndex with
          | None => throw TypeError
          | Some _ =>
              config' <- while (fun c => r <- edit_edit_pane paneIndex c ;;
                                         ret match r with
                                             | inl c' => inl c'
                                             | inr _ => inr c
                                             end) config ;;
              say (PaneUpdated paneIndex) ;;;
              ret (inl config')
          end
      end
  | E_remove_pane =>
      if decide (length (panes config) = 1)
      then say CannotRemoveLastPane ;;; ret (inl config)
      else
        (* the choices of index 0 are filtered out *)
        paneSelect <- prompt_list "Which pane to remove?"
                        (drop 1 (imap (fun i _ => Some i) (panes config)) ++ [None]) ;;
        match paneSelect with
        | None => ret (inl config)
        | Some paneIndex =>
            sure <- prompt_confirm ("Remove pane " +:+ show_nat paneIndex +:+ "?") ;;
            if (sure : bool)
            then say (PaneRemoved paneIndex) ;;;
                 ret (inl (set_panes (delete paneIndex (panes config)) config))
            else ret (inl config)
        end
  end.

Definition edit_action (workspace : string) : Proc unit :=
  config <- loadConfig workspace ;;
  match config with
  | None => say (NotFound workspace) ;;; process_exit 1
  | Some config => while (edit_turn workspace) config
  end.

(** ** rename *)

Definition rename_action (workspace newname : option string) : Proc unit :=
  workspaces <- getWorkspaces ;;
  if decide (length workspaces = 0) then say NoWorkspaces
  else
    workspace <- (if truthy workspace then ret (default "" workspace)
                  else prompt_list "Which workspace to rename?" workspaces) ;;
    config <- loadConfig workspace ;;
    match config with
    | None => say (NotFound workspace) ;;; process_exit 1
    | Some config =>
        newname <- (if truthy newname then ret (default "" newname)
                    else prompt_input "New name:"
                           (fun input => negb (String.eqb input "")
                                         && negb (bool_decide (input ∈ workspaces)))) ;;
        newWorkspaceExists <- existsSync (path_join SCRIPT_DIR (newname +:+ ".sh")) ;;
        (if (newWorkspaceExists : bool)
         then say (AlreadyExists newname) ;;; process_exit 1
         else ret tt) ;;;
        say (RenamePlan workspace newname) ;;;
        confirmed <- prompt_confirm "Confirm rename?" ;;
        if negb confirmed then say Cancelled
        else
          try_catch
            (let config := set_name newname config in
             rename_file SCRIPT_DIR (workspace +:+ ".sh") (newname +:+ ".sh") ;;;
             try_catch (rename_file CONFIG_DIR (workspace +:+ ".json") (newname +:+ ".json"))
                       (fun _ => ret tt) ;;;
             let script := generateScript config in
             writeFile (path_join SCRIPT_DIR (newname +:+ ".sh")) script ;;;
             saveConfig newname config ;;;
             say Renamed)
            (fun err => say (FailedToRename err))
    end.

(** ** delete *)

Definition delete_action (workspace : string) : Proc unit :=
  confirmed <- prompt_confirm ("Delete workspace " +:+ dquote +:+ workspace +:+ dquote +:+ "?") ;;
  if negb confirmed then say Cancelled
  else
    try_catch
      (unlink (path_join SCRIPT_DIR (workspace +:+ ".sh")) ;;;
       try_catch (unlink (path_join CONFIG_DIR (workspace +:+ ".json"))) (fun _ => ret tt) ;;;
       say (Deleted workspace))
      (fun err => say (FailedToDelete err)).

End Commands.

(** What [getWorkspaces] and [loadConfig] give on a disk. *)
Definition workspaces_of (fs : FS) : list string :=
  match scripts fs with
  | Some m => map (remove_first ".sh") (filter (fun f => endsWith f ".sh") ((map_to_list m).*1))
  | None => []
  end.

Definition stored_config {json : JSON} (fs : FS) (name : string) : option Config :=
  match configs fs with
  | Some m => m !! (name +:+ ".json") ≫= JSON_parse
  | None => None
  end.

(** The exit status of the process when an action ends: [process.exit(code)]
    gives [code], a normal return gives 0, an error nobody caught gives 1;
    a process waiting at a prompt has none. *)
Definition exit_status {A : Type} (c : Completion A) : option nat :=
  match c with
  | Return _ => Some 0
  | Exit code => Some code
  | Throw _ => Some 1
  | Pending => None
  end.

(** A name that is a file name of a directory: it holds no path
    separator and no NUL character and, with the longer of the two
    extensions ([.json]), has at most 255 characters.  For such a name
    [path.join(dir, name + ext)] is the file [name + ext] of [dir] itself,
    which is what [path_join] takes it to be. *)
Definition file_name (name : string) : bool :=
  negb (includes "/" name)
  && negb (includes (String "000"%char "") name)
  && (String.length name <=? 250).

(** Every descriptor holds the text of a layout: what [loadConfig] returns
    for a descriptor that is there is a configuration object, with its
    [panes].  ([loadConfig] returns whatever [JSON.parse] reads; the
    commands are embedded for the descriptors that are layouts and for the
    texts that [JSON.parse] refuses.) *)
Definition layouts_only {json : JSON} (fs : FS) : Prop :=
  forall mc name content,
    configs fs = Some mc -> mc !! (name +:+ ".json") = Some content ->
    is_Some (JSON_parse content).

(* ===================================================================== *)
(** * Startup and [config] *)
(* ===================================================================== *)

(** [mkdir(dir, { recursive: true })] where it succeeds: the directory is
    there afterwards, with the files it had. *)
Definition mkdir_ok (d : Dir) : Proc unit :=
  fs <- get_disk ;; put_disk (set_folder fs d (default ∅ (folder fs d))).

(** [ensureDirectories], [mkdir] being the function of the platform, which
    can fail.  The line printed in the handler is not among the lines kept
    of the console. *)
Definition ensureDirectories (mkdir : Dir -> Proc unit) : Proc unit :=
  try_catch
    (there <- existsSync (Folder SCRIPT_DIR) ;;
     (if (there : bool) then ret tt else mkdir SCRIPT_DIR) ;;;
     there <- existsSync (Folder CONFIG_DIR) ;;
     (if (there : bool) then ret tt else mkdir CONFIG_DIR))
    (fun _ => ret tt).

(** ** config *)

(** The two hints printed after a failure of the editor are not kept. *)
Definition config_action (workspace : option string) : Proc unit :=
  let target := if truthy workspace
                then path_join SCRIPT_DIR (default "" workspace +:+ ".sh")
                else Folder SCRIPT_DIR in
  (if truthy workspace
   then there <- existsSync target ;;
        if (there : bool) then ret tt
        else say (NotFound (default "" workspace)) ;;; process_exit 1
   else ret tt) ;;;
  try_catch
    (openEditor target ;;; say EditorDone)
    (fun err => say (FailedToOpenEditor err)).

(* ===================================================================== *)
(** * The script, line by line *)
(* ===================================================================== *)

(** The compiled script as the specification describes it: a fixed head,
    then three phases in the order of [panes], then a fixed tail.  These
    definitions are compared with [generateScript] below. *)

(** Lines joined by line feeds. *)
Definition unlines (ls : list string) : string := String.concat nl ls.

(** Each line preceded by a line feed. *)
Definition nl_each (ls : list string) : string := glue (map (String.app nl) ls).

Definition head_lines (name baseDir : string) : list string :=
  [ "#!/bin/bash";
    "SESSION=" +:+ dquote +:+ name +:+ dquote;
    "BASE_DIR=" +:+ baseDir;
    "";
    "tmux has-session -t $SESSION 2>/dev/null && tmux attach -t $SESSION && exit";
    "";
    "tmux new-session -d -s $SESSION -c $BASE_DIR";
    "" ].

Definition orientation_flag (pane : Pane) : string :=
  if decide (split pane = Some "horizontal") then "-h" else "-v".

Definition target_directory (pane : Pane) : string :=
  or_else (directory pane) "$BASE_DIR".

Definition split_line (pane : Pane) : string :=
  "tmux split-window " +:+ orientation_flag pane +:+ " -c " +:+ target_directory pane.

Definition resize_lines (i : nat) (pane : Pane) : list string :=
  match resize pane with
  | Some r =>
      [ ""; "tmux select-pane -t " +:+ show_nat i ]
      ++ (if decide (type r = "width") then [ "tmux resize-pane -x " +:+ show_Z (value r) ]
          else if decide (type r = "height") then [ "tmux resize-pane -y " +:+ show_Z (value r) ]
          else [])
  | None => []
  end.

Definition command_lines (i : nat) (pane : Pane) : list string :=
  if truthy (command pane)
  then [ "tmux send-keys -t " +:+ show_nat i +:+ " " +:+ squote
           +:+ default "" (command pane) +:+ squote +:+ " C-m" ]
  else [].

Definition tail_lines : list string :=
  [ ""; "tmux select-pane -t 0"; "tmux attach -t $SESSION"; "" ].

Definition split_phase (panes : list Pane) : list string := map split_line (drop 1 panes).
Definition resize_phase (panes : list Pane) : list string := concat (imap resize_lines panes).
Definition command_phase (panes : list Pane) : list string := concat (imap command_lines panes).

Definition script_lines (config : Config) : list string :=
  head_lines (name config) (baseDir config)
  ++ split_phase (panes config)
  ++ resize_phase (panes config)
  ++ command_phase (panes config)
  ++ tail_lines.

(** The commands of a script, recognised line by line. *)
Definition is_split_window (line : string) : bool := String.prefix "tmux split-window " line.
Definition is_select_pane (line : string) : bool := String.prefix "tmux select-pane -t " line.
Definition is_resize_pane (line : string) : bool := String.prefix "tmux resize-pane " line.
Definition is_send_keys (line : string) : bool := String.prefix "tmux send-keys -t " line.

(** The number of elements of a list that satisfy [P]. *)
Fixpoint count_if {A : Type} (P : A -> bool) (l : list A) : nat :=
  match l with
  | [] => 0
  | x :: l' => (if P x then 1 else 0) + count_if P l'
  end.

(** The number of places where a line of kind [P] is directly followed by a
    line of kind [Q]. *)
Fixpoint count_pairs (P Q : string -> bool) (ls : list string) : nat :=
  match ls with
  | a :: rest =>
      (match rest with
       | b :: _ => if P a && Q b then 1 else 0
       | [] => 0
       end) + count_pairs P Q rest
  | [] => 0
  end.

(** The conditions of the data model on a layout, and on the texts that go
    into the script verbatim: each of them is a single line. *)
Definition resize_ok (r : option Resize) : bool :=
  match r with
  | Some r => bool_decide (type r = "width") || bool_decide (type r = "height")
  | None => true
  end.

Definition pane_ok (p : Pane) : bool :=
  single_line (default "" (directory p))
  && single_line (default "" (command p))
  && resize_ok (resize p).

Definition layout_ok (config : Config) : bool :=
  single_line (name config)
  && single_line (baseDir config)
  && forallb pane_ok (panes config).

Definition has_resize (p : Pane) : bool := bool_decide (resize p ≠ None).
Definition has_command (p : Pane) : bool := truthy (command p).

Definition dev_layout : Config :=
  {| name := "dev"; baseDir := "/proj";
     panes := [ {| split := None; directory := None; command := Some "npm run dev"; resize := None |};
                {| split := Some "vertical"; directory := None; command := Some "npm test";
                   resize := Some {| type := "width"; value := 80 |} |} ] |}.

(* ===================================================================== *)
(** * JSON texts *)
(* ===================================================================== *)

(** An instance of the JSON functions, for the examples: a writer of
    indented JSON text and a reader.  The writer lays a configuration out
    as [JSON.stringify(config, null, 2)] does when the absent fields are
    [undefined] (a field that is [None] is left out).  The reader knows
    objects, arrays, strings, integers, booleans and [null]; a text that is
    not the text of a configuration is read as [None].  These are not the
    functions of the platform (which write [null] for a field that is
    [null] and read every JSON number); the properties stated for every
    implementation do not depend on them. *)
Module JsonText.

#[local] Set Warnings "-register-all".

Inductive jvalue :=
| Null
| Bool (b : bool)
| Number (z : Z)
| Str (s : string)
| Arr (elements : list jvalue)
| Obj (members : list (string * jvalue)).

(** ** Writing *)

Definition hex_digit (n : N) : ascii :=
  match n with
  | 0 => "0" | 1 => "1" | 2 => "2" | 3 => "3" | 4 => "4" | 5 => "5" | 6 => "6" | 7 => "7"
  | 8 => "8" | 9 => "9" | 10 => "a" | 11 => "b" | 12 => "c" | 13 => "d" | 14 => "e"
  | _ => "f"
  end%N%char.

Definition backslash : string := String "092"%char "".

Definition escape_char (c : ascii) : string :=
  let n := N_of_ascii c in
  if (n =? 34)%N then backslash +:+ dquote
  else if (n =? 92)%N then backslash +:+ backslash
  else if (n =? 8)%N then backslash +:+ "b"
  else if (n =? 9)%N then backslash +:+ "t"
  else if (n =? 10)%N then backslash +:+ "n"
  else if (n =? 12)%N then backslash +:+ "f"
  else if (n =? 13)%N then backslash +:+ "r"
  else if (n <? 32)%N
       then backslash +:+ "u00" +:+ String (hex_digit (n / 16)) (String (hex_digit (n mod 16)) "")
  else String c "".

Fixpoint escape (s : string) : string :=
  match s with
  | "" => ""
  | String c s' => escape_char c +:+ escape s'
  end.

Definition quote (s : string) : string := dquote +:+ escape s +:+ dquote.

Fixpoint indent (depth : nat) : string :=
  match depth with
  | 0 => ""
  | S d => "  " +:+ indent d
  end.

Fixpoint write (depth : nat) (v : jvalue) : string :=
  match v with
  | Null => "null"
  | Bool true => "true"
  | Bool false => "false"
  | Number z => show_Z z
  | Str s => quote s
  | Arr [] => "[]"
  | Arr elements =>
      "[" +:+ nl
      +:+ String.concat ("," +:+ nl)
            (map (fun x => indent (S depth) +:+ write (S depth) x) elements)
      +:+ nl +:+ indent depth +:+ "]"
  | Obj [] => "{}"
  | Obj members =>
      "{" +:+ nl
      +:+ String.concat ("," +:+ nl)
            (map (fun m => indent (S depth) +:+ quote (fst m) +:+ ": " +:+ write (S depth) (snd m))
                 members)
      +:+ nl +:+ indent depth +:+ "}"
  end.

Definition field (key : string) (o : option string) : list (string * jvalue) :=
  match o with
  | Some s => [(key, Str s)]
  | None => []
  end.

Definition of_pane (p : Pane) : jvalue :=
  Obj (field "split" (split p) ++ field "directory" (directory p) ++ field "command" (command p)
       ++ match resize p with
          | Some r => [("resize", Obj [("type", Str (type r)); ("value", Number (value r))])]
          | None => []
          end).

Definition of_config (c : Config) : jvalue :=
  Obj [("name", Str (name c)); ("baseDir", Str (baseDir c)); ("panes", Arr (map of_pane (panes c)))].

(** ** Reading *)

Definition is_space (c : ascii) : bool :=
  let n := N_of_ascii c in (n =? 32)%N || (n =? 9)%N || (n =? 10)%N || (n =? 13)%N.

Fixpoint skip_space (s : string) : string :=
  match s with
  | String c s' => if is_space c then skip_space s' else s
  | "" => ""
  end.

Definition hex_value (c : ascii) : option N :=
  let n := N_of_ascii c in
  if (48 <=? n)%N && (n <=? 57)%N then Some (n - 48)%N
  else if (97 <=? n)%N && (n <=? 102)%N then Some (n - 87)%N
  else if (65 <=? n)%N && (n <=? 70)%N then Some (n - 55)%N
  else None.

(** The characters of a string after its opening quote, and what follows
    the closing quote. *)
Fixpoint read_chars (s : string) : option (string * string) :=
  match s with
  | "" => None
  | String c s' =>
      let n := N_of_ascii c in
      if (n =? 34)%N then Some ("", s')
      else if (n <? 32)%N then None
      else if (n =? 92)%N then
        match s' with
        | "" => None
        | String e s'' =>
            let plain (ch : ascii) :=
              match read_chars s'' with
              | Some (body, rest) => Some (String ch body, rest)
              | None => None
              end in
            let m := N_of_ascii e in
            if (m =? 34)%N then plain "034"%char
            else if (m =? 92)%N then plain "092"%char
            else if (m =? 47)%N then plain "/"%char
            else if (m =? 98)%N then plain "008"%char
            else if (m =? 116)%N then plain "009"%char
            else if (m =? 110)%N then plain "010"%char
            else if (m =? 102)%N then plain "012"%char
            else if (m =? 114)%N then plain "013"%char
            else if (m =? 117)%N then
              match s'' with
              | String h1 (String h2 (String h3 (String h4 s4))) =>
                  match hex_value h1, hex_value h2, hex_value h3, hex_value h4 with
                  | Some 0%N, Some 0%N, Some a, Some b =>
                      match read_chars s4 with
                      | Some (body, rest) => Some (String (ascii_of_N (16 * a + b)) body, rest)
                      | None => None
                      end
                  | _, _, _, _ => None
                  end
              | _ => None
              end
            else None
        end
      else
        match read_chars s' with
        | Some (body, rest) => Some (String c body, rest)
        | None => None
        end
  end.

Definition digit_value (c : ascii) : option Z :=
  let n := N_of_ascii c in
  if (48 <=? n)%N && (n <=? 57)%N then Some (Z.of_N (n - 48)) else None.

Fixpoint read_digits (acc : Z) (s : string) : Z * string :=
  match s with
  | String c s' =>
      match digit_value c with
      | Some d => read_digits (10 * acc + d)%Z s'
      | None => (acc, s)
      end
  | "" => (acc, "")
  end.

(** An integer: an optional minus sign and digits. *)
Definition read_number (s : string) : option (Z * string) :=
  match s with
  | String "-" (String c s') =>
      match digit_value c with
      | Some d => let '(z, rest) := read_digits d s' in Some ((- z)%Z, rest)
      | None => None
      end
  | String c s' =>
      match digit_value c with
      | Some d => Some (read_digits d s')
      | None => None
      end
  | "" => None
  end.

Fixpoint drop_chars (n : nat) (s : string) : string :=
  match n, s with
  | S n', String _ s' => drop_chars n' s'
  | _, _ => s
  end.

(** [s] without its first character, when that is [ch]. *)
Definition starts (ch : ascii) (s : string) : option string :=
  match s with
  | String c s' => if Ascii.eqb c ch then Some s' else None
  | "" => None
  end.

(** The elements of an array after its first bracket, [read] reading one
    value. *)
Fixpoint read_elements (read : string -> option (jvalue * string)) (fuel : nat) (s : string)
  : option (list jvalue * string) :=
  match fuel with
  | 0 => None
  | S fuel' =>
      match read s with
      | Some (v, rest) =>
          match starts "," (skip_space rest) with
          | Some rest' =>
              match read_elements read fuel' rest' with
              | Some (vs, rest'') => Some (v :: vs, rest'')
              | None => None
              end
          | None =>
              match starts "]" (skip_space rest) with
              | Some rest' => Some ([v], rest')
              | None => None
              end
          end
      | None => None
      end
  end.

(** The members of an object after its first brace. *)
Fixpoint read_members (read : string -> option (jvalue * string)) (fuel : nat) (s : string)
  : option (list (string * jvalue) * string) :=
  match fuel with
  | 0 => None
  | S fuel' =>
      match starts "034" (skip_space s) with
      | Some s1 =>
          match read_chars s1 with
          | Some (key, s2) =>
              match starts ":" (skip_space s2) with
              | Some s3 =>
                  match read s3 with
                  | Some (v, rest) =>
                      match starts "," (skip_space rest) with
                      | Some rest' =>
                          match read_members read fuel' rest' with
                          | Some (ms, rest'') => Some ((key, v) :: ms, rest'')
                          | None => None
                          end
                      | None =>
                          match starts "}" (skip_space rest) with
                          | Some rest' => Some ([(key, v)], rest')
                          | None => None
                          end
                      end
                  | None => None
                  end
              | None => None
              end
          | None => None
          end
      | None => None
      end
  end.

Fixpoint read_value (fuel : nat) (s : string) : option (jvalue * string) :=
  match fuel with
  | 0 => None
  | S fuel' =>
      let s := skip_space s in
      match starts "{" s with
      | Some rest =>
          match starts "}" (skip_space rest) with
          | Some rest' => Some (Obj [], rest')
          | None => match read_members (read_value fuel') fuel' rest with
                    | Some (ms, rest') => Some (Obj ms, rest')
                    | None => None
                    end
          end
      | None =>
      match starts "[" s with
      | Some rest =>
          match starts "]" (skip_space rest) with
          | Some rest' => Some (Arr [], rest')
          | None => match read_elements (read_value fuel') fuel' rest with
                    | Some (vs, rest') => Some (Arr vs, rest')
                    | None => None
                    end
          end
      | None =>
      match starts "034" s with
      | Some rest =>
          match read_chars rest with
          | Some (body, rest') => Some (Str body, rest')
          | None => None
          end
      | None =>
          if String.prefix "null" s then Some (Null, drop_chars 4 s)
          else if String.prefix "true" s then Some (Bool true, drop_chars 4 s)
          else if String.prefix "false" s then Some (Bool false, drop_chars 5 s)
          else match read_number s with
               | Some (z, rest) => Some (Number z, rest)
               | None => None
               end
      end end end
  end.

Definition read (s : string) : option jvalue :=
  match read_value (S (String.length s)) s with
  | Some (v, rest) => if String.eqb (skip_space rest) "" then Some v else None
  | None => None
  end.

(** The number of values in a value, and of their places in arrays and
    objects. *)
Fixpoint size (v : jvalue) : nat :=
  match v with
  | Arr elements => S (length elements + list_sum (map size elements))
  | Obj members => S (length members + list_sum (map (fun m => size (snd m)) members))
  | _ => 1
  end.

(** The integer whose digits are those of [acc] followed by those of [u]. *)
Fixpoint uint_val (acc : Z) (u : Decimal.uint) : Z :=
  match u with
  | Decimal.Nil => acc
  | Decimal.D0 u' => uint_val (10 * acc) u'
  | Decimal.D1 u' => uint_val (10 * acc + 1) u'
  | Decimal.D2 u' => uint_val (10 * acc + 2) u'
  | Decimal.D3 u' => uint_val (10 * acc + 3) u'
  | Decimal.D4 u' => uint_val (10 * acc + 4) u'
  | Decimal.D5 u' => uint_val (10 * acc + 5) u'
  | Decimal.D6 u' => uint_val (10 * acc + 6) u'
  | Decimal.D7 u' => uint_val (10 * acc + 7) u'
  | Decimal.D8 u' => uint_val (10 * acc + 8) u'
  | Decimal.D9 u' => uint_val (10 * acc + 9) u'
  end%Z.

(** A text that does not start with a digit: what follows a number. *)
Definition no_digit (s : string) : bool :=
  match s with
  | String c _ => match digit_value c with Some _ => false | None => true end
  | "" => true
  end.

(** The first character of a value: no space, no comma, no closing bracket. *)
Definition value_head (c : ascii) : bool :=
  negb (is_space c) && negb (Ascii.eqb c ",") && negb (Ascii.eqb c "]")
  && negb (Ascii.eqb c "}").

Definition number_head (c : ascii) : bool :=
  match digit_value c with Some _ => true | None => Ascii.eqb c "-" end.

(** The text of the elements of an array, and of the members of an object. *)
Definition elements_text (d : nat) (l : list jvalue) : string :=
  String.concat ("," +:+ nl) (map (fun x => indent (S d) +:+ write (S d) x) l).

Definition members_text (d : nat) (l : list (string * jvalue)) : string :=
  String.concat ("," +:+ nl)
    (map (fun m => indent (S d) +:+ quote (fst m) +:+ ": " +:+ write (S d) (snd m)) l).

(** The value of a key of an object; a later member of the same key wins. *)
Fixpoint member (key : string) (members : list (string * jvalue))   : option jvalue :=
  match members with
  | [] => None
  | (k, v) :: rest =>
      match member key rest with
      | Some v' => Some v'
      | None => if String.eqb k key then Some v else None
      end
  end.

(** A field that holds a string, or nothing. *)
Definition text_field (key : string) (members : list (string * jvalue)) : option (option string) :=
  match member key members with
  | None | Some Null => Some None
  | Some (Str s) => Some (Some s)
  | Some _ => None
  end.

Definition to_resize (members : list (string * jvalue)) : option (option Resize) :=
  match member "resize" members with
  | None | Some Null => Some None
  | Some (Obj r) =>
      match member "type" r, member "value" r with
      | Some (Str t), Some (Number z) => Some (Some {| type := t; value := z |})
      | _, _ => None
      end
  | Some _ => None
  end.

Definition to_pane (v : jvalue) : option Pane :=
  match v with
  | Obj members =>
      s ← text_field "split" members;
      d ← text_field "directory" members;
      c ← text_field "command" members;
      r ← to_resize members;
      Some {| split := s; directory := d; command := c; resize := r |}
  | _ => None
  end.

Definition to_config (v : jvalue) : option Config :=
  match v with
  | Obj members =>
      match member "name" members, member "baseDir" members, member "panes" members with
      | Some (Str n), Some (Str b), Some (Arr ps) =>
          ps' ← mapM to_pane ps;
          Some {| name := n; baseDir := b; panes := ps' |}
      | _, _, _ => None
      end
  | _ => None
  end.

Instance text : JSON := {|
  JSON_stringify c := write 0 (of_config c);
  JSON_parse s := read s ≫= to_config
|}.

End JsonText.

(* ===================================================================== *)
(** * Example states and the invariant of the editors *)
(* ===================================================================== *)

(** ** Prompts and loops *)

(** A prompt keeps the disk and the console, takes one answer and adds one
    exchange to the transcript. *)
Definition answered (message : string) (a : Answer) (w w' : World) : Prop :=
  exists rest,
    answers w = a :: rest
    /\ w' = {| disk := disk w; answers := rest; transcript := transcript w ++ [(message, a)];
               console := console w; spawned := spawned w |}.

(** A step that only asks: it returns with the disk and the console as
    they were, or it waits. *)
Definition asks_only {A : Type} (m : Proc A) : Prop :=
  forall w, (exists a w1, m w = (Return a, w1) /\ disk w1 = disk w /\ console w1 = console w)
            \/ m w = (Pending, w).

(** A loop body that takes at least one answer in every turn after which
    the loop goes on. *)
Definition consuming {St R : Type} (body : St -> Proc (St + R)) : Prop :=
  forall s w s' w', body s w = (Return (inl s'), w') -> length (answers w') < length (answers w).

(** ** The invariant of the editors *)

(** Pane 0 exists and has no split. *)
Definition root_ok (config : Config) : Prop :=
  exists p0 rest, panes config = p0 :: rest /\ split p0 = None.

(** Pane 0 of [config'] is pane 0 of [config], but for its command and its
    size. *)
Definition same_root (config config' : Config) : Prop :=
  forall p0, head (panes config) = Some p0 ->
    exists p0', head (panes config') = Some p0'
                /\ split p0' = split p0 /\ directory p0' = directory p0.

(** [config'] is [config] with fields of pane [i] changed; of pane 0 only
    the command and the size change. *)
Definition edits_pane (i : nat) (config config' : Config) : Prop :=
  length (panes config') = length (panes config)
  /\ (forall j, j <> i -> panes config' !! j = panes config !! j)
  /\ (i = 0 -> forall p0, panes config !! 0 = Some p0 ->
        exists p0', panes config' !! 0 = Some p0'
                    /\ split p0' = split p0 /\ directory p0' = directory p0).

(** A disk that already holds the workspace dev, and the layout that
    [create] builds when the user only sets the name dev. *)
Definition existing_dev {json : JSON} : FS :=
  {| scripts := Some {["dev.sh" := generateScript dev_layout]};
     configs := Some {["dev.json" := JSON_stringify dev_layout]} |}.

Definition fresh_dev (cwd : string) : Config := set_name "dev" (initial_config cwd).

(** A disk with the script of a workspace whose name holds ".sh", and no
    descriptor. *)
Definition shell_disk : FS :=
  {| scripts := Some {["my.shop.sh" := "#!/bin/bash"]}; configs := Some ∅ |}.

(** A disk with the script of the workspace solo, and no descriptor. *)
Definition solo_disk : FS :=
  {| scripts := Some {["solo.sh" := "#!/bin/bash"]}; configs := Some ∅ |}.

(** A layout of two panes, in the menu of [create]. *)
Definition two_panes : Config :=
  {| name := ""; baseDir := "/proj";
     panes := [ {| split := None; directory := None; command := Some ""; resize := None |};
                {| split := Some "horizontal"; directory := None; command := Some "htop";
                   resize := None |} ] |}.

(** A process at its start: a disk, and the answers the user will give. *)
Definition start (fs : FS) (answers : list Answer) : World :=
  {| disk := fs; answers := answers; transcript := []; console := []; spawned := [] |}.

(** Both directories exist and are empty. *)
Definition empty_disk : FS := {| scripts := Some ∅; configs := Some ∅ |}.

(** A layout with a line feed in the directory of its second pane, and one
    whose resize type is neither width nor height. *)
Definition two_line_directory : Config :=
  {| name := "x"; baseDir := "/";
     panes := [ {| split := None; directory := None; command := Some ""; resize := None |};
                {| split := Some "vertical";
                   directory := Some ("/tmp" +:+ nl +:+ "tmux split-window -h -c /srv");
                   command := Some ""; resize := None |} ] |}.

Definition odd_resize : Config :=
  {| name := "x"; baseDir := "/";
     panes := [ {| split := None; directory := None; command := Some "";
                   resize := Some {| type := "depth"; value := 5 |} |} ] |}.

(** ** What a step leaves as it was *)

(** [m] ends with the same [f] of the world as it started with, however it
    ends. *)
Definition keeps {X A : Type} (f : World -> X) (m : Proc A) : Prop :=
  forall w, f (m w).2 = f w.

(** [m] returns or waits: it neither throws nor exits. *)
Definition calm {A : Type} (m : Proc A) : Prop :=
  forall w, (exists a w', m w = (Return a, w')) \/ (exists w', m w = (Pending, w')).

(** A view of the world that does not look at the answers and at the
    transcript. *)
Definition prompt_free {X : Type} (f : World -> X) : Prop :=
  forall w ans tr,
    f {| disk := disk w; answers := ans; transcript := tr;
         console := console w; spawned := spawned w |} = f w.

(** ** The layouts the menus build *)

(** A pane added by a menu: split horizontally or vertically, with a
    directory that is not the empty text, resized by width or by height. *)
Definition menu_pane (p : Pane) : Prop :=
  (split p = Some "horizontal" \/ split p = Some "vertical")
  /\ directory p <> Some ""
  /\ resize_ok (resize p) = true.

(** Pane 0 in a menu: no split, no directory. *)
Definition menu_root (p : Pane) : Prop :=
  split p = None /\ directory p = None /\ resize_ok (resize p) = true.

Definition menu_layout (c : Config) : Prop :=
  exists p0 rest, panes c = p0 :: rest /\ menu_root p0 /\ Forall menu_pane rest.

(* ===================================================================== *)
(** * Properties of texts *)
(* ===================================================================== *)

Lemma app_cons (a : ascii) (s t : string) : String a s +:+ t = String a (s +:+ t).
Proof. reflexivity. Qed.

Lemma app_empty_l (t : string) : "" +:+ t = t.
Proof. reflexivity. Qed.

Lemma app_empty_r (s : string) : s +:+ "" = s.
Proof. induction s as [|a s IH]; [reflexivity|]. by rewrite app_cons, IH. Qed.

Lemma app_assoc_s (s t u : string) : (s +:+ t) +:+ u = s +:+ (t +:+ u).
Proof. induction s as [|a s IH]; [reflexivity|]. by rewrite !app_cons, IH. Qed.

Lemma list_ascii_app (s t : string) :
  list_ascii_of_string (s +:+ t) = list_ascii_of_string s ++ list_ascii_of_string t.
Proof. induction s as [|a s IH]; [reflexivity|]. rewrite app_cons. cbn. by rewrite IH. Qed.

Lemma app_inj_r (s1 s2 t : string) : s1 +:+ t = s2 +:+ t -> s1 = s2.
Proof.
  intros H. apply (f_equal list_ascii_of_string) in H.
  rewrite !list_ascii_app in H. apply app_inv_tail in H.
  rewrite <- (string_of_list_ascii_of_string s1), <- (string_of_list_ascii_of_string s2).
  by rewrite H.
Qed.

Lemma glue_app (l1 l2 : list string) : glue (l1 ++ l2) = glue l1 +:+ glue l2.
Proof.
  induction l1 as [|x l1 IH]; [reflexivity|].
  cbn [glue foldr app]. fold (glue (l1 ++ l2)). fold (glue l1).
  by rewrite IH, app_assoc_s.
Qed.

Lemma nl_each_app (l1 l2 : list string) : nl_each (l1 ++ l2) = nl_each l1 +:+ nl_each l2.
Proof. unfold nl_each. by rewrite map_app, glue_app. Qed.

Lemma nl_each_cons (x : string) (l : list string) : nl_each (x :: l) = nl +:+ x +:+ nl_each l.
Proof. unfold nl_each. cbn [map glue foldr]. by rewrite app_assoc_s. Qed.

Lemma unlines_cons (x : string) (l : list string) : unlines (x :: l) = x +:+ nl_each l.
Proof.
  revert x. induction l as [|y l IH]; intros x.
  - cbn. by rewrite app_empty_r.
  - change (unlines (x :: y :: l)) with (x +:+ nl +:+ unlines (y :: l)).
    by rewrite IH, nl_each_cons.
Qed.

Lemma unlines_app (l1 l2 : list string) :
  l1 ≠ [] -> unlines (l1 ++ l2) = unlines l1 +:+ nl_each l2.
Proof.
  destruct l1 as [|x l1]; [done|]. intros _.
  rewrite <- app_comm_cons, !unlines_cons, nl_each_app. by rewrite app_assoc_s.
Qed.

Lemma lines_nonempty (s : string) : lines s ≠ [].
Proof.
  induction s as [|c s IH]; [done|]. cbn [lines].
  destruct (Ascii.eqb c LF); [done|]. by destruct (lines s).
Qed.

Lemma lines_app_nl (a b : string) : lines (a +:+ nl +:+ b) = lines a ++ lines b.
Proof.
  induction a as [|c a IH].
  - reflexivity.
  - rewrite app_cons. cbn [lines]. rewrite IH.
    destruct (Ascii.eqb c LF); [reflexivity|].
    pose proof (lines_nonempty a). by destruct (lines a).
Qed.

Lemma single_line_cons (c : ascii) (s : string) :
  single_line (String c s) = negb (Ascii.eqb c LF) && single_line s.
Proof.
  unfold single_line, nl. cbn [includes String.prefix].
  destruct (ascii_dec LF c) as [<-|Hne].
  - by destruct s.
  - assert (Ascii.eqb c LF = false) as ->.
    { apply Ascii.eqb_neq. congruence. }
    reflexivity.
Qed.

Lemma single_line_app (s t : string) :
  single_line (s +:+ t) = single_line s && single_line t.
Proof.
  induction s as [|c s IH]; [reflexivity|].
  rewrite app_cons, !single_line_cons, IH. by rewrite andb_assoc.
Qed.

Lemma lines_single (s : string) : single_line s = true -> lines s = [s].
Proof.
  induction s as [|c s IH]; [reflexivity|].
  rewrite single_line_cons. intros [Hc Hs]%andb_prop.
  cbn [lines]. apply negb_true_iff in Hc. rewrite Hc, (IH Hs). reflexivity.
Qed.

Lemma lines_nl_each (a : string) (ls : list string) :
  forallb single_line ls = true -> lines (a +:+ nl_each ls) = lines a ++ ls.
Proof.
  revert a. induction ls as [|x ls IH]; intros a Hls.
  - cbn. by rewrite app_empty_r, app_nil_r.
  - cbn [forallb] in Hls. apply andb_prop in Hls as [Hx Hls].
    rewrite nl_each_cons, lines_app_nl, (IH x Hls), (lines_single x Hx). reflexivity.
Qed.

Lemma lines_unlines (ls : list string) :
  ls ≠ [] -> forallb single_line ls = true -> lines (unlines ls) = ls.
Proof.
  destruct ls as [|x ls]; [done|]. intros _ Hls.
  cbn [forallb] in Hls. apply andb_prop in Hls as [Hx Hls].
  by rewrite unlines_cons, (lines_nl_each x ls Hls), (lines_single x Hx).
Qed.

Lemma single_line_uint (u : Decimal.uint) : single_line (NilEmpty.string_of_uint u) = true.
Proof. induction u; cbn [NilEmpty.string_of_uint]; rewrite ?single_line_cons; by rewrite ?IHu. Qed.

Lemma single_line_show_nat (n : nat) : single_line (show_nat n) = true.
Proof.
  unfold show_nat, NilZero.string_of_uint.
  destruct (Nat.to_uint n); try reflexivity; apply single_line_uint.
Qed.

Lemma single_line_show_Z (z : Z) : single_line (show_Z z) = true.
Proof.
  unfold show_Z, NilZero.string_of_int.
  destruct (Z.to_int z) as [u|u].
  - unfold NilZero.string_of_uint. destruct u; try reflexivity; apply single_line_uint.
  - rewrite single_line_cons. cbn [negb Ascii.eqb andb].
    unfold NilZero.string_of_uint. destruct u; try reflexivity; apply single_line_uint.
Qed.

(* ===================================================================== *)
(** * Properties of the compiler *)
(* ===================================================================== *)

Lemma fold_left_append {B : Type} (g : B -> string) (l : list B) (s : string) :
  fold_left (fun acc x => acc +:+ g x) l s = s +:+ glue (map g l).
Proof.
  revert s. induction l as [|x l IH]; intros s; cbn [fold_left map].
  - by rewrite app_empty_r.
  - rewrite IH. cbn [glue foldr]. by rewrite app_assoc_s.
Qed.

(** The loop over the indices [1 .. length - 1] visits the panes after the
    first one, in order. *)
Lemma for_range_drop {A B : Type} (f : B -> A -> A) (l : list B) (k : nat) (acc : A) :
  for_range k (length l)
    (fun i acc => match l !! i with Some x => f x acc | None => acc end) acc
  = fold_left (fun acc x => f x acc) (drop k l) acc.
Proof.
  unfold for_range.
  remember (length l - k) as n eqn:Hn. revert k acc Hn.
  induction n as [|n IH]; intros k acc Hn.
  - rewrite drop_ge by lia. reflexivity.
  - assert (k < length l) as Hk by lia.
    destruct (lookup_lt_is_Some_2 l k Hk) as [x Hx].
    rewrite (drop_S l x k Hx). cbn [seq fold_left]. rewrite Hx.
    apply IH. lia.
Qed.

Lemma split_step_eq (pane : Pane) (script : string) :
  split_step pane script = script +:+ (nl +:+ split_line pane).
Proof.
  unfold split_step, split_line, orientation_flag, target_directory.
  destruct (decide (split pane = Some "horizontal")); reflexivity.
Qed.

Lemma resize_step_eq (pane : Pane) (i : nat) (script : string) :
  resize_step pane i script = script +:+ nl_each (resize_lines i pane).
Proof.
  unfold resize_step, resize_lines.
  destruct (resize pane) as [r|]; [|by rewrite app_empty_r].
  destruct (decide (type r = "width")); [|destruct (decide (type r = "height"))];
    cbn [app]; rewrite !nl_each_cons; unfold nl_each; cbn [map glue foldr];
    rewrite ?app_assoc_s, ?app_empty_r; reflexivity.
Qed.

Lemma command_step_eq (pane : Pane) (i : nat) (script : string) :
  command_step pane i script = script +:+ nl_each (command_lines i pane).
Proof.
  unfold command_step, command_lines.
  destruct (truthy (command pane)); [|by rewrite app_empty_r].
  rewrite nl_each_cons. unfold nl_each. cbn [map glue foldr].
  by rewrite app_empty_r.
Qed.

Lemma forEach_from_lines {B : Type} (body : B -> nat -> string -> string)
    (g : nat -> B -> list string) (l : list B) (i : nat) (s : string) :
  (forall x j acc, body x j acc = acc +:+ nl_each (g j x)) ->
  forEach_from body i l s = s +:+ nl_each (concat (imap (fun j => g (i + j)) l)).
Proof.
  intros Hbody. revert i s. induction l as [|x l IH]; intros i s.
  - cbn. by rewrite app_empty_r.
  - cbn [forEach_from imap concat]. rewrite IH, Hbody, nl_each_app, app_assoc_s.
    rewrite Nat.add_0_r. do 4 f_equal.
    apply imap_ext. intros j y _. cbn. f_equal. lia.
Qed.

Lemma forEach_lines {B : Type} (body : B -> nat -> string -> string)
    (g : nat -> B -> list string) (l : list B) (s : string) :
  (forall x j acc, body x j acc = acc +:+ nl_each (g j x)) ->
  forEach l body s = s +:+ nl_each (concat (imap g l)).
Proof. intros Hbody. unfold forEach. by rewrite (forEach_from_lines body g l 0 s Hbody). Qed.

Lemma script_head_unlines (name baseDir : string) :
  script_head name baseDir = unlines (head_lines name baseDir).
Proof.
  unfold script_head, head_lines, unlines. cbn [String.concat].
  rewrite !app_assoc_s, ?app_empty_r. reflexivity.
Qed.

Lemma script_tail_nl_each : script_tail = nl_each tail_lines.
Proof. reflexivity. Qed.

(** The script is the head, the three phases and the tail, joined by line
    feeds. *)
Lemma generateScript_unlines (config : Config) :
  generateScript config = unlines (script_lines config).
Proof.
  unfold generateScript, script_lines.
  rewrite (for_range_drop split_step (panes config) 1).
  rewrite (forEach_lines command_step command_lines) by apply command_step_eq.
  rewrite (forEach_lines resize_step resize_lines) by apply resize_step_eq.
  assert (forall l s, fold_left (fun acc x => split_step x acc) l s
                      = s +:+ nl_each (map split_line l)) as ->.
  { intros l s. unfold nl_each. rewrite map_map.
    rewrite <- (fold_left_append (fun x => nl +:+ split_line x)).
    revert s. induction l as [|x l IH]; intros s; [reflexivity|].
    cbn [fold_left]. by rewrite split_step_eq, IH. }
  rewrite script_head_unlines, script_tail_nl_each.
  rewrite unlines_app by done. rewrite !nl_each_app, !app_assoc_s. reflexivity.
Qed.

(** ** Counting the commands of a script *)

Lemma prefix_app (p x : string) : String.prefix p (p +:+ x) = true.
Proof.
  induction p as [|a p IH]; [by destruct x|].
  rewrite app_cons. cbn [String.prefix]. by destruct (ascii_dec a a).
Qed.

Lemma count_if_app {A : Type} (P : A -> bool) (l1 l2 : list A) :
  count_if P (l1 ++ l2) = count_if P l1 + count_if P l2.
Proof. induction l1 as [|x l1 IH]; [reflexivity|]. cbn [app count_if]. rewrite IH. lia. Qed.

Lemma count_if_none {A : Type} (P : A -> bool) (l : list A) :
  forallb (fun x => negb (P x)) l = true -> count_if P l = 0.
Proof.
  induction l as [|x l IH]; [reflexivity|]. cbn [forallb count_if].
  intros [Hx Hl]%andb_prop. apply negb_true_iff in Hx. by rewrite Hx, (IH Hl).
Qed.

Lemma count_if_map {A B : Type} (P : B -> bool) (f : A -> B) (l : list A) :
  count_if P (map f l) = count_if (fun x => P (f x)) l.
Proof. induction l as [|x l IH]; [reflexivity|]. cbn [map count_if]. by rewrite IH. Qed.

Lemma count_if_all {A : Type} (P : A -> bool) (l : list A) :
  forallb P l = true -> count_if P l = length l.
Proof.
  induction l as [|x l IH]; [reflexivity|]. cbn [forallb count_if length].
  intros [Hx Hl]%andb_prop. by rewrite Hx, (IH Hl).
Qed.

(** Blocks of lines, one per element: the count adds up. *)
Lemma count_if_blocks {A : Type} (P : string -> bool) (Q : A -> bool)
    (f : nat -> A -> list string) (l : list A) :
  (forall j x, x ∈ l -> count_if P (f j x) = if Q x then 1 else 0) ->
  count_if P (concat (imap f l)) = count_if Q l.
Proof.
  revert f. induction l as [|x l IH]; intros f Hf; [reflexivity|].
  cbn [imap concat count_if]. rewrite count_if_app, Hf by left.
  f_equal. apply IH. intros j y Hy. apply Hf. by right.
Qed.

Lemma count_pairs_no_first (P Q : string -> bool) (l1 l2 : list string) :
  forallb (fun x => negb (P x)) l1 = true ->
  count_pairs P Q (l1 ++ l2) = count_pairs P Q l2.
Proof.
  induction l1 as [|x l1 IH]; [reflexivity|]. cbn [forallb].
  intros [Hx Hl]%andb_prop. apply negb_true_iff in Hx.
  cbn [app count_pairs]. rewrite Hx, (IH Hl). cbn [andb]. by destruct (l1 ++ l2).
Qed.

Lemma count_pairs_no_second (P Q : string -> bool) (l1 l2 : list string) :
  forallb (fun x => negb (Q x)) l2 = true ->
  count_pairs P Q (l1 ++ l2) = count_pairs P Q l1.
Proof.
  intros Hl2.
  assert (count_pairs P Q l2 = 0) as H0.
  { clear l1. induction l2 as [|x l2 IH]; [reflexivity|].
    cbn [forallb] in Hl2. apply andb_prop in Hl2 as [_ Hl2].
    cbn [count_pairs]. rewrite (IH Hl2).
    destruct l2 as [|y l2]; [reflexivity|].
    cbn [forallb] in Hl2. apply andb_prop in Hl2 as [Hy _].
    apply negb_true_iff in Hy. rewrite Hy. by destruct (P x). }
  induction l1 as [|x l1 IH]; [exact H0|].
  cbn [app count_pairs]. rewrite IH. f_equal.
  destruct l1 as [|y l1]; [|reflexivity].
  destruct l2 as [|y l2]; [reflexivity|].
  cbn [forallb] in Hl2. apply andb_prop in Hl2 as [Hy _].
  apply negb_true_iff in Hy. cbn [app]. rewrite Hy. by destruct (P x).
Qed.

(** Blocks that hold one pair each, or nothing, and that neither start with
    a [Q] line nor end with a [P] line. *)
Lemma count_pairs_blocks {A : Type} (P Q : string -> bool) (R : A -> bool)
    (f : nat -> A -> list string) (l : list A) :
  (forall j x, x ∈ l ->
     if R x then exists a b c, f j x = [a; b; c] /\ P a = false /\ P b = true /\ Q b = false
                               /\ Q c = true /\ P c = false
     else f j x = []) ->
  count_pairs P Q (concat (imap f l)) = count_if R l.
Proof.
  revert f. induction l as [|x l IH]; intros f Hf; [reflexivity|].
  cbn [imap concat count_if].
  assert (count_pairs P Q (concat (imap (f ∘ S) l)) = count_if R l) as Hrest.
  { apply IH. intros j y Hy. apply Hf. by right. }
  specialize (Hf 0 x ltac:(left)). destruct (R x).
  - destruct Hf as (a & b & c & -> & Ha & Hb & Hqb & Hc & Hpc).
    cbn [app count_pairs]. rewrite Ha, Hb, Hc, Hpc, Hrest. cbn [andb].
    destruct (concat _); reflexivity.
  - by rewrite Hf.
Qed.

Lemma single_line_or_else (o : option string) (d : string) :
  single_line (default "" o) = true -> single_line d = true -> single_line (or_else o d) = true.
Proof. destruct o as [s0|]; cbn; [|done]. by destruct (String.eqb s0 ""). Qed.

Lemma forallb_concat_imap {A B : Type} (P : B -> bool) (f : nat -> A -> list B) (l : list A) :
  (forall j x, x ∈ l -> forallb P (f j x) = true) ->
  forallb P (concat (imap f l)) = true.
Proof.
  revert f. induction l as [|x l IH]; intros f Hf; [reflexivity|].
  cbn [imap concat]. rewrite forallb_app, Hf by left.
  apply IH. intros j y Hy. apply Hf. by right.
Qed.

Lemma layout_ok_panes (c : Config) (p : Pane) :
  layout_ok c = true -> p ∈ panes c -> pane_ok p = true.
Proof.
  unfold layout_ok. intros [_ Hall]%andb_prop Hp.
  rewrite forallb_forall in Hall. apply Hall. by apply list_elem_of_In.
Qed.

(** The lines of the script of a layout whose texts are single lines. *)
Lemma lines_generateScript (c : Config) :
  layout_ok c = true -> lines (generateScript c) = script_lines c.
Proof.
  intros Hok. rewrite generateScript_unlines. apply lines_unlines.
  { unfold script_lines, head_lines. done. }
  pose proof (layout_ok_panes c) as Hpanes.
  pose proof Hok as Hok0. unfold layout_ok in Hok.
  apply andb_prop in Hok as [[Hname Hbase]%andb_prop _].
  assert (forallb single_line (head_lines (name c) (baseDir c)) = true) as H1.
  { unfold head_lines. cbn [forallb]. rewrite !single_line_app, Hname, Hbase. reflexivity. }
  assert (forallb single_line (split_phase (panes c)) = true) as H2.
  { unfold split_phase. rewrite forallb_forall. intros x [p [<- Hp]]%in_map_iff.
    assert (p ∈ panes c) as Hin.
    { apply list_elem_of_In in Hp. eapply subseteq_drop; eauto. }
    specialize (Hpanes p Hok0 Hin).
    unfold pane_ok in Hpanes. apply andb_prop in Hpanes as [[Hd _]%andb_prop _].
    unfold split_line, orientation_flag, target_directory.
    rewrite !single_line_app, (single_line_or_else _ "$BASE_DIR" Hd eq_refl).
    by destruct (decide _). }
  assert (forallb single_line (resize_phase (panes c)) = true) as H3.
  { apply forallb_concat_imap. intros j p Hin. unfold resize_lines.
    destruct (resize p) as [r|]; [|reflexivity].
    destruct (decide _); [|destruct (decide _)]; cbn [app forallb];
      rewrite ?single_line_app, ?single_line_show_nat, ?single_line_show_Z; reflexivity. }
  assert (forallb single_line (command_phase (panes c)) = true) as H4.
  { apply forallb_concat_imap. intros j p Hin. unfold command_lines.
    specialize (Hpanes p Hok0 Hin).
    unfold pane_ok in Hpanes. apply andb_prop in Hpanes as [[_ Hc]%andb_prop _].
    destruct (truthy (command p)); [|reflexivity]. cbn [forallb].
    rewrite !single_line_app, single_line_show_nat, Hc. reflexivity. }
  unfold script_lines. rewrite !forallb_app, H1, H2, H3, H4. reflexivity.
Qed.

Lemma count_if_phase {A : Type} (P : string -> bool) (f : nat -> A -> list string) (l : list A) :
  (forall j x, forallb (fun s => negb (P s)) (f j x) = true) ->
  count_if P (concat (imap f l)) = 0.
Proof.
  intros Hf. apply count_if_none, forallb_concat_imap. intros j x _. apply Hf.
Qed.

Lemma resize_lines_other (P : string -> bool) (j : nat) (p : Pane) :
  P "" = false ->
  (forall x, P ("tmux select-pane -t " +:+ x) = false) ->
  (forall x, P ("tmux resize-pane -x " +:+ x) = false) ->
  (forall x, P ("tmux resize-pane -y " +:+ x) = false) ->
  forallb (fun s => negb (P s)) (resize_lines j p) = true.
Proof.
  intros H0 H1 H2 H3. unfold resize_lines. destruct (resize p) as [r|]; [|reflexivity].
  destruct (decide _); [|destruct (decide _)]; cbn [app forallb];
    by rewrite ?H0, ?H1, ?H2, ?H3.
Qed.

Lemma command_lines_other (P : string -> bool) (j : nat) (p : Pane) :
  (forall x, P ("tmux send-keys -t " +:+ x) = false) ->
  forallb (fun s => negb (P s)) (command_lines j p) = true.
Proof.
  intros H. unfold command_lines. destruct (truthy (command p)); [|reflexivity].
  cbn [forallb]. by rewrite H.
Qed.

Lemma split_phase_other (P : string -> bool) (l : list Pane) :
  (forall x, P ("tmux split-window " +:+ x) = false) ->
  forallb (fun s => negb (P s)) (split_phase l) = true.
Proof.
  intros H. unfold split_phase. rewrite forallb_forall.
  intros x [p [<- _]]%in_map_iff. unfold split_line. by rewrite H.
Qed.

Lemma resize_ok_in (c : Config) (p : Pane) :
  layout_ok c = true -> p ∈ panes c -> resize_ok (resize p) = true.
Proof.
  intros Hok Hin. pose proof (layout_ok_panes c p Hok Hin) as Hp.
  unfold pane_ok in Hp. by apply andb_prop in Hp as [_ Hr].
Qed.

Lemma head_lines_count (n b : string) :
  count_if is_split_window (head_lines n b) = 0
  /\ count_if is_resize_pane (head_lines n b) = 0
  /\ count_if is_send_keys (head_lines n b) = 0.
Proof. repeat split; reflexivity. Qed.

Lemma tail_lines_count :
  count_if is_split_window tail_lines = 0
  /\ count_if is_resize_pane tail_lines = 0
  /\ count_if is_send_keys tail_lines = 0.
Proof. repeat split; reflexivity. Qed.

(** C1 (as amended).  For every layout whose texts ([name], [baseDir], the
    directories and the commands) are single lines and whose resize types
    are width or height: the script has [length panes - 1] split-window
    lines, one select-pane line directly followed by a resize-pane line for
    every pane with a resize (and no other resize-pane line), and one
    send-keys line for every pane with a non-empty command. *)
Theorem script_command_counts (c : Config) :
  layout_ok c = true ->
  count_if is_split_window (lines (generateScript c)) = length (panes c) - 1
  /\ count_pairs is_select_pane is_resize_pane (lines (generateScript c))
     = count_if has_resize (panes c)
  /\ count_if is_resize_pane (lines (generateScript c)) = count_if has_resize (panes c)
  /\ count_if is_send_keys (lines (generateScript c)) = count_if has_command (panes c).
Proof.
  intros Hok. rewrite (lines_generateScript c Hok).
  unfold script_lines, resize_phase, command_phase.
  assert (forall j p, p ∈ panes c ->
            count_if is_resize_pane (resize_lines j p) = if has_resize p then 1 else 0) as Hres.
  { intros j p Hin. pose proof (resize_ok_in c p Hok Hin) as Hr.
    unfold resize_lines, has_resize. destruct (resize p) as [r|]; [|reflexivity].
    cbn in Hr. destruct (decide (type r = "width")); [reflexivity|].
    destruct (decide (type r = "height")); [reflexivity|].
    rewrite !bool_decide_eq_false_2 in Hr by done. done. }
  destruct (head_lines_count (name c) (baseDir c)) as (Hh1 & Hh2 & Hh3).
  destruct tail_lines_count as (Ht1 & Ht2 & Ht3).
  repeat split.
  - rewrite !count_if_app.
    rewrite (count_if_phase is_split_window resize_lines)
      by (intros; apply resize_lines_other; reflexivity).
    rewrite (count_if_phase is_split_window command_lines)
      by (intros; apply command_lines_other; reflexivity).
    unfold split_phase. rewrite count_if_map, (count_if_all _ (drop 1 (panes c))).
    + rewrite length_drop, Hh1, Ht1. lia.
    + rewrite forallb_forall. intros p _. apply prefix_app.
  - rewrite app_assoc, count_pairs_no_first.
    2:{ rewrite forallb_app. apply andb_true_intro; split; [reflexivity|].
        apply split_phase_other. reflexivity. }
    rewrite count_pairs_no_second.
    2:{ rewrite forallb_app. apply andb_true_intro; split; [|reflexivity].
        apply forallb_concat_imap. intros j p _. apply command_lines_other. reflexivity. }
    apply count_pairs_blocks. intros j p Hin.
    pose proof (resize_ok_in c p Hok Hin) as Hr.
    unfold resize_lines, has_resize. destruct (resize p) as [r|]; [|reflexivity].
    cbn in Hr. rewrite bool_decide_eq_true_2 by done.
    destruct (decide (type r = "width")); [|destruct (decide (type r = "height"))].
    + eexists _, _, _. split; [reflexivity|]. repeat split; apply prefix_app || reflexivity.
    + eexists _, _, _. split; [reflexivity|]. repeat split; apply prefix_app || reflexivity.
    + rewrite !bool_decide_eq_false_2 in Hr by done. done.
  - rewrite !count_if_app.
    rewrite (count_if_none is_resize_pane (split_phase _))
      by (apply split_phase_other; reflexivity).
    rewrite (count_if_phase is_resize_pane command_lines)
      by (intros; apply command_lines_other; reflexivity).
    rewrite (count_if_blocks is_resize_pane has_resize resize_lines) by exact Hres.
    rewrite Hh2, Ht2. lia.
  - rewrite !count_if_app.
    rewrite (count_if_none is_send_keys (split_phase _))
      by (apply split_phase_other; reflexivity).
    rewrite (count_if_phase is_send_keys resize_lines)
      by (intros; apply resize_lines_other; reflexivity).
    rewrite (count_if_blocks is_send_keys has_command command_lines).
    + rewrite Hh3, Ht3. lia.
    + intros j p _. unfold command_lines, has_command.
      destruct (truthy (command p)); [|reflexivity].
      cbn [count_if]. unfold is_send_keys. by rewrite prefix_app.
Qed.

(** C1 at the example layout of the specification. *)
Lemma script_command_counts_witness :
  layout_ok dev_layout = true
  /\ count_if is_split_window (lines (generateScript dev_layout)) = 1
  /\ count_pairs is_select_pane is_resize_pane (lines (generateScript dev_layout)) = 1
  /\ count_if is_resize_pane (lines (generateScript dev_layout)) = 1
  /\ count_if is_send_keys (lines (generateScript dev_layout)) = 2.
Proof.
  split; [reflexivity|].
  exact (script_command_counts dev_layout eq_refl).
Defined.

(** C1 as stated fails: a directory that holds a line feed puts a second
    split-window line into a script of two panes, and a resize whose type
    is neither width nor height gives a select-pane line without a
    resize-pane line. *)
Lemma script_command_counts_unrestricted_fails :
  count_if is_split_window (lines (generateScript two_line_directory))
    <> length (panes two_line_directory) - 1
  /\ count_pairs is_select_pane is_resize_pane (lines (generateScript odd_resize))
    <> count_if has_resize (panes odd_resize).
Proof. split; vm_compute; discriminate. Qed.

Lemma split_phase_lookup (l : list Pane) (i : nat) :
  split_phase l !! i = split_line <$> l !! S i.
Proof. unfold split_phase. rewrite list_lookup_fmap, lookup_drop. reflexivity. Qed.

(** C7.  The script is its head, then one split-window command for every
    pane of index 1 and up, in the order of [panes], then the rest; the
    command of a pane has [-h] for split horizontal and [-v] for split
    vertical, and its directory is the pane's own when that is set (a
    non-empty text) and the variable [$BASE_DIR] otherwise. *)
Theorem split_commands_in_order (c : Config) :
  generateScript c
  = script_head (name c) (baseDir c)
    +:+ nl_each (split_phase (panes c))
    +:+ nl_each (resize_phase (panes c) ++ command_phase (panes c) ++ tail_lines)
  /\ length (split_phase (panes c)) = length (panes c) - 1
  /\ forall (i : nat) (pane : Pane),
       panes c !! S i = Some pane ->
       split_phase (panes c) !! i
       = Some ("tmux split-window " +:+ orientation_flag pane +:+ " -c " +:+ target_directory pane)
       /\ (split pane = Some "horizontal" -> orientation_flag pane = "-h")
       /\ (split pane = Some "vertical" -> orientation_flag pane = "-v")
       /\ (forall d, directory pane = Some d -> d <> "" -> target_directory pane = d)
       /\ (directory pane = None \/ directory pane = Some "" ->
           target_directory pane = "$BASE_DIR").
Proof.
  split; [|split].
  - rewrite generateScript_unlines. unfold script_lines.
    rewrite unlines_app by done. by rewrite nl_each_app, script_head_unlines.
  - unfold split_phase. rewrite length_map, length_drop. reflexivity.
  - intros i pane Hi. rewrite split_phase_lookup, Hi. split; [reflexivity|].
    unfold orientation_flag, target_directory. repeat split.
    + intros ->. reflexivity.
    + intros ->. reflexivity.
    + intros d -> Hd. cbn. apply String.eqb_neq in Hd. by rewrite Hd.
    + intros [-> | ->]; reflexivity.
Qed.

(** C9.  Two compilations of one layout give the same text, which is the
    head, the split phase, the resize phase, the command phase and the
    tail, each phase following the order of [panes]. *)
Theorem generateScript_deterministic (c1 c2 : Config) :
  name c1 = name c2 -> baseDir c1 = baseDir c2 -> panes c1 = panes c2 ->
  generateScript c1 = generateScript c2
  /\ generateScript c1
     = unlines (head_lines (name c2) (baseDir c2)
                ++ map split_line (drop 1 (panes c2))
                ++ concat (imap resize_lines (panes c2))
                ++ concat (imap command_lines (panes c2))
                ++ tail_lines).
Proof.
  intros Hn Hb Hp.
  assert (c1 = c2) as -> by (destruct c1, c2; cbn in *; congruence).
  split; [reflexivity|]. apply generateScript_unlines.
Qed.

Lemma generateScript_deterministic_witness :
  generateScript dev_layout = generateScript dev_layout
  /\ generateScript dev_layout
     = unlines (head_lines "dev" "/proj"
                ++ map split_line (drop 1 (panes dev_layout))
                ++ concat (imap resize_lines (panes dev_layout))
                ++ concat (imap command_lines (panes dev_layout))
                ++ tail_lines).
Proof.
  exact (generateScript_deterministic dev_layout dev_layout eq_refl eq_refl eq_refl).
Defined.

(* ===================================================================== *)
(** * Properties of the process *)
(* ===================================================================== *)

#[local] Arguments ret {A} a w /.
#[local] Arguments throw {A} e w /.
#[local] Arguments process_exit {A} code w /.
#[local] Arguments say msg w /.
#[local] Arguments spawn c w /.
#[local] Arguments get_disk w /.
#[local] Arguments put_disk fs w /.
#[local] Arguments writeFile : simpl never.
#[local] Arguments readFile : simpl never.
#[local] Arguments unlink : simpl never.
#[local] Arguments rename_file : simpl never.
#[local] Arguments existsSync : simpl never.
#[local] Arguments saveConfig : simpl never.
#[local] Arguments loadConfig : simpl never.
#[local] Arguments getWorkspaces : simpl never.
#[local] Arguments generateScript : simpl never.

Lemma bind_return {A B : Type} (m : Proc A) (k : A -> Proc B) (w w' : World) (b : B) :
  bind m k w = (Return b, w') ->
  exists a w1, m w = (Return a, w1) /\ k a w1 = (Return b, w').
Proof.
  unfold bind. destruct (m w) as [[a|e|code|] w1]; intros H; try discriminate. eauto.
Qed.

Lemma bind_eq_return {A B : Type} (m : Proc A) (k : A -> Proc B) (w w1 : World) (a : A) :
  m w = (Return a, w1) -> bind m k w = k a w1.
Proof. unfold bind. by intros ->. Qed.

Lemma ask_return {A : Type} (message : string) (resolve : Answer -> option A)
    (w w' : World) (v : A) :
  ask message resolve w = (Return v, w') ->
  exists a rest,
    answers w = a :: rest /\ resolve a = Some v
    /\ w' = {| disk := disk w; answers := rest; transcript := transcript w ++ [(message, a)];
               console := console w; spawned := spawned w |}.
Proof.
  unfold ask. destruct (answers w) as [|a rest]; [discriminate|].
  destruct (resolve a) as [v'|] eqn:Hres; [|discriminate].
  intros [= <- <-]. eauto.
Qed.

Lemma prompt_list_return {A : Type} (message : string) (choices : list A) (w w' : World) (v : A) :
  prompt_list message choices w = (Return v, w') ->
  exists n, choices !! n = Some v /\ answered message (Pick n) w w'.
Proof.
  intros (a & rest & Ha & Hres & ->)%ask_return.
  destruct a; try discriminate. exists n. split; [done|]. by exists rest.
Qed.

Lemma prompt_input_return (message : string) (validate : string -> bool) (w w' : World) (v : string) :
  prompt_input message validate w = (Return v, w') ->
  validate v = true /\ answered message (Text v) w w'.
Proof.
  intros (a & rest & Ha & Hres & ->)%ask_return.
  destruct a; try discriminate. destruct (validate s) eqn:Hv; [|discriminate].
  injection Hres as <-. split; [done|]. by exists rest.
Qed.

Lemma prompt_confirm_return (message : string) (w w' : World) (v : bool) :
  prompt_confirm message w = (Return v, w') -> answered message (YesNo v) w w'.
Proof.
  intros (a & rest & Ha & Hres & ->)%ask_return.
  destruct a; try discriminate. injection Hres as <-. by exists rest.
Qed.

Lemma prompt_number_return (message : string) (w w' : World) (v : Z) :
  prompt_number message w = (Return v, w') -> answered message (Num v) w w'.
Proof.
  intros (a & rest & Ha & Hres & ->)%ask_return.
  destruct a; try discriminate. injection Hres as <-. by exists rest.
Qed.

Section StorageProperties.

Context {json : JSON}.

Lemma existsSync_eq (p : Path) (w : World) : existsSync p w = (Return (present (disk w) p), w).
Proof. reflexivity. Qed.

Lemma getWorkspaces_eq (w : World) : getWorkspaces w = (Return (workspaces_of (disk w)), w).
Proof.
  unfold getWorkspaces, workspaces_of, try_catch, readdir, bind, get_disk. cbn.
  destruct (scripts (disk w)); reflexivity.
Qed.

Lemma loadConfig_eq (name : string) (w : World) :
  loadConfig name w = (Return (stored_config (disk w) name), w).
Proof.
  unfold loadConfig, stored_config, try_catch, readFile, bind, get_disk. cbn.
  destruct (configs (disk w)) as [m|]; [|reflexivity].
  destruct (m !! (name +:+ ".json")) as [content|]; [|reflexivity]. cbn.
  destruct (JSON_parse content); reflexivity.
Qed.

Lemma saveConfig_eq (name : string) (config : Config) (w : World) :
  saveConfig name config w
  = match configs (disk w) with
    | Some m => put_disk (set_folder (disk w) CONFIG_DIR
                            (<[name +:+ ".json" := JSON_stringify config]> m)) w
    | None => (Throw (ENOENT (File CONFIG_DIR ".gitkeep")), w)
    end.
Proof.
  unfold saveConfig, existsSync, writeFile, bind, get_disk, path_join. cbn.
  destruct (configs (disk w)) as [m|] eqn:Hm.
  - rewrite bool_decide_eq_true_2 by eauto. cbn. by rewrite Hm.
  - rewrite bool_decide_eq_false_2 by (by intros [? ?]). cbn. by rewrite Hm.
Qed.

(** What [loadConfig] returns after [saveConfig]: the reading of the text
    that was written. *)
Lemma loadConfig_after_saveConfig (name : string) (L : Config) (w : World) :
  is_Some (configs (disk w)) ->
  exists w1, saveConfig name L w = (Return tt, w1)
             /\ loadConfig name w1 = (Return (JSON_parse (JSON_stringify L)), w1).
Proof.
  intros [m Hm]. rewrite saveConfig_eq, Hm. eexists. split; [reflexivity|].
  rewrite loadConfig_eq. unfold stored_config. cbn.
  rewrite lookup_insert_eq. reflexivity.
Qed.


(** X8.  Without the descriptor directory, [saveConfig] throws and writes nothing. *)
Lemma save_without_directory (name : string) (L : Config) (w : World) :
  configs (disk w) = None ->
  saveConfig name L w = (Throw (ENOENT (File CONFIG_DIR ".gitkeep")), w).
Proof. intros Hm. by rewrite saveConfig_eq, Hm. Qed.

End StorageProperties.

Lemma bind_ret {A B : Type} (a : A) (k : A -> Proc B) (w : World) : bind (ret a) k w = k a w.
Proof. reflexivity. Qed.

Lemma bind_say {B : Type} (msg : Message) (k : unit -> Proc B) (w : World) :
  bind (say msg) k w = k tt (printed msg w).
Proof. reflexivity. Qed.

Lemma answered_disk (message : string) (a : Answer) (w w' : World) :
  answered message a w w' -> disk w' = disk w /\ console w' = console w.
Proof. by intros (rest & _ & ->). Qed.

Lemma unlink_eq (d : Dir) (file : string) (w : World) :
  unlink (File d file) w
  = match folder (disk w) d with
    | Some m => match m !! file with
                | Some _ => (Return tt, with_disk (set_folder (disk w) d (delete file m)) w)
                | None => (Throw (ENOENT (File d file)), w)
                end
    | None => (Throw (ENOENT (File d file)), w)
    end.
Proof.
  unfold unlink, bind, get_disk. cbn. destruct (folder (disk w) d) as [m|]; [|reflexivity].
  destruct (m !! file); reflexivity.
Qed.

Lemma rename_file_eq (d : Dir) (from to : string) (w : World) :
  rename_file d from to w
  = match folder (disk w) d with
    | Some m => match m !! from with
                | Some content =>
                    (Return tt, with_disk (set_folder (disk w) d (<[to := content]> (delete from m))) w)
                | None => (Throw (ENOENT (File d from)), w)
                end
    | None => (Throw (ENOENT (File d from)), w)
    end.
Proof.
  unfold rename_file, bind, get_disk. cbn. destruct (folder (disk w) d) as [m|]; [|reflexivity].
  destruct (m !! from); reflexivity.
Qed.

Lemma writeFile_eq (d : Dir) (file content : string) (w : World) :
  writeFile (File d file) content w
  = match folder (disk w) d with
    | Some m => (Return tt, with_disk (set_folder (disk w) d (<[file := content]> m)) w)
    | None => (Throw (ENOENT (File d file)), w)
    end.
Proof.
  unfold writeFile, bind, get_disk. cbn. destruct (folder (disk w) d) as [m|]; reflexivity.
Qed.

Lemma present_file_false (fs : FS) (d : Dir) (file : string) :
  present fs (File d file) = false <->
  match folder fs d with Some m => m !! file = None | None => True end.
Proof.
  cbn. destruct (folder fs d) as [m|]; [|done].
  rewrite bool_decide_eq_false. rewrite <- eq_None_not_Some. done.
Qed.

(** ** delete *)

(** C3 (as amended).  When the script of [workspace] is not in storage,
    [delete] changes no file and does not report a deletion: a confirmed
    run reports that deleting failed, with the not-found error of the
    script file; a declined run reports the cancellation and the process
    ends with status 0; without an answer it waits. *)
Theorem delete_missing_workspace (workspace : string) (w : World) :
  present (disk w) (File SCRIPT_DIR (workspace +:+ ".sh")) = false ->
  let r := (delete_action workspace w).1 in
  let w' := (delete_action workspace w).2 in
  disk w' = disk w
  /\ match answers w with
     | YesNo true :: _ =>
         console w' = console w ++ [FailedToDelete (ENOENT (File SCRIPT_DIR (workspace +:+ ".sh")))]
     | YesNo false :: _ =>
         console w' = console w ++ [Cancelled] /\ exit_status r = Some 0
     | _ => console w' = console w /\ r = Pending
     end.
Proof.
  intros Hmissing%present_file_false. cbn in Hmissing.
  unfold delete_action, prompt_confirm, ask, bind.
  destruct (answers w) as [|[n|s|[|]|z|code] rest]; try (cbn; done).
  cbn. unfold try_catch, bind, path_join. rewrite unlink_eq. cbn.
  destruct (scripts (disk w)) as [m|]; [rewrite Hmissing|]; done.
Qed.

Lemma delete_missing_workspace_witness :
  present empty_disk (File SCRIPT_DIR "ghost.sh") = false
  /\ disk (delete_action "ghost" (start empty_disk [YesNo true])).2 = empty_disk
  /\ console (delete_action "ghost" (start empty_disk [YesNo true])).2
     = [FailedToDelete (ENOENT (File SCRIPT_DIR "ghost.sh"))].
Proof.
  split; [reflexivity|].
  exact (delete_missing_workspace "ghost" (start empty_disk [YesNo true]) eq_refl).
Defined.

(** C3 as stated fails: deleting a workspace that does not exist ends with
    status 0 and prints no not-found line, whether the user confirms or
    declines. *)
Lemma delete_missing_exits_zero :
  present empty_disk (File SCRIPT_DIR "ghost.sh") = false
  /\ exit_status (delete_action "ghost" (start empty_disk [YesNo true])).1 = Some 0
  /\ (NotFound "ghost" ∉ console (delete_action "ghost" (start empty_disk [YesNo true])).2)
  /\ exit_status (delete_action "ghost" (start empty_disk [YesNo false])).1 = Some 0
  /\ (NotFound "ghost" ∉ console (delete_action "ghost" (start empty_disk [YesNo false])).2).
Proof.
  repeat split; try reflexivity.
  - vm_compute. intros H. by repeat (apply elem_of_cons in H as [H|H]; [discriminate|]; try apply elem_of_nil in H).
  - vm_compute. intros H. by repeat (apply elem_of_cons in H as [H|H]; [discriminate|]; try apply elem_of_nil in H).
Qed.

(** ** rename *)

Section RenameProperties.

Context {json : JSON}.

(** What the part of [rename] inside [try] does on a disk where the script
    of [workspace] exists and the descriptor directory exists. *)
Lemma rename_files (workspace newname : string) (config : Config) (w : World)
    (ms mc : gmap string string) (content : string) :
  scripts (disk w) = Some ms -> configs (disk w) = Some mc ->
  ms !! (workspace +:+ ".sh") = Some content ->
  exists mc',
    mc' !! (newname +:+ ".json") = Some (JSON_stringify (set_name newname config))
    /\ (workspace <> newname -> is_Some (mc !! (workspace +:+ ".json")) ->
        mc' !! (workspace +:+ ".json") = None)
    /\ (rename_file SCRIPT_DIR (workspace +:+ ".sh") (newname +:+ ".sh") ;;;
        try_catch (rename_file CONFIG_DIR (workspace +:+ ".json") (newname +:+ ".json"))
                  (fun _ => ret tt) ;;;
        writeFile (path_join SCRIPT_DIR (newname +:+ ".sh")) (generateScript (set_name newname config)) ;;;
        saveConfig newname (set_name newname config) ;;;
        say Renamed) w
       = (Return tt,
          printed Renamed
            (with_disk {| scripts := Some (<[newname +:+ ".sh" := generateScript (set_name newname config)]>
                                            (<[newname +:+ ".sh" := content]>
                                               (delete (workspace +:+ ".sh") ms)));
                          configs := Some mc' |} w)).
Proof.
  intros Hms Hmc Hold.
  destruct (mc !! (workspace +:+ ".json")) as [json0|] eqn:Hjson0.
  - exists (<[newname +:+ ".json" := JSON_stringify (set_name newname config)]>
              (<[newname +:+ ".json" := json0]> (delete (workspace +:+ ".json") mc))).
    split; [by rewrite lookup_insert_eq|]. split.
    + intros Hne _.
      assert (newname +:+ ".json" <> workspace +:+ ".json") as Hne'.
      { intros H%app_inj_r. by apply Hne. }
      by rewrite !lookup_insert_ne, lookup_delete_eq.
    + unfold bind. rewrite rename_file_eq. cbn [folder]. rewrite Hms, Hold.
      unfold try_catch. rewrite rename_file_eq. cbn. rewrite Hmc, Hjson0.
      unfold path_join. rewrite writeFile_eq. cbn.
      rewrite saveConfig_eq. cbn. reflexivity.
  - exists (<[newname +:+ ".json" := JSON_stringify (set_name newname config)]> mc).
    split; [by rewrite lookup_insert_eq|]. split.
    + intros _ [? ?]. done.
    + unfold bind. rewrite rename_file_eq. cbn [folder]. rewrite Hms, Hold.
      unfold try_catch. rewrite rename_file_eq. cbn. rewrite Hmc, Hjson0.
      unfold path_join. rewrite writeFile_eq. cbn.
      rewrite saveConfig_eq. cbn. reflexivity.
Qed.

Lemma try_catch_eq {A : Type} (m : Proc A) (handler : Error -> Proc A) (w : World) :
  try_catch m handler w
  = match m w with
    | (Throw e, w') => handler e w'
    | r => r
    end.
Proof. reflexivity. Qed.

Lemma asks_only_ret {A : Type} (a : A) : asks_only (ret a).
Proof. intros w. left. by exists a, w. Qed.

Lemma asks_only_ask {A : Type} (message : string) (resolve : Answer -> option A) :
  asks_only (ask message resolve).
Proof.
  intros w. unfold ask. destruct (answers w) as [|a rest]; [by right|].
  destruct (resolve a) as [v|]; [|by right]. left. by eexists _, _.
Qed.

Lemma console_unchanged (l : list Message) (extra : list Message) :
  extra <> [] -> l <> l ++ extra.
Proof.
  intros Hne H. rewrite <- (app_nil_r l) in H at 1. apply app_inv_head in H. by symmetry in H.
Qed.

(** C4.  When [rename] has printed its plan [old -> new] and then its
    success line, the script and the descriptor of [old] are gone, the
    script of [new] exists, and loading [new] gives a configuration whose
    name is [new] (given that [JSON.parse] reads back what [JSON.stringify]
    wrote for the renamed configuration). *)
Theorem rename_success (workspace newname : option string) (old new : string) (w : World) :
  console (rename_action workspace newname w).2 = console w ++ [RenamePlan old new; Renamed] ->
  (forall c, stored_config (disk w) old = Some c ->
             JSON_parse (JSON_stringify (set_name new c)) = Some (set_name new c)) ->
  let w' := (rename_action workspace newname w).2 in
  (rename_action workspace newname w).1 = Return tt
  /\ present (disk w') (File SCRIPT_DIR (old +:+ ".sh")) = false
  /\ present (disk w') (File CONFIG_DIR (old +:+ ".json")) = false
  /\ present (disk w') (File SCRIPT_DIR (new +:+ ".sh")) = true
  /\ exists c, loadConfig new w' = (Return (Some c), w') /\ name c = new.
Proof.
  intros Hconsole Hjson. cbn zeta.
  destruct (rename_action workspace newname w) as [r w'] eqn:Hrun. cbn in Hconsole |- *.
  unfold rename_action in Hrun.
  rewrite (bind_eq_return _ _ _ _ _ (getWorkspaces_eq w)) in Hrun.
  destruct (decide (length (workspaces_of (disk w)) = 0)) as [|_].
  { cbn in Hrun. injection Hrun as <- <-. cbn in Hconsole.
    apply app_inv_head in Hconsole. discriminate. }
  (* which workspace *)
  unfold bind in Hrun at 1.
  assert (asks_only (if truthy workspace then ret (default "" workspace)
                     else prompt_list "Which workspace to rename?" (workspaces_of (disk w)))) as Hq1.
  { destruct (truthy workspace); [apply asks_only_ret | apply asks_only_ask]. }
  destruct (Hq1 w) as [(ws & w1 & Hws & Hd1 & Hc1) | Hws]; rewrite Hws in Hrun; clear Hws Hq1.
  2:{ injection Hrun as <- <-. by apply console_unchanged in Hconsole. }
  rewrite (bind_eq_return _ _ _ _ _ (loadConfig_eq ws w1)) in Hrun. rewrite Hd1 in Hrun.
  destruct (stored_config (disk w) ws) as [c0|] eqn:Hc0.
  2:{ cbn in Hrun. injection Hrun as <- <-. cbn in Hconsole. rewrite Hc1 in Hconsole.
      apply app_inv_head in Hconsole. discriminate. }
  (* the new name *)
  unfold bind in Hrun at 1.
  assert (asks_only (if truthy newname then ret (default "" newname)
                     else prompt_input "New name:"
                            (fun input => negb (String.eqb input "")
                                          && negb (bool_decide (input ∈ workspaces_of (disk w)))))) as Hq2.
  { destruct (truthy newname); [apply asks_only_ret | apply asks_only_ask]. }
  destruct (Hq2 w1) as [(nn & w2 & Hnn & Hd2 & Hc2) | Hnn]; rewrite Hnn in Hrun; clear Hnn Hq2.
  2:{ injection Hrun as <- <-. rewrite Hc1 in Hconsole. by apply console_unchanged in Hconsole. }
  rewrite (bind_eq_return _ _ _ _ _ (existsSync_eq _ w2)) in Hrun. rewrite Hd2, Hd1 in Hrun.
  destruct (present (disk w) (path_join SCRIPT_DIR (nn +:+ ".sh"))) eqn:Hnew.
  { cbn in Hrun. injection Hrun as <- <-. cbn in Hconsole. rewrite Hc2, Hc1 in Hconsole.
    apply app_inv_head in Hconsole. discriminate. }
  rewrite bind_ret, bind_say in Hrun.
  (* the confirmation *)
  unfold bind in Hrun at 1.
  destruct (asks_only_ask "Confirm rename?" (fun a => match a with YesNo b => Some b | _ => None end)
              (printed (RenamePlan ws nn) w2)) as [(yes & w3 & Hyes & Hd3 & Hc3) | Hyes];
    unfold prompt_confirm in Hrun; rewrite Hyes in Hrun; clear Hyes.
  2:{ injection Hrun as <- <-. cbn in Hconsole. rewrite Hc2, Hc1 in Hconsole.
      apply app_inv_head in Hconsole. discriminate. }
  cbn in Hd3, Hc3. rewrite Hd2, Hd1 in Hd3. rewrite Hc2, Hc1 in Hc3.
  destruct yes; cbn [negb] in Hrun.
  2:{ cbn in Hrun. injection Hrun as <- <-. cbn in Hconsole. rewrite Hc3 in Hconsole.
      rewrite <- app_assoc in Hconsole. apply app_inv_head in Hconsole. discriminate. }
  (* the files *)
  apply present_file_false in Hnew. cbn in Hnew.
  rewrite try_catch_eq in Hrun.
  destruct (scripts (disk w)) as [ms|] eqn:Hms.
  2:{ unfold bind in Hrun at 1. rewrite rename_file_eq in Hrun. cbn in Hrun.
      rewrite Hd3, Hms in Hrun. cbn in Hrun. injection Hrun as <- <-.
      cbn in Hconsole. rewrite Hc3, <- app_assoc in Hconsole.
      apply app_inv_head in Hconsole. discriminate. }
  destruct (ms !! (ws +:+ ".sh")) as [content|] eqn:Hold.
  2:{ unfold bind in Hrun at 1. rewrite rename_file_eq in Hrun. cbn in Hrun.
      rewrite Hd3, Hms, Hold in Hrun. cbn in Hrun. injection Hrun as <- <-.
      cbn in Hconsole. rewrite Hc3, <- app_assoc in Hconsole.
      apply app_inv_head in Hconsole. discriminate. }
  assert (exists mc, configs (disk w) = Some mc /\ is_Some (mc !! (ws +:+ ".json")))
    as (mc & Hmc & Holdjson).
  { unfold stored_config in Hc0. destruct (configs (disk w)) as [mc|]; [|discriminate].
    exists mc. split; [done|]. destruct (mc !! (ws +:+ ".json")); [eauto|discriminate]. }
  destruct (rename_files ws nn c0 w3 ms mc content) as (mc' & Hnewjson & Holdgone & Hblock);
    [by rewrite Hd3 | by rewrite Hd3 | done |].
  rewrite Hblock in Hrun. injection Hrun as <- <-. cbn in Hconsole |- *.
  rewrite Hc3, <- app_assoc in Hconsole. apply app_inv_head in Hconsole.
  injection Hconsole as -> ->.
  assert (old <> new) as Hne.
  { intros ->. rewrite Hnew in Hold. discriminate. }
  assert (new +:+ ".sh" <> old +:+ ".sh") as Hne' by (by intros H%app_inj_r).
  split; [done|].
  rewrite !lookup_insert_ne, lookup_delete_eq, lookup_insert_eq, (Holdgone Hne Holdjson) by done.
  repeat split; try (by apply bool_decide_eq_false_2; intros [? ?]);
    try (by apply bool_decide_eq_true_2).
  exists (set_name new c0). split; [|reflexivity].
  rewrite loadConfig_eq. unfold stored_config. cbn. rewrite Hnewjson. cbn.
  by rewrite (Hjson c0 Hc0).
Qed.

End RenameProperties.

(* ===================================================================== *)
(** * Properties of the editors *)
(* ===================================================================== *)

(** What holds at the start of every turn of a loop holds when the loop is
    left. *)
Lemma loop_invariant {St R : Type} (I : St -> Prop) (body : St -> Proc (St + R)) :
  (forall s w s' w', I s -> body s w = (Return (inl s'), w') -> I s') ->
  forall fuel s w r w',
    I s -> loop fuel body s w = (Return r, w') ->
    exists s1 w1, I s1 /\ body s1 w1 = (Return (inr r), w').
Proof.
  intros Hstep. induction fuel as [|fuel IH]; intros s w r w' Hs Hrun; [discriminate|].
  cbn [loop] in Hrun. apply bind_return in Hrun as ([s'|r'] & w1 & Hbody & Hrun).
  - eapply IH; [|exact Hrun]. eapply Hstep; eauto.
  - injection Hrun as <- <-. eauto.
Qed.

Lemma edits_pane_refl (i : nat) (c : Config) : edits_pane i c c.
Proof. repeat split; eauto. Qed.

Lemma edits_pane_trans (i : nat) (c1 c2 c3 : Config) :
  edits_pane i c1 c2 -> edits_pane i c2 c3 -> edits_pane i c1 c3.
Proof.
  intros (Hl1 & Ho1 & Hr1) (Hl2 & Ho2 & Hr2). split; [congruence|]. split.
  - intros j Hj. by rewrite Ho2, Ho1.
  - intros Hi p0 Hp0. destruct (Hr1 Hi p0 Hp0) as (p1 & Hp1 & Hs1 & Hd1).
    destruct (Hr2 Hi p1 Hp1) as (p2 & Hp2 & Hs2 & Hd2).
    exists p2. repeat split; congruence.
Qed.

(** An assignment to a field of pane [i] that keeps the split and the
    directory when [i] is 0. *)
Lemma update_pane_edits (f : Pane -> Pane) (i : nat) (c : Config) :
  (i = 0 -> forall p, split (f p) = split p /\ directory (f p) = directory p) ->
  edits_pane i c (update_pane f i c).
Proof.
  intros Hf. unfold edits_pane, update_pane. cbn. split; [apply length_alter|]. split.
  - intros j Hj. by apply list_lookup_alter_ne.
  - intros -> p0 Hp0. exists (f p0). rewrite list_lookup_alter_eq, Hp0. split; [done|].
    by apply Hf.
Qed.

Lemma update_pane_any (f : Pane -> Pane) (i : nat) (c : Config) :
  i <> 0 -> edits_pane i c (update_pane f i c).
Proof. intros Hi. apply update_pane_edits. done. Qed.

Lemma fieldChoices_root (n : nat) (field : Field) :
  fieldChoices 0 !! n = Some field -> field = F_command \/ field = F_resize \/ field = F_done.
Proof.
  cbn. destruct n as [|[|[|n]]]; cbn; intros [= <-]; eauto.
Qed.

(** Taking apart a run that returned. *)
Ltac proc_inv :=
  repeat match goal with
  | H : bind _ _ _ = (Return _, _) |- _ =>
      let a := fresh "a" in let w := fresh "w" in let Hm := fresh "Hm" in
      apply bind_return in H as (a & w & Hm & H)
  | H : prompt_list _ _ _ = (Return _, _) |- _ =>
      let n := fresh "n" in let Hn := fresh "Hchoice" in let Ha := fresh "Hasked" in
      apply prompt_list_return in H as (n & Hn & Ha)
  | H : prompt_input _ _ _ = (Return _, _) |- _ =>
      let Hv := fresh "Hvalid" in let Ha := fresh "Hasked" in
      apply prompt_input_return in H as (Hv & Ha)
  | H : prompt_confirm _ _ = (Return _, _) |- _ => apply prompt_confirm_return in H
  | H : prompt_number _ _ = (Return _, _) |- _ => apply prompt_number_return in H
  | H : ret _ _ = (Return _, _) |- _ => cbn in H; injection H as ? ?; subst
  | H : say _ _ = (Return _, _) |- _ => cbn in H; injection H as ? ?; subst
  | H : throw _ _ = (Return _, _) |- _ => discriminate H
  | H : process_exit _ _ = (Return _, _) |- _ => discriminate H
  end.

Ltac proc_cases := repeat (proc_inv; try case_match); proc_inv.

Lemma create_edit_pane_edits (i : nat) (c c' : Config) (w w' : World) :
  create_edit_pane i c w = (Return (inl c'), w') -> edits_pane i c c'.
Proof.
  unfold create_edit_pane. intros H. proc_inv.
  destruct (decide (i = 0)) as [->|Hi].
  - apply fieldChoices_root in Hchoice as [-> | [-> | ->]]; proc_cases; simplify_eq;
      first [apply edits_pane_refl | apply update_pane_edits; done].
  - proc_cases; simplify_eq; first [apply edits_pane_refl | by apply update_pane_any].
Qed.

Lemma edit_edit_pane_edits (i : nat) (c c' : Config) (w w' : World) :
  edit_edit_pane i c w = (Return (inl c'), w') -> edits_pane i c c'.
Proof.
  unfold edit_edit_pane. intros H. proc_inv.
  destruct (decide (i = 0)) as [->|Hi].
  - apply fieldChoices_root in Hchoice as [-> | [-> | ->]]; proc_cases; simplify_eq;
      first [apply edits_pane_refl | apply update_pane_edits; done].
  - proc_cases; simplify_eq; first [apply edits_pane_refl | by apply update_pane_any].
Qed.

(** The loop that edits one pane. *)
Lemma pane_loop_edits (step : Config -> Proc (Config + unit)) (i : nat) (c c' : Config) (w w' : World) :
  (forall c1 c2 w1 w2, step c1 w1 = (Return (inl c2), w2) -> edits_pane i c1 c2) ->
  while (fun c => r <- step c ;; ret match r with inl c' => inl c' | inr _ => inr c end) c w
  = (Return c', w') ->
  edits_pane i c c'.
Proof.
  intros Hstep Hrun. unfold while in Hrun.
  apply (loop_invariant (edits_pane i c)) in Hrun as (c1 & w1 & Hc1 & Hlast).
  - proc_cases; by simplify_eq.
  - intros s w0 s' w0' Hs Hbody. proc_cases; simplify_eq.
    eapply edits_pane_trans; eauto.
  - apply edits_pane_refl.
Qed.

Lemma remove_offered (c : Config) (n : nat) :
  create_choices c !! n = Some C_remove_pane -> 1 < length (panes c).
Proof.
  intros H%list_elem_of_lookup_2. unfold create_choices in H.
  destruct (decide (1 < length (panes c))) as [|Hno]; [done|]. exfalso.
  rewrite !elem_of_app in H. destruct H as [H|[H|[H|[H|[H|H]]]]].
  - rewrite !elem_of_cons in H. destruct H as [H|[H|[H|H]]]; try discriminate.
    by apply elem_of_nil in H.
  - apply list_elem_of_lookup in H as [k H]. rewrite list_lookup_imap in H.
    destruct (drop 1 (panes c) !! k); discriminate.
  - apply list_elem_of_singleton in H. discriminate.
  - by apply elem_of_nil in H.
  - destruct (truthy (Some (name c))); [apply list_elem_of_singleton in H; discriminate|].
    by apply elem_of_nil in H.
  - apply list_elem_of_singleton in H. discriminate.
Qed.

Lemma removable_index (l : list Pane) (n i : nat) :
  (drop 1 (imap (fun i _ => Some i) l) ++ [None]) !! n = Some (Some i) ->
  0 < i < length l.
Proof.
  intros H. apply lookup_app_Some in H as [H|[_ H]].
  - rewrite lookup_drop, list_lookup_imap in H.
    destruct (l !! (1 + n)) eqn:Hl; [|discriminate]. injection H as <-.
    apply lookup_lt_Some in Hl. lia.
  - destruct (n - _) as [|[|k]]; cbn in H; discriminate.
Qed.

Lemma new_pane_split (s q1 q2 q3 q4 q5 : string) (w w' : World) (pane : Pane) :
  new_pane s q1 q2 q3 q4 q5 w = (Return pane, w') -> split pane = Some s.
Proof. unfold new_pane. intros H. proc_cases; by simplify_eq. Qed.

(** What one turn of the menu of [create] can do to the panes. *)
Lemma create_turn_cases (c c' : Config) (w w' : World) :
  create_turn c w = (Return (inl c'), w') ->
  panes c' = panes c
  \/ (exists i, edits_pane i c c')
  \/ (exists pane, panes c' = panes c ++ [pane] /\ panes c <> [])
  \/ (1 < length (panes c) /\ panes c' = removelast (panes c)
      /\ exists n, transcript w' = transcript w ++ [("Select field to edit:", Pick n)]).
Proof.
  unfold create_turn. intros H. destruct (panes c) as [|p0 rest] eqn:Hpanes; [discriminate|].
  assert (panes c <> []) as Hne by (by rewrite Hpanes).
  rewrite <- Hpanes in H |- *. clear p0 rest Hpanes.
  proc_inv. destruct a.
  - proc_cases. simplify_eq. by left.
  - proc_cases. simplify_eq. by left.
  - destruct (panes c !! i); [|discriminate]. proc_inv.
    right; left. exists i. eapply pane_loop_edits; [|done].
    intros ? ? ? ?. apply create_edit_pane_edits.
  - proc_inv. destruct a; proc_inv.
    + right; right; left. eexists. split; done.
    + by left.
  - proc_inv. right; right; right. cbn.
    split; [eapply remove_offered; eauto|].
    split; [done|].
    destruct Hasked as (rest' & Hans & ->). cbn. eauto.
  - discriminate.
  - proc_cases. discriminate.
Qed.

(** What one turn of the menu of [edit] can do to the panes. *)
Lemma edit_turn_cases {json : JSON} (workspace : string) (c c' : Config) (w w' : World) :
  edit_turn workspace c w = (Return (inl c'), w') ->
  panes c' = panes c
  \/ (exists i, edits_pane i c c')
  \/ (exists pane, panes c' = panes c ++ [pane] /\ is_Some (split pane))
  \/ (exists i, 0 < i < length (panes c) /\ panes c' = delete i (panes c)
      /\ exists before,
           transcript w' = before ++ [("Remove pane " +:+ show_nat i +:+ "?", YesNo true)]).
Proof.
  unfold edit_turn. intros H. proc_inv. destruct a.
  - proc_cases. simplify_eq. by left.
  - proc_inv. destruct a; proc_inv.
    + right; right; left. eexists. split; [done|].
      apply new_pane_split in Hm. by rewrite Hm.
    + by left.
  - proc_inv. destruct a as [i|]; proc_inv.
    + destruct (panes c !! i); [|discriminate]. proc_inv.
      right; left. exists i. eapply pane_loop_edits; [|done].
      intros ? ? ? ?. apply edit_edit_pane_edits.
    + by left.
  - destruct (decide (length (panes c) = 1)).
    + proc_inv. by left.
    + proc_inv. destruct a as [i|]; proc_inv; [|by left].
      destruct a; proc_inv; [|by left].
      right; right; right. exists i. split; [eapply removable_index; eauto|].
      split; [done|]. destruct Hm as (rest & _ & ->). cbn. eauto.
  - proc_cases; discriminate.
  - proc_cases; discriminate.
  - proc_cases; simplify_eq. by left.
Qed.

Lemma same_root_ok (c c' : Config) : same_root c c' -> root_ok c -> root_ok c'.
Proof.
  intros Hsame (p0 & rest & Hp & Hs). destruct (Hsame p0) as (p0' & Hh & Hs' & _).
  { by rewrite Hp. }
  destruct (panes c') as [|q rest'] eqn:Hc'; [discriminate|]. injection Hh as ->.
  exists p0', rest'. split; [done|]. congruence.
Qed.

Lemma same_root_panes (c c' : Config) : head (panes c') = head (panes c) -> same_root c c'.
Proof. intros Hh p0 Hp0. exists p0. by rewrite Hh. Qed.

Lemma edits_pane_same_root (i : nat) (c c' : Config) : edits_pane i c c' -> same_root c c'.
Proof.
  intros (Hlen & Hother & Hroot). destruct (decide (i = 0)) as [->|Hi].
  - intros p0 Hp0. rewrite head_lookup in Hp0.
    destruct (Hroot eq_refl p0 Hp0) as (p0' & Hp0' & ? & ?).
    exists p0'. by rewrite head_lookup.
  - apply same_root_panes. rewrite !head_lookup. apply Hother. done.
Qed.

Lemma removelast_delete {A : Type} (l : list A) : removelast l = delete (length l - 1) l.
Proof.
  induction l as [|x l IH]; [reflexivity|]. destruct l as [|y l]; [reflexivity|].
  cbn [removelast] in *. rewrite IH. cbn. by rewrite Nat.sub_0_r.
Qed.

Lemma create_turn_same_root (c c' : Config) (w w' : World) :
  create_turn c w = (Return (inl c'), w') -> same_root c c'.
Proof.
  intros [Hp | [[i Hi] | [(pane & Hp & Hne) | (Hlen & Hp & _)]]]%create_turn_cases.
  - apply same_root_panes. by rewrite Hp.
  - by apply (edits_pane_same_root i).
  - apply same_root_panes. rewrite Hp. by destruct (panes c).
  - apply same_root_panes. rewrite Hp.
    destruct (panes c) as [|x [|y l]]; cbn in Hlen; first [lia | reflexivity].
Qed.

Lemma edit_turn_same_root {json : JSON} (workspace : string) (c c' : Config) (w w' : World) :
  edit_turn workspace c w = (Return (inl c'), w') -> root_ok c -> same_root c c'.
Proof.
  intros [Hp | [[i Hi] | [(pane & Hp & _) | (i & Hi & Hp & _)]]]%edit_turn_cases Hroot.
  - apply same_root_panes. by rewrite Hp.
  - by apply (edits_pane_same_root i).
  - apply same_root_panes. rewrite Hp. destruct Hroot as (p0 & rest & -> & _). reflexivity.
  - apply same_root_panes. rewrite Hp. destruct i as [|i]; [lia|]. by destruct (panes c).
Qed.

Lemma create_turn_create (c c' : Config) (w w' : World) :
  create_turn c w = (Return (inr (Some c')), w') -> c' = c.
Proof.
  unfold create_turn. intros H. destruct (panes c) as [|p0 rest] eqn:Hpanes; [discriminate|].
  rewrite <- Hpanes in H. proc_inv. destruct a; proc_cases; by simplify_eq.
Qed.

Lemma initial_config_root_ok (cwd : string) : root_ok (initial_config cwd).
Proof. by eexists _, _. Qed.

(** C6.  Every turn of the two menus, and every turn of the two loops that
    edit one pane, keeps pane 0 in place with its split and its directory
    as they were; so a layout whose pane 0 exists and has no split stays
    so, and the layout that [create] compiles is such a layout. *)
Theorem editors_keep_root {json : JSON} :
  (forall c w c' w',
     create_turn c w = (Return (inl c'), w') -> same_root c c' /\ (root_ok c -> root_ok c'))
  /\ (forall workspace c w c' w',
        edit_turn workspace c w = (Return (inl c'), w') -> root_ok c ->
        same_root c c' /\ root_ok c')
  /\ (forall i c w c' w',
        create_edit_pane i c w = (Return (inl c'), w') \/ edit_edit_pane i c w = (Return (inl c'), w') ->
        same_root c c' /\ length (panes c') = length (panes c))
  /\ (forall cwd w c w',
        while create_turn (initial_config cwd) w = (Return (Some c), w') -> root_ok c).
Proof.
  split; [|split; [|split]].
  - intros c w c' w' H. pose proof (create_turn_same_root c c' w w' H) as Hs.
    split; [done|]. by apply same_root_ok.
  - intros ws c w c' w' H Hroot. pose proof (edit_turn_same_root ws c c' w w' H Hroot) as Hs.
    split; [done|]. by apply (same_root_ok c).
  - intros i c w c' w' [H|H].
    + apply create_edit_pane_edits in H. split; [by apply (edits_pane_same_root i)|]. apply H.
    + apply edit_edit_pane_edits in H. split; [by apply (edits_pane_same_root i)|]. apply H.
  - intros cwd w c w' Hrun. unfold while in Hrun.
    apply (loop_invariant root_ok) in Hrun as (c1 & w1 & Hc1 & Hlast).
    + apply create_turn_create in Hlast. by subst.
    + intros s w0 s' w0' Hs Hturn. eapply same_root_ok; [|done].
      by eapply create_turn_same_root.
    + apply initial_config_root_ok.
Qed.

(** C5 (as amended).  A turn of the menu of [edit] that shortens [panes]
    removes one pane of an index other than 0, and the last exchange before
    it is the confirmation of the removal of that pane, answered yes.  A
    turn of the menu of [create] that shortens [panes] removes the last
    pane, whose index is not 0. *)
Theorem pane_removal {json : JSON} :
  (forall workspace c w c' w',
     edit_turn workspace c w = (Return (inl c'), w') ->
     length (panes c') < length (panes c) ->
     exists i, 0 < i < length (panes c) /\ panes c' = delete i (panes c)
               /\ exists before,
                    transcript w' = before ++ [("Remove pane " +:+ show_nat i +:+ "?", YesNo true)])
  /\ (forall c w c' w',
        create_turn c w = (Return (inl c'), w') ->
        length (panes c') < length (panes c) ->
        0 < length (panes c) - 1 /\ panes c' = delete (length (panes c) - 1) (panes c)).
Proof.
  split.
  - intros ws c w c' w' [Hp | [[i Hi] | [(pane & Hp & _) | Hrem]]]%edit_turn_cases Hlen.
    + rewrite Hp in Hlen. lia.
    + destruct Hi as (Hl & _). lia.
    + rewrite Hp, length_app in Hlen. cbn in Hlen. lia.
    + done.
  - intros c w c' w' [Hp | [[i Hi] | [(pane & Hp & _) | (Hl & Hp & _)]]]%create_turn_cases Hlen.
    + rewrite Hp in Hlen. lia.
    + destruct Hi as (Hl & _). lia.
    + rewrite Hp, length_app in Hlen. cbn in Hlen. lia.
    + split; [lia|]. by rewrite Hp, removelast_delete.
Qed.

(** C5 as stated fails: in the menu of [create], choosing to remove the last
    pane removes it at once; the only exchange is the choice in the menu. *)
Lemma create_removes_without_confirmation :
  exists c' w',
    create_turn two_panes (start empty_disk [Pick 5]) = (Return (inl c'), w')
    /\ length (panes c') < length (panes two_panes)
    /\ transcript w' = [("Select field to edit:", Pick 5)].
Proof. eexists _, _. split; [reflexivity|]. split; [cbn; lia | reflexivity]. Qed.

(* ===================================================================== *)
(** * Properties of the commands on the stored state *)
(* ===================================================================== *)

(** C2, on the code: [create] with the name of a stored workspace is not
    rejected; it replaces the stored script and the stored descriptor and
    reports the creation. *)
Theorem create_overwrites_existing {json : JSON} :
  let w := start existing_dev [Pick 0; Text "dev"; Pick 4] in
  present (disk w) (File SCRIPT_DIR "dev.sh") = true
  /\ (create_action "/home/u" w).1 = Return tt
  /\ console (create_action "/home/u" w).2 = [Created "dev"]
  /\ scripts (disk (create_action "/home/u" w).2)
     = Some {["dev.sh" := generateScript (fresh_dev "/home/u")]}
  /\ configs (disk (create_action "/home/u" w).2)
     = Some {["dev.json" := JSON_stringify (fresh_dev "/home/u")]}
  /\ generateScript (fresh_dev "/home/u") <> generateScript dev_layout.
Proof.
  cbn zeta. repeat split; try (vm_compute; reflexivity).
  vm_compute. discriminate.
Qed.

(** ** Workspaces with a script and no descriptor *)

Lemma endsWith_app (s suffix : string) : endsWith (s +:+ suffix) suffix = true.
Proof.
  induction s as [|a s IH].
  - rewrite app_empty_l. destruct suffix; cbn [endsWith]; by rewrite String.eqb_refl.
  - rewrite app_cons. cbn [endsWith]. rewrite IH. by destruct (String.eqb _ _).
Qed.

Lemma prefix_sh_app (x : string) :
  x <> "" -> String.prefix ".sh" x = false -> String.prefix ".sh" (x +:+ ".sh") = false.
Proof.
  destruct x as [|a x]; [done|]. intros _. rewrite app_cons. cbn [String.prefix].
  destruct (ascii_dec "." a); [|done].
  destruct x as [|b x]; [done|]. rewrite app_cons. cbn [String.prefix].
  destruct (ascii_dec "s" b); [|done].
  destruct x as [|c x]; [done|]. rewrite app_cons. cbn [String.prefix].
  destruct (ascii_dec "h" c); [|done]. by destruct x.
Qed.

Lemma remove_first_sh (name : string) :
  includes ".sh" name = false -> remove_first ".sh" (name +:+ ".sh") = name.
Proof.
  induction name as [|a s IH]; [reflexivity|]. intros Hinc.
  cbn [includes] in Hinc. destruct (String.prefix ".sh" (String a s)) eqn:Hpre; [discriminate|].
  rewrite app_cons. cbn [remove_first]. rewrite <- app_cons, prefix_sh_app by done.
  rewrite IH; [reflexivity|]. by destruct (String.prefix ".sh" s).
Qed.

Lemma workspace_listed (fs : FS) (name : string) :
  present fs (File SCRIPT_DIR (name +:+ ".sh")) = true ->
  includes ".sh" name = false ->
  name ∈ workspaces_of fs.
Proof.
  cbn. unfold workspaces_of. destruct (scripts fs) as [m|]; [|done].
  intros [content Hfile]%bool_decide_eq_true Hinc.
  apply list_elem_of_fmap. exists (name +:+ ".sh"). split; [by rewrite remove_first_sh|].
  apply list_elem_of_filter. split; [by rewrite endsWith_app|].
  apply list_elem_of_fmap. exists (name +:+ ".sh", content). split; [done|].
  by apply elem_of_map_to_list.
Qed.


Lemma describe_eq {json : JSON} (workspaces : list string) (w : World) :
  describe workspaces w
  = (Return (map (fun ws => (ws, (fun c => (length (panes c), baseDir c)) <$> stored_config (disk w) ws))
               workspaces), w).
Proof.
  induction workspaces as [|ws rest IH]; [reflexivity|].
  cbn [describe]. rewrite (bind_eq_return _ _ _ _ _ (loadConfig_eq ws w)).
  rewrite (bind_eq_return _ _ _ _ _ IH). reflexivity.
Qed.


(** C10, on the code: the script of the workspace my.shop exists and it has no
    descriptor; [load] runs the script, [edit] and [rename] report that it
    was not found, but [list] shows the name myop.sh and not my.shop. *)
Theorem list_shows_another_name {json : JSON} :
  let w := start shell_disk [] in
  present (disk w) (File SCRIPT_DIR ("my.shop" +:+ ".sh")) = true
  /\ stored_config (disk w) "my.shop" = None
  /\ list_action false w = (Return tt, printed (Available [("myop.sh", None)]) w)
  /\ load_action "my.shop" w = (Return tt, with_child (Bash (File SCRIPT_DIR "my.shop.sh")) w)
  /\ edit_action "my.shop" w = (Exit 1, printed (NotFound "my.shop") w)
  /\ rename_action (Some "my.shop") (Some "b") w = (Exit 1, printed (NotFound "my.shop") w).
Proof. cbn zeta. repeat split; vm_compute; reflexivity. Qed.

(* ===================================================================== *)
(** * Properties of the JSON texts *)
(* ===================================================================== *)

(** The reader of [JsonText] reads back what its writer wrote: strings with
    their escapes, integers, arrays and objects at any depth, and so every
    configuration. *)
Module JsonFacts.
Import JsonText.

Lemma skip_space_indent (d : nat) (s : string) : skip_space (indent d +:+ s) = skip_space s.
Proof. induction d as [|d IH]; [reflexivity|]. cbn [indent]. rewrite app_assoc_s. exact IH. Qed.

Lemma skip_space_nl (s : string) : skip_space (nl +:+ s) = skip_space s.
Proof. reflexivity. Qed.

Lemma starts_here (ch : ascii) (s : string) : starts ch (String ch s) = Some s.
Proof. cbn. by rewrite Ascii.eqb_refl. Qed.

(** ** Strings *)

Lemma read_chars_escape_char (c : ascii) (tail : string) :
  read_chars (escape_char c +:+ tail)
  = match read_chars tail with
    | Some (body, rest) => Some (String c body, rest)
    | None => None
    end.
Proof. destruct c as [[] [] [] [] [] [] [] []]; reflexivity. Qed.

Lemma read_chars_escape (s rest : string) :
  read_chars (escape s +:+ dquote +:+ rest) = Some (s, rest).
Proof.
  induction s as [|c s IH]; [reflexivity|].
  cbn [escape]. rewrite app_assoc_s, read_chars_escape_char, IH. reflexivity.
Qed.

(** ** Numbers *)

Ltac eval_digits :=
  repeat match goal with
         | |- context [digit_value ?c] =>
             let v := eval vm_compute in (digit_value c) in change (digit_value c) with v
         end.

Lemma read_digits_uint (u : Decimal.uint) (acc : Z) (rest : string) :
  no_digit rest = true ->
  read_digits acc (NilEmpty.string_of_uint u +:+ rest) = (uint_val acc u, rest).
Proof.
  intros Hrest. revert acc. induction u; intros acc; cbn [NilEmpty.string_of_uint uint_val];
    rewrite ?app_cons; cbn [read_digits]; eval_digits; cbn iota;
    try (rewrite IHu; f_equal; f_equal; lia).
  rewrite app_empty_l. destruct rest as [|c rest]; [reflexivity|].
  cbn in Hrest |- *. by destruct (digit_value c).
Qed.

Lemma uint_val_acc (u : Decimal.uint) (acc : positive) :
  Z.pos (Pos.of_uint_acc u acc) = uint_val (Z.pos acc) u.
Proof.
  revert acc. induction u; intros acc; cbn [Pos.of_uint_acc uint_val]; try reflexivity;
    rewrite IHu; f_equal; lia.
Qed.

Lemma uint_val_of_uint (u : Decimal.uint) : Z.of_uint u = uint_val 0 u.
Proof.
  unfold Z.of_uint. induction u; cbn [Pos.of_uint uint_val]; try reflexivity; try exact IHu;
    cbn [Z.of_N]; rewrite uint_val_acc; reflexivity.
Qed.

Lemma read_number_show (z : Z) (rest : string) :
  no_digit rest = true -> read_number (show_Z z +:+ rest) = Some (z, rest).
Proof.
  intros Hrest. pose proof (DecimalZ.of_to z) as Hz. unfold show_Z.
  destruct (Z.to_int z) as [u|u]; cbn [Z.of_int] in Hz; rewrite uint_val_of_uint in Hz;
    cbn [NilZero.string_of_int NilZero.string_of_uint].
  - destruct u; cbn [NilZero.string_of_uint NilEmpty.string_of_uint] in *;
      rewrite ?app_cons; cbn [read_number]; eval_digits; cbn iota;
      rewrite ?read_digits_uint by done; try (by rewrite <- Hz).
    rewrite <- Hz. rewrite app_empty_l. destruct rest as [|c rest]; [reflexivity|].
    cbn in Hrest |- *. by destruct (digit_value c).
  - rewrite app_cons.
    destruct u; cbn [NilZero.string_of_uint NilEmpty.string_of_uint] in *;
      rewrite ?app_cons; cbn [read_number]; eval_digits; cbn iota;
      rewrite ?read_digits_uint by done; try (by rewrite <- Hz).
    rewrite <- Hz. rewrite app_empty_l. destruct rest as [|c rest]; [reflexivity|].
    cbn in Hrest |- *. by destruct (digit_value c).
Qed.

(** ** Values *)

Lemma show_Z_head (z : Z) : exists c s, show_Z z = String c s /\ number_head c = true.
Proof.
  unfold show_Z. destruct (Z.to_int z) as [u|u]; cbn [NilZero.string_of_int].
  - destruct u; cbn; eauto.
  - eauto.
Qed.

(** What [read_value] does before it reads a number. *)
Lemma number_head_tests (c : ascii) (s : string) :
  number_head c = true ->
  skip_space (String c s) = String c s
  /\ starts "{" (String c s) = None /\ starts "[" (String c s) = None
  /\ starts "034" (String c s) = None
  /\ String.prefix "null" (String c s) = false
  /\ String.prefix "true" (String c s) = false
  /\ String.prefix "false" (String c s) = false
  /\ value_head c = true.
Proof.
  destruct c as [[] [] [] [] [] [] [] []]; intros H; try discriminate H; repeat split.
Qed.

Lemma read_value_S (fuel : nat) (s : string) :
  read_value (S fuel) s = read_value (S fuel) (skip_space s).
Proof.
  assert (skip_space (skip_space s) = skip_space s) as Hidem.
  { induction s as [|c s IH]; [reflexivity|]. cbn [skip_space].
    destruct (is_space c) eqn:Hc; [exact IH|]. cbn [skip_space]. by rewrite Hc. }
  cbn [read_value]. by rewrite Hidem.
Qed.

Lemma read_value_skip (fuel : nat) (s : string) :
  read_value fuel s = read_value fuel (skip_space s).
Proof. destruct fuel; [reflexivity|]. apply read_value_S. Qed.

Lemma write_head (v : jvalue) (d : nat) :
  exists c s, write d v = String c s /\ value_head c = true.
Proof.
  destruct v as [|[]|z|s|[|x l]|[|m ms]]; try (cbn; eauto; fail).
  - destruct (show_Z_head z) as (c & s & Hs & Hc). exists c, s. split; [exact Hs|].
    by apply (number_head_tests c s).
Qed.

Lemma value_head_skip (c : ascii) (s : string) :
  value_head c = true -> skip_space (String c s) = String c s.
Proof.
  unfold value_head. intros H. cbn [skip_space].
  destruct (is_space c); [discriminate|reflexivity].
Qed.

Lemma value_head_starts (c : ascii) (s : string) :
  value_head c = true ->
  starts "," (String c s) = None /\ starts "]" (String c s) = None
  /\ starts "}" (String c s) = None.
Proof.
  unfold value_head, starts. intros H.
  destruct (is_space c), (Ascii.eqb c ","), (Ascii.eqb c "]"), (Ascii.eqb c "}");
    try discriminate; done.
Qed.

Lemma concat_cons2 (sep x y : string) (l : list string) :
  String.concat sep (x :: y :: l) = x +:+ sep +:+ String.concat sep (y :: l).
Proof. reflexivity. Qed.

Lemma no_digit_cons (c : ascii) (s : string) :
  digit_value c = None -> no_digit (String c s) = true.
Proof. intros H. cbn. by rewrite H. Qed.

Lemma read_elements_ok (read : string -> option (jvalue * string)) (d : nat) :
  forall (l : list jvalue) (n : nat) (rest : string),
    l <> [] -> length l <= n ->
    (forall x rest', x ∈ l -> no_digit rest' = true ->
                     read (nl +:+ indent (S d) +:+ write (S d) x +:+ rest') = Some (x, rest')) ->
    read_elements read n (nl +:+ elements_text d l +:+ nl +:+ indent d +:+ "]" +:+ rest)
    = Some (l, rest).
Proof.
  induction l as [|x l IH]; intros n rest Hne Hlen Hread; [done|].
  destruct n as [|n]; [cbn in Hlen; lia|]. cbn [read_elements].
  destruct l as [|y l].
  - unfold elements_text. cbn [map String.concat]. rewrite !app_assoc_s.
    rewrite Hread; [|left|reflexivity].
    rewrite skip_space_nl, skip_space_indent. cbn. reflexivity.
  - unfold elements_text. cbn [map]. rewrite concat_cons2, !app_assoc_s.
    rewrite Hread; [|left|reflexivity].
    change (skip_space ("," +:+ ?s)) with ("," +:+ s).
    change (starts "," ("," +:+ ?s)) with (Some s).
    cbn iota.
    change (String.concat ("," +:+ nl)
              ((indent (S d) +:+ write (S d) y)
                 :: map (fun x0 => indent (S d) +:+ write (S d) x0) l))
      with (elements_text d (y :: l)).
    rewrite IH; [reflexivity|done|cbn in Hlen |- *; lia|].
    intros x0 rest' Hx0 Hrest'. apply Hread; [by right|done].
Qed.

Lemma read_members_ok (read : string -> option (jvalue * string)) (d : nat) :
  forall (l : list (string * jvalue)) (n : nat) (rest : string),
    l <> [] -> length l <= n ->
    (forall m rest', m ∈ l -> no_digit rest' = true ->
                     read (" " +:+ write (S d) (snd m) +:+ rest') = Some (snd m, rest')) ->
    read_members read n (nl +:+ members_text d l +:+ nl +:+ indent d +:+ "}" +:+ rest)
    = Some (l, rest).
Proof.
  induction l as [|[k v] l IH]; intros n rest Hne Hlen Hread; [done|].
  destruct n as [|n]; [cbn in Hlen; lia|]. cbn [read_members].
  rewrite skip_space_nl.
  destruct l as [|y l].
  - unfold members_text. cbn [map String.concat fst snd]. rewrite !app_assoc_s.
    rewrite skip_space_indent. unfold quote at 1. rewrite !app_assoc_s.
    change (skip_space (dquote +:+ ?s)) with (dquote +:+ s).
    change (starts "034" (dquote +:+ ?s)) with (Some s). cbn iota.
    rewrite read_chars_escape.
    change (skip_space (": " +:+ ?s)) with (": " +:+ s).
    change (starts ":" (": " +:+ ?s)) with (Some (" " +:+ s)). cbn iota.
    rewrite (Hread (k, v)); [|left|reflexivity].
    rewrite skip_space_nl, skip_space_indent. cbn. reflexivity.
  - unfold members_text. cbn [map]. rewrite concat_cons2. cbn [fst snd]. rewrite !app_assoc_s.
    rewrite skip_space_indent. unfold quote at 1. rewrite !app_assoc_s.
    change (skip_space (dquote +:+ ?s)) with (dquote +:+ s).
    change (starts "034" (dquote +:+ ?s)) with (Some s). cbn iota.
    rewrite read_chars_escape.
    change (skip_space (": " +:+ ?s)) with (": " +:+ s).
    change (starts ":" (": " +:+ ?s)) with (Some (" " +:+ s)). cbn iota.
    rewrite (Hread (k, v)); [|left|reflexivity].
    change (skip_space ("," +:+ ?s)) with ("," +:+ s).
    change (starts "," ("," +:+ ?s)) with (Some s).
    cbn iota.
    change (String.concat ("," +:+ nl)
              ((indent (S d) +:+ quote (fst y) +:+ ": " +:+ write (S d) (snd y))
                 :: map (fun m => indent (S d) +:+ quote (fst m) +:+ ": " +:+ write (S d) (snd m)) l))
      with (members_text d (y :: l)).
    rewrite IH; [reflexivity|done|cbn in Hlen |- *; lia|].
    intros x0 rest' Hx0 Hrest'. apply Hread; [by right|done].
Qed.

Lemma size_elements (x : jvalue) (l : list jvalue) :
  x ∈ l -> size x <= list_sum (map size l).
Proof.
  induction l as [|y l IH]; intros Hx; [by apply elem_of_nil in Hx|].
  change (list_sum (map size (y :: l))) with (size y + list_sum (map size l)).
  apply elem_of_cons in Hx as [->|Hx]; [lia|]. specialize (IH Hx). lia.
Qed.

Lemma size_members (m : string * jvalue) (l : list (string * jvalue)) :
  m ∈ l -> size (snd m) <= list_sum (map (fun m => size (snd m)) l).
Proof.
  induction l as [|y l IH]; intros Hx; [by apply elem_of_nil in Hx|].
  change (list_sum (map (fun m => size (snd m)) (y :: l)))
    with (size (snd y) + list_sum (map (fun m => size (snd m)) l)).
  apply elem_of_cons in Hx as [->|Hx]; [lia|]. specialize (IH Hx). lia.
Qed.

Lemma skip_space_value (v : jvalue) (d : nat) (rest : string) :
  exists c s, skip_space (write d v +:+ rest) = String c s /\ value_head c = true.
Proof.
  destruct (write_head v d) as (c & s & Hs & Hc). exists c, (s +:+ rest).
  rewrite Hs, app_cons. split; [by apply value_head_skip|done].
Qed.

Lemma elements_text_cons (d : nat) (x : jvalue) (l : list jvalue) :
  exists t, elements_text d (x :: l) = indent (S d) +:+ write (S d) x +:+ t.
Proof.
  destruct l as [|y l].
  - exists "". unfold elements_text. cbn [map String.concat]. by rewrite app_empty_r.
  - eexists. unfold elements_text. cbn [map]. rewrite concat_cons2, !app_assoc_s. reflexivity.
Qed.

Lemma elements_not_closed (d : nat) (x : jvalue) (l : list jvalue) (rest : string) :
  starts "]" (skip_space (nl +:+ elements_text d (x :: l) +:+ rest)) = None.
Proof.
  destruct (elements_text_cons d x l) as [t ->].
  rewrite skip_space_nl, !app_assoc_s, skip_space_indent.
  destruct (skip_space_value x (S d) (t +:+ rest)) as (c & s & -> & Hc).
  by apply value_head_starts.
Qed.

Lemma members_not_closed (d : nat) (m : string * jvalue) (l : list (string * jvalue))
    (rest : string) :
  starts "}" (skip_space (nl +:+ members_text d (m :: l) +:+ rest)) = None.
Proof.
  rewrite skip_space_nl. unfold members_text.
  destruct l as [|y l]; cbn [map]; rewrite ?concat_cons2; cbn [String.concat];
    rewrite !app_assoc_s, skip_space_indent; unfold quote; rewrite !app_assoc_s; reflexivity.
Qed.

(** A written value is read back, whatever follows it, with fuel for its
    size. *)
Lemma read_value_write :
  forall (fuel : nat) (v : jvalue) (d : nat) (rest : string),
    size v <= fuel -> no_digit rest = true ->
    read_value fuel (write d v +:+ rest) = Some (v, rest).
Proof.
  induction fuel as [|fuel IH]; intros v d rest Hsize Hrest.
  { destruct v; cbn in Hsize; lia. }
  destruct v as [|[]|z|s|[|x l]|[|m ms]].
  - cbn. by destruct rest.
  - cbn. by destruct rest.
  - cbn. by destruct rest.
  - destruct (show_Z_head z) as (c & s & Hs & Hc).
    destruct (number_head_tests c (s +:+ rest) Hc) as (H1 & H2 & H3 & H4 & H5 & H6 & H7 & _).
    cbn [write read_value]. cbv zeta. rewrite Hs, app_cons, H1, H2, H3, H4, H5, H6, H7.
    rewrite <- app_cons, <- Hs, read_number_show by done. reflexivity.
  - cbn [write read_value]. cbv zeta. unfold quote. rewrite !app_assoc_s.
    change (skip_space (dquote +:+ ?t)) with (dquote +:+ t).
    change (starts "{" (dquote +:+ ?t)) with (@None string).
    change (starts "[" (dquote +:+ ?t)) with (@None string).
    change (starts "034" (dquote +:+ ?t)) with (Some t). cbn iota.
    by rewrite read_chars_escape.
  - reflexivity.
  - change (write d (Arr (x :: l)))
      with ("[" +:+ nl +:+ elements_text d (x :: l) +:+ nl +:+ indent d +:+ "]").
    rewrite !app_assoc_s. cbn [read_value]. cbv zeta.
    change (skip_space ("[" +:+ ?t)) with ("[" +:+ t).
    change (starts "{" ("[" +:+ ?t)) with (@None string).
    change (starts "[" ("[" +:+ ?t)) with (Some t). cbn iota.
    rewrite elements_not_closed.
    cbn [size] in Hsize.
    rewrite read_elements_ok; [reflexivity|done|lia|].
    intros x0 rest' Hx0 Hrest'.
    rewrite read_value_skip, skip_space_nl, skip_space_indent, <- read_value_skip.
    apply IH; [|done]. pose proof (size_elements _ _ Hx0). lia.
  - reflexivity.
  - change (write d (Obj (m :: ms)))
      with ("{" +:+ nl +:+ members_text d (m :: ms) +:+ nl +:+ indent d +:+ "}").
    rewrite !app_assoc_s. cbn [read_value]. cbv zeta.
    change (skip_space ("{" +:+ ?t)) with ("{" +:+ t).
    change (starts "{" ("{" +:+ ?t)) with (Some t). cbn iota.
    rewrite members_not_closed.
    cbn [size] in Hsize.
    rewrite read_members_ok; [reflexivity|done|lia|].
    intros x0 rest' Hx0 Hrest'.
    rewrite read_value_skip.
    change (skip_space (" " +:+ ?t)) with (skip_space t).
    rewrite <- read_value_skip.
    apply IH; [|done]. pose proof (size_members _ _ Hx0). lia.
Qed.

(** ** Fuel *)

Lemma length_app_s (s t : string) :
  String.length (s +:+ t) = String.length s + String.length t.
Proof. induction s as [|a s IH]; [reflexivity|]. rewrite app_cons. cbn [String.length]. lia. Qed.

Lemma length_indent (d : nat) : 1 <= String.length (indent (S d)).
Proof. cbn [indent]. rewrite length_app_s. cbn [String.length]. lia. Qed.

Lemma length_elements (d : nat) (l : list jvalue) :
  (forall x, x ∈ l -> size x <= String.length (write (S d) x)) ->
  length l + list_sum (map size l) <= String.length (elements_text d l).
Proof.
  induction l as [|x l IH]; intros Hl; [cbn; lia|].
  assert (size x <= String.length (write (S d) x)) as Hx by (apply Hl; left).
  assert (length l + list_sum (map size l) <= String.length (elements_text d l)) as Hrec.
  { apply IH. intros y Hy. apply Hl. by right. }
  change (list_sum (map size (x :: l))) with (size x + list_sum (map size l)).
  pose proof (length_indent d) as Hd.
  unfold elements_text in *. destruct l as [|y l]; cbn [map length] in *.
  - cbn [String.concat]. rewrite !length_app_s. cbn [list_sum foldr] in *. lia.
  - rewrite concat_cons2, !length_app_s. lia.
Qed.

Lemma length_members (d : nat) (l : list (string * jvalue)) :
  (forall m, m ∈ l -> size (snd m) <= String.length (write (S d) (snd m))) ->
  length l + list_sum (map (fun m => size (snd m)) l) <= String.length (members_text d l).
Proof.
  induction l as [|x l IH]; intros Hl; [cbn; lia|].
  assert (size (snd x) <= String.length (write (S d) (snd x))) as Hx by (apply Hl; left).
  assert (length l + list_sum (map (fun m => size (snd m)) l)
          <= String.length (members_text d l)) as Hrec.
  { apply IH. intros y Hy. apply Hl. by right. }
  change (list_sum (map (fun m => size (snd m)) (x :: l)))
    with (size (snd x) + list_sum (map (fun m => size (snd m)) l)).
  pose proof (length_indent d) as Hd.
  unfold members_text in *. destruct l as [|y l]; cbn [map length] in *.
  - cbn [String.concat]. rewrite !length_app_s. cbn [list_sum foldr] in *. lia.
  - rewrite concat_cons2, !length_app_s. lia.
Qed.

Lemma size_le_length :
  forall (n : nat) (v : jvalue) (d : nat), size v <= n -> size v <= String.length (write d v).
Proof.
  induction n as [|n IH]; intros v d Hn.
  { destruct v; cbn in Hn; lia. }
  destruct v as [|[]|z|s|[|x l]|[|m ms]]; try (cbn; lia).
  - destruct (show_Z_head z) as (c & s & Hs & _). cbn [write size]. rewrite Hs.
    cbn [String.length]. lia.
  - change (write d (Str s)) with (String "034" (escape s +:+ dquote)).
    cbn [String.length size]. lia.
  - change (write d (Arr (x :: l)))
      with ("[" +:+ nl +:+ elements_text d (x :: l) +:+ nl +:+ indent d +:+ "]").
    cbn [size] in Hn |- *.
    pose proof (length_elements d (x :: l)) as Hlen.
    rewrite !length_app_s. cbn [String.length].
    enough (length (x :: l) + list_sum (map size (x :: l))
            <= String.length (elements_text d (x :: l))) by lia.
    apply Hlen. intros y Hy. apply IH. pose proof (size_elements _ _ Hy). lia.
  - change (write d (Obj (m :: ms)))
      with ("{" +:+ nl +:+ members_text d (m :: ms) +:+ nl +:+ indent d +:+ "}").
    cbn [size] in Hn |- *.
    pose proof (length_members d (m :: ms)) as Hlen.
    rewrite !length_app_s. cbn [String.length].
    enough (length (m :: ms) + list_sum (map (fun m => size (snd m)) (m :: ms))
            <= String.length (members_text d (m :: ms))) by lia.
    apply Hlen. intros y Hy. apply IH. pose proof (size_members _ _ Hy). lia.
Qed.

(** ** Round trip *)

Lemma read_write (v : jvalue) : read (write 0 v) = Some v.
Proof.
  unfold read.
  pose proof (read_value_write (S (String.length (write 0 v))) v 0 "") as H.
  rewrite app_empty_r in H. rewrite H; [reflexivity| |reflexivity].
  pose proof (size_le_length (size v) v 0). lia.
Qed.

Lemma to_pane_of_pane (p : Pane) : to_pane (of_pane p) = Some p.
Proof.
  destruct p as [[s|] [d|] [c|] [[t v]|]]; reflexivity.
Qed.

Lemma to_panes_of_panes (ps : list Pane) : mapM to_pane (map of_pane ps) = Some ps.
Proof.
  induction ps as [|p ps IH]; [reflexivity|].
  cbn [map mapM]. rewrite to_pane_of_pane. cbn. rewrite IH. reflexivity.
Qed.

Lemma to_config_of_config (c : Config) : to_config (of_config c) = Some c.
Proof.
  destruct c as [n b ps]. unfold of_config, to_config. cbn [name baseDir panes].
  cbn [member String.eqb Ascii.eqb Bool.eqb]. cbn iota.
  rewrite to_panes_of_panes. reflexivity.
Qed.

(** Every configuration is read back from its text. *)
Theorem text_round_trip (c : Config) :
  @JSON_parse text (@JSON_stringify text c) = Some c.
Proof.
  cbn [JSON_parse JSON_stringify text]. rewrite read_write. cbn. apply to_config_of_config.
Qed.

End JsonFacts.

(** With the JSON texts of [JsonText], a saved configuration is loaded back
    whatever the layout is. *)
Theorem saved_text_is_loaded (name : string) (L : Config) (w : World) :
  is_Some (configs (disk w)) ->
  exists w1, @saveConfig JsonText.text name L w = (Return tt, w1)
             /\ @loadConfig JsonText.text name w1 = (Return (Some L), w1).
Proof.
  intros Hdir.
  destruct (@loadConfig_after_saveConfig JsonText.text name L w Hdir) as (w1 & Hsave & Hload).
  exists w1. by rewrite <- (JsonFacts.text_round_trip L).
Qed.

(* ===================================================================== *)
(** * The properties at example states *)
(* ===================================================================== *)



(** C4 on the disk that holds dev: [rename dev work], confirmed. *)
Lemma rename_success_witness :
  let w := start (@existing_dev JsonText.text) [YesNo true] in
  let w' := (@rename_action JsonText.text (Some "dev") (Some "work") w).2 in
  (@rename_action JsonText.text (Some "dev") (Some "work") w).1 = Return tt
  /\ present (disk w') (File SCRIPT_DIR ("dev" +:+ ".sh")) = false
  /\ present (disk w') (File CONFIG_DIR ("dev" +:+ ".json")) = false
  /\ present (disk w') (File SCRIPT_DIR ("work" +:+ ".sh")) = true
  /\ exists c, @loadConfig JsonText.text "work" w' = (Return (Some c), w') /\ name c = "work".
Proof.
  apply (@rename_success JsonText.text (Some "dev") (Some "work") "dev" "work"
           (start (@existing_dev JsonText.text) [YesNo true])).
  - vm_compute. reflexivity.
  - intros c Hc. vm_compute in Hc. injection Hc as <-. vm_compute. reflexivity.
Defined.

(* ===================================================================== *)
(** * The loops have turns enough *)
(* ===================================================================== *)

(** A loop whose turns take answers behaves the same with any number of
    turns above the number of answers left: [while] never stops for lack
    of turns, only for lack of answers. *)
Lemma loop_enough {St R : Type} (body : St -> Proc (St + R)) :
  consuming body ->
  forall n m s w,
    length (answers w) < n -> length (answers w) < m ->
    loop n body s w = loop m body s w.
Proof.
  intros Hbody. induction n as [|n IH]; intros m s w Hn Hm; [lia|].
  destruct m as [|m]; [lia|]. cbn [loop]. unfold bind.
  destruct (body s w) as [[[s'|r]|e|code|] w1] eqn:Hturn; try reflexivity.
  apply Hbody in Hturn. apply IH; lia.
Qed.

Lemma while_enough {St R : Type} (body : St -> Proc (St + R)) (n : nat) (s : St) (w : World) :
  consuming body -> length (answers w) < n -> while body s w = loop n body s w.
Proof. intros Hbody Hn. unfold while. apply loop_enough; [done|lia|done]. Qed.

Lemma loop_answers {St R : Type} (body : St -> Proc (St + R)) :
  (forall s w x w', body s w = (Return x, w') -> length (answers w') <= length (answers w)) ->
  forall fuel s w r w',
    loop fuel body s w = (Return r, w') -> length (answers w') <= length (answers w).
Proof.
  intros Hbody. induction fuel as [|fuel IH]; intros s w r w' Hrun; [discriminate|].
  cbn [loop] in Hrun. apply bind_return in Hrun as ([s'|r'] & w1 & Hturn & Hrun).
  - apply Hbody in Hturn. apply IH in Hrun. lia.
  - apply Hbody in Hturn. cbn in Hrun. injection Hrun as <- <-. done.
Qed.

Lemma answered_less (message : string) (a : Answer) (w w' : World) :
  answered message a w w' -> length (answers w') < length (answers w).
Proof. intros (rest & -> & ->). cbn. lia. Qed.

Ltac answers_chain :=
  repeat match goal with
         | H : answered _ _ _ _ |- _ => apply answered_less in H
         end;
  unfold printed, with_disk, with_child in *; cbn in *; lia.

Lemma create_edit_pane_takes (i : nat) (c : Config) (w w' : World) (r : Config + unit) :
  create_edit_pane i c w = (Return r, w') -> length (answers w') < length (answers w).
Proof. unfold create_edit_pane. intros H. proc_cases; answers_chain. Qed.

Lemma edit_edit_pane_takes (i : nat) (c : Config) (w w' : World) (r : Config + unit) :
  edit_edit_pane i c w = (Return r, w') -> length (answers w') < length (answers w).
Proof. unfold edit_edit_pane. intros H. proc_cases; answers_chain. Qed.

Lemma pane_loop_consuming (step : Config -> Proc (Config + unit)) :
  (forall c w r w', step c w = (Return r, w') -> length (answers w') < length (answers w)) ->
  consuming (fun c => r <- step c ;; ret match r with inl c' => inl c' | inr _ => inr c end).
Proof.
  intros Hstep c w c' w' H. apply bind_return in H as (r & w1 & Hturn & H).
  apply Hstep in Hturn. destruct r; cbn in H; [|discriminate]. injection H as _ <-. lia.
Qed.

Lemma pane_loop_answers (step : Config -> Proc (Config + unit)) (c c' : Config) (w w' : World) :
  (forall c w r w', step c w = (Return r, w') -> length (answers w') < length (answers w)) ->
  while (fun c => r <- step c ;; ret match r with inl c' => inl c' | inr _ => inr c end) c w
  = (Return c', w') ->
  length (answers w') <= length (answers w).
Proof.
  intros Hstep Hrun. unfold while in Hrun. eapply loop_answers; [|exact Hrun].
  intros s w0 x w0' H. apply bind_return in H as (r & w1 & Hturn & H).
  apply Hstep in Hturn. cbn in H. injection H as _ <-. lia.
Qed.

Lemma new_pane_answers (s q1 q2 q3 q4 q5 : string) (w w' : World) (pane : Pane) :
  new_pane s q1 q2 q3 q4 q5 w = (Return pane, w') -> length (answers w') <= length (answers w).
Proof. unfold new_pane. intros H. proc_cases; answers_chain. Qed.

Ltac answers_all :=
  repeat match goal with
         | H : new_pane _ _ _ _ _ _ _ = (Return _, _) |- _ => apply new_pane_answers in H
         | H : while _ _ _ = (Return _, _) |- _ =>
             apply pane_loop_answers in H;
             [|intros ? ? ? ? ?;
               first [eapply create_edit_pane_takes; eassumption
                     | eapply edit_edit_pane_takes; eassumption]]
         end;
  answers_chain.

(** Every turn of the four loops of the editors takes an answer. *)
Lemma editor_loops_consuming {json : JSON} (workspace : string) (i : nat) :
  consuming create_turn
  /\ consuming (edit_turn workspace)
  /\ consuming (fun c => r <- create_edit_pane i c ;;
                         ret match r with inl c' => inl c' | inr _ => inr c end)
  /\ consuming (fun c => r <- edit_edit_pane i c ;;
                         ret match r with inl c' => inl c' | inr _ => inr c end).
Proof.
  split; [|split; [|split]].
  - intros c w c' w' H. unfold create_turn in H.
    destruct (panes c) as [|p0 rest] eqn:Hpanes; [discriminate|].
    rewrite <- Hpanes in H. proc_inv. destruct a.
    + proc_cases. answers_all.
    + proc_cases. answers_all.
    + destruct (panes c !! i0); [|discriminate]. proc_inv. answers_all.
    + proc_inv. destruct a; proc_inv; answers_all.
    + proc_inv. answers_all.
    + discriminate.
    + proc_cases. discriminate.
  - intros c w c' w' H. unfold edit_turn in H. proc_inv. destruct a.
    + proc_cases. answers_all.
    + proc_inv. destruct a; proc_inv; answers_all.
    + proc_inv. destruct a as [k|]; proc_inv; [|answers_all].
      destruct (panes c !! k); [|discriminate]. proc_inv. answers_all.
    + destruct (decide (length (panes c) = 1)); proc_cases; answers_all.
    + proc_cases; discriminate.
    + proc_cases; discriminate.
    + proc_cases; answers_all.
  - apply pane_loop_consuming. intros ? ? ? ? ?. by eapply create_edit_pane_takes.
  - apply pane_loop_consuming. intros ? ? ? ? ?. by eapply edit_edit_pane_takes.
Qed.

(* ===================================================================== *)
(** * The editors at an example *)
(* ===================================================================== *)

(** C5 at an example: [edit] on a layout of two panes, the user removes
    pane 1 and confirms. *)
Lemma pane_removal_witness :
  exists c' w',
    @edit_turn JsonText.text "dev" two_panes (start empty_disk [Pick 3; Pick 0; YesNo true])
    = (Return (inl c'), w')
    /\ length (panes c') < length (panes two_panes)
    /\ exists i, 0 < i < length (panes two_panes) /\ panes c' = delete i (panes two_panes)
                 /\ exists before,
                      transcript w' = before ++ [("Remove pane " +:+ show_nat i +:+ "?", YesNo true)].
Proof.
  eexists _, _. split; [reflexivity|]. split; [cbn; lia|].
  apply (proj1 (@pane_removal JsonText.text) "dev" two_panes
           (start empty_disk [Pick 3; Pick 0; YesNo true])); [reflexivity | cbn; lia].
Defined.

(** C6 at the same example: pane 0 is still there, without a split. *)
Lemma editors_keep_root_witness :
  exists c' w',
    @edit_turn JsonText.text "dev" two_panes (start empty_disk [Pick 3; Pick 0; YesNo true])
    = (Return (inl c'), w')
    /\ root_ok two_panes
    /\ same_root two_panes c' /\ root_ok c'.
Proof.
  eexists _, _. split; [reflexivity|].
  assert (root_ok two_panes) as Hroot by (by eexists _, _).
  split; [exact Hroot|].
  apply (proj1 (proj2 (@editors_keep_root JsonText.text)) "dev" two_panes
           (start empty_disk [Pick 3; Pick 0; YesNo true]) _ _ eq_refl Hroot).
Defined.

(* ===================================================================== *)
(** * More of the compiler *)
(* ===================================================================== *)

(** Two lists of panes that give the same lines, pane by pane, give the
    same script. *)
Lemma script_lines_ext (c c' : Config) :
  name c' = name c -> baseDir c' = baseDir c ->
  length (panes c') = length (panes c) ->
  (forall i p p', panes c !! i = Some p -> panes c' !! i = Some p' ->
     (0 < i -> split_line p' = split_line p)
     /\ resize_lines i p' = resize_lines i p
     /\ command_lines i p' = command_lines i p) ->
  generateScript c' = generateScript c.
Proof.
  intros Hname Hbase Hlen Hsame. rewrite !generateScript_unlines. f_equal.
  unfold script_lines. rewrite Hname, Hbase. f_equal.
  assert (forall i, i < length (panes c) ->
            exists p p', panes c !! i = Some p /\ panes c' !! i = Some p') as Hboth.
  { intros i Hi. destruct (lookup_lt_is_Some_2 (panes c) i Hi) as [p Hp].
    destruct (lookup_lt_is_Some_2 (panes c') i) as [p' Hp']; [lia|]. eauto. }
  f_equal; [|f_equal; [|f_equal]].
  - unfold split_phase. apply list_eq. intros i. rewrite !list_lookup_fmap, !lookup_drop.
    destruct (decide (1 + i < length (panes c))) as [Hi|Hi].
    + destruct (Hboth _ Hi) as (p & p' & Hp & Hp'). rewrite Hp, Hp'. cbn.
      f_equal. apply (Hsame (1 + i) p p' Hp Hp'). lia.
    + rewrite !lookup_ge_None_2 by lia. reflexivity.
  - unfold resize_phase. f_equal. apply list_eq. intros i. rewrite !list_lookup_imap.
    destruct (decide (i < length (panes c))) as [Hi|Hi].
    + destruct (Hboth _ Hi) as (p & p' & Hp & Hp'). rewrite Hp, Hp'. cbn.
      f_equal. apply (Hsame i p p' Hp Hp').
    + rewrite !lookup_ge_None_2 by lia. reflexivity.
  - unfold command_phase. f_equal. apply list_eq. intros i. rewrite !list_lookup_imap.
    destruct (decide (i < length (panes c))) as [Hi|Hi].
    + destruct (Hboth _ Hi) as (p & p' & Hp & Hp'). rewrite Hp, Hp'. cbn.
      f_equal. apply (Hsame i p p' Hp Hp').
    + rewrite !lookup_ge_None_2 by lia. reflexivity.
Qed.

(** Two assignments to pane [i] that give the same lines give the same
    script. *)
Lemma script_update_ext (f g : Pane -> Pane) (i : nat) (c : Config) :
  (forall p, (0 < i -> split_line (f p) = split_line (g p))
             /\ resize_lines i (f p) = resize_lines i (g p)
             /\ command_lines i (f p) = command_lines i (g p)) ->
  generateScript (update_pane f i c) = generateScript (update_pane g i c).
Proof.
  intros Hfg. apply script_lines_ext; try reflexivity.
  - cbn. by rewrite !length_alter.
  - cbn. intros j p p' Hp Hp'.
    destruct (decide (j = i)) as [->|Hj].
    + rewrite list_lookup_alter_eq in Hp, Hp'.
      destruct (panes c !! i) as [q|]; [|discriminate]. cbn in Hp, Hp'.
      injection Hp as <-. injection Hp' as <-. apply Hfg.
    + rewrite list_lookup_alter_ne in Hp, Hp' by done. by simplify_eq.
Qed.

Lemma update_pane_id (i : nat) (c : Config) : update_pane id i c = c.
Proof.
  destruct c as [n b ps]. unfold update_pane, set_panes. cbn. f_equal.
  apply list_eq. intros j. destruct (decide (j = i)) as [->|Hj].
  - rewrite list_lookup_alter_eq. by destruct (ps !! i).
  - by rewrite list_lookup_alter_ne.
Qed.

(** X1.  The split and the directory of pane 0 do not reach the script: the
    first loop starts at index 1, and the other two loops read the size and
    the command only. *)
Theorem generateScript_ignores_root_split (c : Config) (s d : option string) :
  generateScript (update_pane (fun p => set_directory d (set_split s p)) 0 c) = generateScript c.
Proof.
  rewrite <- (update_pane_id 0 c) at 2. apply script_update_ext.
  intros p. split; [lia|]. done.
Qed.

(** X2.  A command that is the empty text compiles as no command, and a
    directory that is the empty text as no directory. *)
Theorem generateScript_empty_fields (c : Config) (i : nat) :
  generateScript (update_pane (set_command (Some "")) i c)
  = generateScript (update_pane (set_command None) i c)
  /\ generateScript (update_pane (set_directory (Some "")) i c)
     = generateScript (update_pane (set_directory None) i c).
Proof. split; apply script_update_ext; intros p; done. Qed.

(** X3.  Every split other than horizontal compiles as a vertical split. *)
Theorem generateScript_split_default (c : Config) (i : nat) (s : option string) :
  s <> Some "horizontal" ->
  generateScript (update_pane (set_split s) i c)
  = generateScript (update_pane (set_split (Some "vertical")) i c).
Proof.
  intros Hs. apply script_update_ext. intros p. split; [|done]. intros _.
  unfold split_line, orientation_flag. cbn.
  destruct (decide (s = Some "horizontal")); [done|]. reflexivity.
Qed.

Lemma generateScript_split_default_witness :
  generateScript (update_pane (set_split None) 1 dev_layout)
  = generateScript (update_pane (set_split (Some "vertical")) 1 dev_layout).
Proof. apply (generateScript_split_default dev_layout 1 None). discriminate. Defined.

(** X4.  The name and the base directory are written in the second and the
    third line, and nowhere else: what follows these lines is the same for
    every name and every base directory. *)
Theorem generateScript_name_and_baseDir (c : Config) :
  exists body,
    forall n b,
      generateScript (set_baseDir b (set_name n c))
      = "#!/bin/bash" +:+ nl +:+ "SESSION=" +:+ dquote +:+ n +:+ dquote +:+ nl
        +:+ "BASE_DIR=" +:+ b +:+ nl +:+ body.
Proof.
  eexists. intros n b. rewrite generateScript_unlines. unfold script_lines, head_lines.
  cbn [name baseDir panes set_baseDir set_name app].
  rewrite unlines_cons, !nl_each_cons, !app_assoc_s. cbn [append]. reflexivity.
Qed.

(** X5.  A pane added at the end of a layout that has a pane adds its split
    after the splits, its size after the sizes and its command after the
    commands; the lines of the other panes stay as they are. *)
Theorem generateScript_add_pane (c : Config) (p : Pane) :
  panes c <> [] ->
  generateScript (set_panes (panes c ++ [p]) c)
  = unlines (head_lines (name c) (baseDir c)
             ++ (split_phase (panes c) ++ [split_line p])
             ++ (resize_phase (panes c) ++ resize_lines (length (panes c)) p)
             ++ (command_phase (panes c) ++ command_lines (length (panes c)) p)
             ++ tail_lines).
Proof.
  intros Hne. rewrite generateScript_unlines. unfold script_lines.
  cbn [name baseDir panes set_panes]. do 2 f_equal.
  assert (forall (f : nat -> Pane -> list string),
            concat (imap f (panes c ++ [p])) = concat (imap f (panes c)) ++ f (length (panes c)) p)
    as Himap.
  { intros f. rewrite imap_app, concat_app. cbn. by rewrite Nat.add_0_r, app_nil_r. }
  unfold split_phase, resize_phase, command_phase. rewrite !Himap.
  f_equal. destruct (panes c) as [|p0 rest]; [done|]. cbn [drop app].
  rewrite !drop_0. by rewrite map_app.
Qed.

Lemma generateScript_add_pane_witness :
  generateScript (set_panes (panes two_panes ++ [mkPane (Some "vertical") None (Some "top") None]) two_panes)
  = unlines (head_lines "" "/proj"
             ++ ["tmux split-window -h -c $BASE_DIR"; "tmux split-window -v -c $BASE_DIR"]
             ++ []
             ++ ["tmux send-keys -t 1 'htop' C-m"; "tmux send-keys -t 2 'top' C-m"]
             ++ tail_lines).
Proof.
  apply (generateScript_add_pane two_panes (mkPane (Some "vertical") None (Some "top") None)).
  discriminate.
Defined.

(* ===================================================================== *)
(** * What the commands leave as it was *)
(* ===================================================================== *)

Lemma keeps_run {X A : Type} (f : World -> X) (m : Proc A) (w w' : World) (r : Completion A) :
  keeps f m -> m w = (r, w') -> f w' = f w.
Proof. intros Hm Hrun. specialize (Hm w). by rewrite Hrun in Hm. Qed.

Lemma keeps_ret {X A : Type} (f : World -> X) (a : A) : keeps f (ret a).
Proof. by intros w. Qed.

Lemma keeps_throw {X A : Type} (f : World -> X) (e : Error) : keeps f (@throw A e).
Proof. by intros w. Qed.

Lemma keeps_process_exit {X A : Type} (f : World -> X) (code : nat) : keeps f (@process_exit A code).
Proof. by intros w. Qed.

Lemma keeps_bind {X A B : Type} (f : World -> X) (m : Proc A) (k : A -> Proc B) :
  keeps f m -> (forall a, keeps f (k a)) -> keeps f (bind m k).
Proof.
  intros Hm Hk w. unfold bind. specialize (Hm w).
  destruct (m w) as [[a|e|code|] w1]; cbn in Hm |- *; try done.
  by rewrite Hk.
Qed.

Lemma keeps_try_catch {X A : Type} (f : World -> X) (m : Proc A) (handler : Error -> Proc A) :
  keeps f m -> (forall e, keeps f (handler e)) -> keeps f (try_catch m handler).
Proof.
  intros Hm Hh w. unfold try_catch. specialize (Hm w).
  destruct (m w) as [[a|e|code|] w1]; cbn in Hm |- *; try done.
  by rewrite Hh.
Qed.

Lemma keeps_ask {X A : Type} (f : World -> X) (message : string) (resolve : Answer -> option A) :
  prompt_free f -> keeps f (ask message resolve).
Proof.
  intros Hf w. unfold ask. destruct (answers w) as [|a rest]; [done|].
  destruct (resolve a); [|done]. cbn. apply Hf.
Qed.

Lemma keeps_loop {X St R : Type} (f : World -> X) (body : St -> Proc (St + R)) (fuel : nat) :
  (forall s, keeps f (body s)) -> forall s, keeps f (loop fuel body s).
Proof.
  intros Hbody. induction fuel as [|fuel IH]; intros s; [by intros w|].
  cbn [loop]. apply keeps_bind; [apply Hbody|]. intros [s'|r]; [apply IH | apply keeps_ret].
Qed.

Lemma keeps_while {X St R : Type} (f : World -> X) (body : St -> Proc (St + R)) (s : St) :
  (forall s, keeps f (body s)) -> keeps f (while body s).
Proof. intros Hbody w. unfold while. by apply keeps_loop. Qed.

Lemma keeps_say {X : Type} (f : World -> X) (msg : Message) :
  (forall w, f (printed msg w) = f w) -> keeps f (say msg).
Proof. intros Hf w. apply Hf. Qed.

Lemma keeps_spawn {X : Type} (f : World -> X) (c : Child) :
  (forall w, f (with_child c w) = f w) -> keeps f (spawn c).
Proof. intros Hf w. apply Hf. Qed.

Lemma keeps_existsSync {X : Type} (f : World -> X) (p : Path) : keeps f (existsSync p).
Proof. by intros w. Qed.

Lemma keeps_loadConfig {X : Type} {json : JSON} (f : World -> X) (name : string) :
  keeps f (loadConfig name).
Proof. intros w. by rewrite loadConfig_eq. Qed.

Lemma keeps_getWorkspaces {X : Type} (f : World -> X) : keeps f getWorkspaces.
Proof. intros w. by rewrite getWorkspaces_eq. Qed.

Lemma prompt_free_disk : prompt_free disk.
Proof. by intros w ans tr. Qed.

Lemma prompt_free_console : prompt_free console.
Proof. by intros w ans tr. Qed.

Lemma prompt_free_spawned : prompt_free spawned.
Proof. by intros w ans tr. Qed.

(** Steps made of prompts, of reads and of lines and children that [f] does
    not see. *)
Ltac keeps_step :=
  first
    [ apply keeps_ret | apply keeps_throw | apply keeps_process_exit
    | apply keeps_existsSync | apply keeps_loadConfig | apply keeps_getWorkspaces
    | apply keeps_ask; first [apply prompt_free_disk | apply prompt_free_console | apply prompt_free_spawned]
    | apply keeps_say; reflexivity
    | apply keeps_spawn; reflexivity
    | apply keeps_bind; [|intros ?]
    | apply keeps_try_catch; [|intros ?]
    | apply keeps_while; intros ?
    | match goal with
      | |- keeps _ (match ?x with _ => _ end) => destruct x
      end ].

Ltac keeps_all :=
  unfold create_edit_pane, edit_edit_pane, new_pane;
  unfold prompt_list, prompt_input, prompt_confirm, prompt_number; repeat keeps_step.

(** From a run [H] of a step that keeps [f]. *)
Ltac keeps_from H f :=
  match type of H with
  | ?m ?w0 = (?r, ?w1) => apply (keeps_run f m w0 w1 r); [solve [keeps_all] | exact H]
  end.

Lemma keeps_openEditor {X : Type} (f : World -> X) (target : Path) :
  prompt_free f -> (forall c w, f (with_child c w) = f w) -> keeps f (openEditor target).
Proof.
  intros Hf Hc. unfold openEditor. apply keeps_bind; [by apply keeps_spawn|]. intros _.
  apply keeps_bind; [by apply keeps_ask|]. intros code.
  destruct (decide (code = 0)); [apply keeps_ret | apply keeps_throw].
Qed.

Lemma keeps_describe {X : Type} {json : JSON} (f : World -> X) (workspaces : list string) :
  keeps f (describe workspaces).
Proof. intros w. by rewrite describe_eq. Qed.

(* ===================================================================== *)
(** * [list] and [config] *)
(* ===================================================================== *)

(** X10.  Where every descriptor is a layout, [list] writes no file, ends
    normally unless it waits at its prompt, and starts at most one child:
    the script of a workspace that [getWorkspaces] gave, when the user
    picked it. *)
Theorem list_is_read_only {json : JSON} (w : World) :
  layouts_only (disk w) ->
  let r := (list_action true w).1 in
  let w' := (list_action true w).2 in
  disk w' = disk w
  /\ (r = Return tt \/ r = Pending)
  /\ (spawned w' = spawned w
      \/ exists ws names,
           getWorkspaces w = (Return names, w) /\ ws ∈ names /\ ws <> ""
           /\ spawned w' = spawned w ++ [Bash (File SCRIPT_DIR (ws +:+ ".sh"))]).
Proof.
  intros _. cbn zeta. unfold list_action.
  rewrite (bind_eq_return _ _ _ _ _ (getWorkspaces_eq w)).
  destruct (decide (length (workspaces_of (disk w)) = 0)) as [|Hlen];
    [cbn; repeat split; first [done | by left]|].
  rewrite (bind_eq_return _ _ _ _ _ (describe_eq _ w)). rewrite bind_say.
  unfold prompt_list, ask, bind. cbn [answers printed].
  destruct (answers w) as [|[n|s|b|z|code] rest];
    try solve [cbn; repeat split; first [done | by left | by right]].
  destruct (((Some <$> workspaces_of (disk w)) ++ [None]) !! n) as [[ws|]|] eqn:Hn;
    try solve [cbn; repeat split; first [done | by left | by right]].
  destruct (truthy (Some ws)) eqn:Hws;
    [|solve [cbn; repeat split; first [done | by left | by right]]].
  cbn. split; [done|]. split; [eauto|]. right.
  exists ws, (workspaces_of (disk w)). split; [apply getWorkspaces_eq|].
  split.
  - apply lookup_app_Some in Hn as [Hn|[_ Hn]].
    + rewrite list_lookup_fmap in Hn. destruct (workspaces_of (disk w) !! n) as [x|] eqn:Hx; [|done].
      injection Hn as <-. by eapply list_elem_of_lookup_2.
    + destruct (n - _) as [|[|k]]; cbn in Hn; discriminate.
  - split; [|done]. intros ->. discriminate.
Qed.

(** [list] on the disk that holds dev, the user picking dev. *)
Lemma list_is_read_only_witness :
  let w := start (@existing_dev JsonText.text) [Pick 0] in
  let r := (@list_action JsonText.text true w).1 in
  let w' := (@list_action JsonText.text true w).2 in
  disk w' = disk w
  /\ (r = Return tt \/ r = Pending)
  /\ (spawned w' = spawned w
      \/ exists ws names,
           getWorkspaces w = (Return names, w) /\ ws ∈ names /\ ws <> ""
           /\ spawned w' = spawned w ++ [Bash (File SCRIPT_DIR (ws +:+ ".sh"))]).
Proof.
  apply (@list_is_read_only JsonText.text (start (@existing_dev JsonText.text) [Pick 0])).
  intros mc name content Hmc Hfile. injection Hmc as <-.
  apply lookup_singleton_Some in Hfile as [_ <-]. vm_compute. eauto.
Defined.

(** X11.  [config] writes no file.  For a name whose script is missing it
    prints that the workspace was not found and exits with 1, without
    starting the editor.  Otherwise it starts the editor, on the script of
    the name or, without a name, on the script directory; when the editor
    ends with another status than 0 the failure is printed and the command
    still ends normally. *)
Theorem config_outcomes (workspace : option string) (w : World) :
  let target := if truthy workspace
                then File SCRIPT_DIR (default "" workspace +:+ ".sh")
                else Folder SCRIPT_DIR in
  let r := (config_action workspace w).1 in
  let w' := (config_action workspace w).2 in
  disk w' = disk w
  /\ if truthy workspace && negb (present (disk w) target)
     then r = Exit 1 /\ spawned w' = spawned w
          /\ console w' = console w ++ [NotFound (default "" workspace)]
     else spawned w' = spawned w ++ [Editor target]
          /\ match answers w with
             | EditorExit 0 :: _ => r = Return tt /\ console w' = console w ++ [EditorDone]
             | EditorExit (S code) :: _ =>
                 r = Return tt
                 /\ console w' = console w ++ [FailedToOpenEditor (EditorExitedWith (S code))]
             | _ => r = Pending /\ console w' = console w
             end.
Proof.
  cbn zeta. split.
  - apply (keeps_run disk (config_action workspace) w _ (config_action workspace w).1);
      [|by destruct (config_action workspace w)].
    unfold config_action. keeps_all.
  - destruct (config_action workspace w) as [r w'] eqn:Hrun. cbn [fst snd].
    unfold config_action, path_join in Hrun. cbv zeta in Hrun.
    destruct (truthy workspace) eqn:Hws; cbv beta iota in Hrun |- *.
    + unfold bind at 1 2 in Hrun. rewrite existsSync_eq in Hrun.
      destruct (present (disk w) (File SCRIPT_DIR (default "" workspace +:+ ".sh"))); cbn [negb].
      * unfold try_catch, openEditor, ask, bind in Hrun. cbn in Hrun.
        destruct (answers w) as [|[n|s|b|z|[|code]] rest]; cbn in Hrun;
          repeat case_decide; try done; cbn in Hrun; by simplify_eq.
      * cbn in Hrun. by simplify_eq.
    + rewrite bind_ret in Hrun. unfold try_catch, openEditor, ask, bind in Hrun. cbn in Hrun.
      destruct (answers w) as [|[n|s|b|z|[|code]] rest]; cbn in Hrun;
        repeat case_decide; try done; cbn in Hrun; by simplify_eq.
Qed.

(* ===================================================================== *)
(** * More of the stored state *)
(* ===================================================================== *)

Lemma prefix_refl (s : string) : String.prefix s s = true.
Proof. rewrite <- (app_empty_r s) at 2. apply prefix_app. Qed.

Lemma endsWith_includes (s p : string) : endsWith s p = true -> includes p s = true.
Proof.
  induction s as [|a s IH]; cbn [endsWith includes].
  - destruct (String.eqb_spec "" p) as [<-|]; [done|discriminate].
  - destruct (String.eqb_spec (String a s) p) as [<-|_].
    + intros _. by rewrite prefix_refl.
    + intros H. rewrite (IH H). by destruct (String.prefix p (String a s)).
Qed.

Lemma substring_all (s : string) : String.substring 0 (String.length s) s = s.
Proof. induction s as [|a s IH]; [reflexivity|]. cbn. by rewrite IH. Qed.

(** A listed name that does not hold ".sh" comes from the file of that
    name. *)
Lemma listed_file (f : string) :
  endsWith f ".sh" = true -> includes ".sh" (remove_first ".sh" f) = false ->
  f = remove_first ".sh" f +:+ ".sh".
Proof.
  induction f as [|a f IH]; [discriminate|].
  intros Hends Hinc. cbn [remove_first] in Hinc |- *.
  destruct (String.prefix ".sh" (String a f)) eqn:Hpre.
  - (* the file starts with ".sh" *)
    cbn [String.prefix] in Hpre.
    destruct (ascii_dec "." a) as [<-|]; [|discriminate].
    destruct f as [|b f]; cbn [String.prefix] in Hpre; [discriminate|].
    destruct (ascii_dec "s" b) as [<-|]; [|discriminate].
    destruct f as [|c f]; cbn [String.prefix] in Hpre; [discriminate|].
    destruct (ascii_dec "h" c) as [<-|]; [|discriminate].
    cbn [String.length String.substring Nat.sub] in Hinc |- *.
    rewrite Nat.sub_0_r, substring_all in Hinc |- *.
    destruct f as [|d f]; [reflexivity|]. exfalso.
    assert (endsWith (String d f) ".sh" = true) as Hrest.
    { revert Hends. cbn [endsWith String.eqb Ascii.eqb Bool.eqb]. cbn.
      by repeat case_match. }
    apply endsWith_includes in Hrest. congruence.
  - cbn [includes] in Hinc.
    destruct (String.prefix ".sh" (String a (remove_first ".sh" f))); [discriminate|].
    rewrite app_cons. f_equal. apply IH; [|done].
    revert Hends. cbn [endsWith].
    destruct (String.eqb_spec (String a f) ".sh") as [Heq|_]; [|done].
    rewrite Heq in Hpre. discriminate.
Qed.

(** X6.  [getWorkspaces] returns without changing anything, and a name that
    does not hold ".sh" is in its list exactly when the script of that name
    is in the script directory; the list is empty when the directory is
    missing. *)
Theorem getWorkspaces_lists_scripts (w : World) (n : string) :
  includes ".sh" n = false ->
  exists names,
    getWorkspaces w = (Return names, w)
    /\ (n ∈ names <-> present (disk w) (File SCRIPT_DIR (n +:+ ".sh")) = true)
    /\ match scripts (disk w) with Some _ => True | None => names = [] end.
Proof.
  intros Hinc. exists (workspaces_of (disk w)). split; [apply getWorkspaces_eq|]. split.
  - split; [|intros H; by apply workspace_listed].
    unfold workspaces_of. cbn. destruct (scripts (disk w)) as [m|]; [|by intros ?%elem_of_nil].
    intros (f & -> & Hf)%list_elem_of_fmap. apply list_elem_of_filter in Hf as [Hends Hf].
    apply Is_true_true in Hends.
    rewrite <- (listed_file f Hends Hinc).
    apply list_elem_of_fmap in Hf as ([f' content] & -> & Hf). apply elem_of_map_to_list in Hf.
    apply bool_decide_eq_true_2. eauto.
  - unfold workspaces_of. by destruct (scripts (disk w)).
Qed.

Lemma getWorkspaces_lists_scripts_witness :
  exists names,
    getWorkspaces (start solo_disk []) = (Return names, start solo_disk [])
    /\ ("solo" ∈ names <-> present solo_disk (File SCRIPT_DIR ("solo" +:+ ".sh")) = true)
    /\ True.
Proof. apply (getWorkspaces_lists_scripts (start solo_disk []) "solo"). reflexivity. Defined.

(** X7.  Saving the descriptor of a file name leaves the descriptors of the
    other file names, the scripts, the console and the children as they
    were. *)
Theorem saveConfig_other_names {json : JSON} (n m : string) (c : Config) (w : World) :
  file_name n = true -> file_name m = true -> n <> m ->
  let w' := (saveConfig n c w).2 in
  (loadConfig m w').1 = (loadConfig m w).1
  /\ scripts (disk w') = scripts (disk w)
  /\ console w' = console w /\ spawned w' = spawned w.
Proof.
  intros _ _ Hne. cbn zeta. rewrite saveConfig_eq, !loadConfig_eq.
  destruct (configs (disk w)) as [mc|] eqn:Hmc; [|done].
  cbn. repeat split. f_equal. unfold stored_config. cbn. rewrite Hmc.
  rewrite lookup_insert_ne; [done|]. intros H%app_inj_r. done.
Qed.

Lemma saveConfig_other_names_witness :
  (@loadConfig JsonText.text "dev"
     (@saveConfig JsonText.text "web" two_panes (start (@existing_dev JsonText.text) [])).2).1
  = (@loadConfig JsonText.text "dev" (start (@existing_dev JsonText.text) [])).1
  /\ scripts (disk (@saveConfig JsonText.text "web" two_panes (start (@existing_dev JsonText.text) [])).2)
     = scripts (@existing_dev JsonText.text)
  /\ console (@saveConfig JsonText.text "web" two_panes (start (@existing_dev JsonText.text) [])).2 = []
  /\ spawned (@saveConfig JsonText.text "web" two_panes (start (@existing_dev JsonText.text) [])).2 = [].
Proof.
  apply (@saveConfig_other_names JsonText.text "web" "dev" two_panes
           (start (@existing_dev JsonText.text) [])).
  - reflexivity.
  - reflexivity.
  - discriminate.
Defined.

(** Without the descriptor directory nothing is saved: the write of
    .gitkeep that should make up for it fails for the same reason. *)
Lemma save_without_directory_witness :
  @saveConfig JsonText.text "dev" dev_layout (start {| scripts := Some ∅; configs := None |} [])
  = (Throw (ENOENT (File CONFIG_DIR ".gitkeep")), start {| scripts := Some ∅; configs := None |} []).
Proof.
  apply (@save_without_directory JsonText.text "dev" dev_layout
           (start {| scripts := Some ∅; configs := None |} [])).
  reflexivity.
Defined.

(* ===================================================================== *)
(** * What [create] and [edit] store *)
(* ===================================================================== *)

(** What holds of the state and the world at the start of every turn of a
    loop holds at the start of the turn in which the loop is left. *)
Lemma loop_invariant_world {St R : Type} (I : St -> World -> Prop) (body : St -> Proc (St + R)) :
  (forall s w s' w', I s w -> body s w = (Return (inl s'), w') -> I s' w') ->
  forall fuel s w r w',
    I s w -> loop fuel body s w = (Return r, w') ->
    exists s1 w1, I s1 w1 /\ body s1 w1 = (Return (inr r), w').
Proof.
  intros Hstep. induction fuel as [|fuel IH]; intros s w r w' Hs Hrun; [discriminate|].
  cbn [loop] in Hrun. apply bind_return in Hrun as ([s'|r'] & w1 & Hbody & Hrun).
  - eapply IH; [|exact Hrun]. eapply Hstep; eauto.
  - injection Hrun as <- <-. eauto.
Qed.

Lemma keeps_create_turn {X : Type} (f : World -> X) (c : Config) :
  prompt_free f -> (forall msg w, f (printed msg w) = f w) -> keeps f (create_turn c).
Proof.
  intros Hf Hsay. unfold create_turn, create_edit_pane, new_pane.
  unfold prompt_list, prompt_input, prompt_confirm, prompt_number.
  repeat first
    [ apply keeps_ret | apply keeps_throw
    | apply keeps_ask; exact Hf
    | apply keeps_say; intros ?; apply Hsay
    | apply keeps_bind; [|intros ?]
    | apply keeps_while; intros ?
    | match goal with
      | |- keeps _ (match ?x with _ => _ end) => destruct x
      end ].
Qed.

Lemma create_offered (c : Config) (n : nat) :
  create_choices c !! n = Some C_create -> name c <> "".
Proof.
  intros H%list_elem_of_lookup_2. unfold create_choices in H.
  destruct (truthy (Some (name c))) eqn:Hname.
  { cbn in Hname. apply negb_true_iff in Hname. by apply String.eqb_neq. }
  exfalso. rewrite !elem_of_app in H. destruct H as [H|[H|[H|[H|[H|H]]]]].
  - rewrite !elem_of_cons in H. destruct H as [H|[H|[H|H]]]; try discriminate.
    by apply elem_of_nil in H.
  - apply list_elem_of_lookup in H as [k H]. rewrite list_lookup_imap in H.
    destruct (drop 1 (panes c) !! k); discriminate.
  - apply list_elem_of_singleton in H. discriminate.
  - destruct (decide (1 < length (panes c))); [apply list_elem_of_singleton in H; discriminate|].
    by apply elem_of_nil in H.
  - by apply elem_of_nil in H.
  - apply list_elem_of_singleton in H. discriminate.
Qed.

(** How the menu of [create] is left. *)
Lemma create_turn_leaves (c : Config) (w w' : World) (r : option Config) :
  create_turn c w = (Return (inr r), w') ->
  match r with
  | Some c' => c' = c /\ name c <> "" /\ console w' = console w
  | None => console w' = console w ++ [Cancelled]
  end.
Proof.
  unfold create_turn. intros H. destruct (panes c) as [|p0 rest] eqn:Hpanes; [discriminate|].
  rewrite <- Hpanes in H. clear p0 rest Hpanes. proc_inv.
  apply answered_disk in Hasked as [_ Hconsole].
  destruct a; proc_cases; simplify_eq.
  - split; [done|]. split; [by eapply create_offered|done].
  - cbn. by rewrite Hconsole.
Qed.

Lemma create_turn_goes_on (c c' : Config) (w w' : World) :
  create_turn c w = (Return (inl c'), w') -> console w' = console w.
Proof.
  unfold create_turn. intros H. destruct (panes c) as [|p0 rest] eqn:Hpanes; [discriminate|].
  rewrite <- Hpanes in H. clear p0 rest Hpanes. proc_inv.
  apply answered_disk in Hasked as [_ Hconsole]. rewrite <- Hconsole.
  destruct a;
    try (match goal with
         | H : ?m ?w0 = (Return _, _) |- _ =>
             apply (keeps_run console m w0 _ (Return (inl c')));
             [unfold create_edit_pane, new_pane; keeps_all | exact H]
         end).
  exfalso. proc_cases. discriminate.
Qed.

(** A run of [create] that returns: how the menu was left, and what was
    done after it. *)
Lemma create_run {json : JSON} (cwd : string) (w w' : World) :
  create_action cwd w = (Return tt, w') ->
  exists r w1,
    while create_turn (initial_config cwd) w = (Return r, w1)
    /\ answers w' = answers w1
    /\ match r with
       | None => console w' = console w ++ [Cancelled] /\ disk w' = disk w /\ spawned w' = spawned w
       | Some c =>
           exists ms mc,
             name c <> "" /\ root_ok c
             /\ scripts (disk w) = Some ms /\ configs (disk w) = Some mc
             /\ disk w' = {| scripts := Some (<[name c +:+ ".sh" := generateScript c]> ms);
                             configs := Some (<[name c +:+ ".json" := JSON_stringify c]> mc) |}
             /\ console w' = console w ++ [Created (name c)]
             /\ spawned w' = spawned w ++ [Chmod (File SCRIPT_DIR (name c +:+ ".sh"))]
       end.
Proof.
  unfold create_action. intros H. apply bind_return in H as (r & w1 & Hloop & Htail).
  exists r, w1. split; [done|].
  assert (disk w1 = disk w) as Hdisk.
  { apply (keeps_run disk _ _ _ _ (keeps_while disk create_turn _
             (fun c => keeps_create_turn disk c prompt_free_disk (fun _ _ => eq_refl))) Hloop). }
  assert (spawned w1 = spawned w) as Hspawned.
  { apply (keeps_run spawned _ _ _ _ (keeps_while spawned create_turn _
             (fun c => keeps_create_turn spawned c prompt_free_spawned (fun _ _ => eq_refl))) Hloop). }
  unfold while in Hloop.
  apply (loop_invariant_world (fun c w0 => root_ok c /\ console w0 = console w)) in Hloop
    as (c1 & w2 & [Hroot Hconsole] & Hlast).
  2:{ intros s w0 s' w0' [Hs Hc] Hturn. split.
      - eapply same_root_ok; [|done]. by eapply create_turn_same_root.
      - apply create_turn_goes_on in Hturn. congruence. }
  2:{ split; [apply initial_config_root_ok | done]. }
  apply create_turn_leaves in Hlast. destruct r as [c|].
  - destruct Hlast as (-> & Hname & Hc1).
    unfold path_join in Htail. apply bind_return in Htail as ([] & w3 & Hwrite & Htail).
    rewrite writeFile_eq in Hwrite. cbn [folder] in Hwrite. rewrite Hdisk in Hwrite.
    destruct (scripts (disk w)) as [ms|] eqn:Hms; [|discriminate]. injection Hwrite as <-.
    rewrite bind_eq_return with (a := tt) (w1 := with_child (Chmod (File SCRIPT_DIR (name c1 +:+ ".sh")))
                                                    (with_disk (set_folder (disk w) SCRIPT_DIR
                                                       (<[name c1 +:+ ".sh" := generateScript c1]> ms)) w1))
      in Htail by done.
    apply bind_return in Htail as ([] & w4 & Hsave & Htail).
    rewrite saveConfig_eq in Hsave. cbn in Hsave.
    destruct (configs (disk w)) as [mc|] eqn:Hmc; [|discriminate]. injection Hsave as <-.
    cbn in Htail. injection Htail as <-.
    split; [done|]. exists ms, mc. cbn. rewrite Hc1, Hconsole, Hspawned. done.
  - cbn in Htail. injection Htail as <-. rewrite Hlast, Hconsole. done.
Qed.

(** X12.  A run of [create] that returns either was cancelled, and then no file
    was written and no child started, or it stored a layout under its
    name: the name is not empty, pane 0 has no split, the script file of
    the name holds the compiled layout, the descriptor file of the name
    holds the layout, and chmod was started on the script. *)
Theorem create_outcomes {json : JSON} (cwd : string) (w w' : World) :
  create_action cwd w = (Return tt, w') ->
  (console w' = console w ++ [Cancelled] /\ disk w' = disk w /\ spawned w' = spawned w)
  \/ exists c ms mc,
       name c <> "" /\ root_ok c
       /\ scripts (disk w) = Some ms /\ configs (disk w) = Some mc
       /\ disk w' = {| scripts := Some (<[name c +:+ ".sh" := generateScript c]> ms);
                       configs := Some (<[name c +:+ ".json" := JSON_stringify c]> mc) |}
       /\ console w' = console w ++ [Created (name c)]
       /\ spawned w' = spawned w ++ [Chmod (File SCRIPT_DIR (name c +:+ ".sh"))].
Proof.
  intros ([c|] & w1 & _ & _ & Hend)%create_run.
  - right. destruct Hend as (ms & mc & Hend). by exists c, ms, mc.
  - by left.
Qed.

(** The layout of one pane that [create] stores when the user sets the
    name dev and then creates the workspace. *)
Lemma create_outcomes_witness :
  exists c ms mc,
    name c <> "" /\ root_ok c
    /\ scripts empty_disk = Some ms /\ configs empty_disk = Some mc
    /\ disk (@create_action JsonText.text "/home/u" (start empty_disk [Pick 0; Text "dev"; Pick 4])).2
       = {| scripts := Some (<[name c +:+ ".sh" := generateScript c]> ms);
            configs := Some (<[name c +:+ ".json" := @JSON_stringify JsonText.text c]> mc) |}
    /\ console (@create_action JsonText.text "/home/u" (start empty_disk [Pick 0; Text "dev"; Pick 4])).2
       = [] ++ [Created (name c)]
    /\ spawned (@create_action JsonText.text "/home/u" (start empty_disk [Pick 0; Text "dev"; Pick 4])).2
       = [] ++ [Chmod (File SCRIPT_DIR (name c +:+ ".sh"))].
Proof.
  destruct (@create_outcomes JsonText.text "/home/u" (start empty_disk [Pick 0; Text "dev"; Pick 4])
              (@create_action JsonText.text "/home/u" (start empty_disk [Pick 0; Text "dev"; Pick 4])).2)
    as [(Hcancelled & _) | Hstored].
  - vm_compute. reflexivity.
  - exfalso. revert Hcancelled. vm_compute. discriminate.
  - exact Hstored.
Defined.

Lemma edit_edit_pane_name (i : nat) (c c' : Config) (w w' : World) :
  edit_edit_pane i c w = (Return (inl c'), w') -> name c' = name c.
Proof. unfold edit_edit_pane. intros H. proc_cases; by simplify_eq. Qed.

(** One turn of the menu of [edit] after which the menu is shown again
    writes no file and keeps the name of the layout. *)
Lemma edit_turn_goes_on {json : JSON} (workspace : string) (c c' : Config) (w w' : World) :
  edit_turn workspace c w = (Return (inl c'), w') -> disk w' = disk w /\ name c' = name c.
Proof.
  unfold edit_turn. intros H. proc_inv.
  apply answered_disk in Hasked as [Hdisk _]. rewrite <- Hdisk. clear Hdisk.
  destruct a.
  - split; [keeps_from H disk|]. proc_cases; by simplify_eq.
  - split; [keeps_from H disk|]. proc_inv. destruct a; proc_inv; done.
  - split; [keeps_from H disk|].
    proc_inv. destruct a as [i|]; proc_inv; [|done].
    destruct (panes c !! i); [|discriminate]. proc_inv.
    match goal with
    | Hw : while _ _ _ = (Return _, _) |- _ =>
        unfold while in Hw;
        apply (loop_invariant (fun c1 => name c1 = name c)) in Hw as (cl & wl & Hcl & Hlast)
    end.
    + proc_cases; by simplify_eq.
    + intros s wa s' wb Hs Hbody. proc_inv.
      match goal with
      | Hp : edit_edit_pane _ _ _ = (Return ?x, _) |- _ =>
          destruct x as [s1|[]]; simplify_eq; apply edit_edit_pane_name in Hp
      end.
      congruence.
    + done.
  - split; [keeps_from H disk|]. proc_cases; by simplify_eq.
  - exfalso. proc_cases; discriminate.
  - exfalso. proc_cases; discriminate.
  - split; [keeps_from H disk|]. proc_cases; by simplify_eq.
Qed.

(** How the menu of [edit] is left: without a write, or by saving. *)
Lemma edit_turn_leaves {json : JSON} (workspace : string) (c : Config) (w w' : World) :
  edit_turn workspace c w = (Return (inr tt), w') ->
  disk w' = disk w
  \/ exists ms mc,
       scripts (disk w) = Some ms /\ configs (disk w) = Some mc
       /\ disk w' = {| scripts := Some (<[workspace +:+ ".sh" := generateScript c]> ms);
                       configs := Some (<[workspace +:+ ".json" := JSON_stringify c]> mc) |}
       /\ console w' = console w ++ [Updated workspace].
Proof.
  unfold edit_turn. intros H. proc_inv.
  apply answered_disk in Hasked as [Hdisk Hconsole]. rewrite <- Hdisk, <- Hconsole.
  destruct a; try (left; keeps_from H disk).
  right. unfold path_join in H. apply bind_return in H as ([] & w1 & Hwrite & H).
  rewrite writeFile_eq in Hwrite. cbn [folder] in Hwrite.
  destruct (scripts (disk w0)) as [ms|] eqn:Hms; [|discriminate]. injection Hwrite as <-.
  apply bind_return in H as ([] & w2 & Hsave & H).
  rewrite saveConfig_eq in Hsave. cbn in Hsave.
  destruct (configs (disk w0)) as [mc|] eqn:Hmc; [|discriminate]. injection Hsave as <-.
  cbn in H. injection H as <-. by exists ms, mc.
Qed.

(** X15.  A run of [edit] that returns started from a descriptor that loads, and
    either wrote no file or saved: the script file and the descriptor file
    of the workspace then hold the compiled layout and the layout, the
    name in the layout is the one that was loaded, and the last line
    printed tells the update. *)
Theorem edit_outcomes {json : JSON} (workspace : string) (w w' : World) :
  edit_action workspace w = (Return tt, w') ->
  exists c0,
    (loadConfig workspace w).1 = Return (Some c0)
    /\ (disk w' = disk w
        \/ exists c ms mc,
             name c = name c0
             /\ scripts (disk w) = Some ms /\ configs (disk w) = Some mc
             /\ disk w' = {| scripts := Some (<[workspace +:+ ".sh" := generateScript c]> ms);
                             configs := Some (<[workspace +:+ ".json" := JSON_stringify c]> mc) |}
             /\ last (console w') = Some (Updated workspace)).
Proof.
  unfold edit_action. intros H.
  rewrite (bind_eq_return _ _ _ _ _ (loadConfig_eq workspace w)) in H. rewrite loadConfig_eq.
  destruct (stored_config (disk w) workspace) as [c0|]; [|discriminate].
  exists c0. split; [done|]. unfold while in H.
  apply (loop_invariant_world (fun c w0 => name c = name c0 /\ disk w0 = disk w)) in H
    as (c1 & w1 & [Hname Hdisk] & Hlast).
  2:{ intros s w0 s' w0' [Hs Hd] Hturn. apply edit_turn_goes_on in Hturn as [? ?].
      split; congruence. }
  2:{ done. }
  apply edit_turn_leaves in Hlast as [Hsame | (ms & mc & Hms & Hmc & Hnew & Hconsole)].
  - left. congruence.
  - right. exists c1, ms, mc. rewrite Hdisk in Hms, Hmc.
    repeat split; try done. rewrite Hconsole. apply last_snoc.
Qed.

(** On a disk that holds the workspace dev: the base directory is
    changed, and the workspace is saved. *)
Lemma edit_outcomes_witness :
  exists c0,
    (@loadConfig JsonText.text "dev" (start (@existing_dev JsonText.text) [Pick 0; Text "/srv"; Pick 5])).1
    = Return (Some c0)
    /\ (disk (@edit_action JsonText.text "dev"
                (start (@existing_dev JsonText.text) [Pick 0; Text "/srv"; Pick 5])).2
        = @existing_dev JsonText.text
        \/ exists c ms mc,
             name c = name c0
             /\ scripts (@existing_dev JsonText.text) = Some ms
             /\ configs (@existing_dev JsonText.text) = Some mc
             /\ disk (@edit_action JsonText.text "dev"
                        (start (@existing_dev JsonText.text) [Pick 0; Text "/srv"; Pick 5])).2
                = {| scripts := Some (<["dev" +:+ ".sh" := generateScript c]> ms);
                     configs := Some (<["dev" +:+ ".json" := @JSON_stringify JsonText.text c]> mc) |}
             /\ last (console (@edit_action JsonText.text "dev"
                                 (start (@existing_dev JsonText.text) [Pick 0; Text "/srv"; Pick 5])).2)
                = Some (Updated "dev")).
Proof.
  apply (@edit_outcomes JsonText.text "dev"
           (start (@existing_dev JsonText.text) [Pick 0; Text "/srv"; Pick 5])).
  vm_compute. reflexivity.
Defined.

(* ===================================================================== *)
(** * What [rename] and [delete] store *)
(* ===================================================================== *)

(** The part of [rename] inside [try], on a disk that holds the script and
    the descriptor of [workspace]. *)
Lemma rename_block {json : JSON} (workspace newname : string) (config : Config) (w : World)
    (ms mc : gmap string string) (content json0 : string) :
  scripts (disk w) = Some ms -> configs (disk w) = Some mc ->
  ms !! (workspace +:+ ".sh") = Some content ->
  mc !! (workspace +:+ ".json") = Some json0 ->
  (rename_file SCRIPT_DIR (workspace +:+ ".sh") (newname +:+ ".sh") ;;;
   try_catch (rename_file CONFIG_DIR (workspace +:+ ".json") (newname +:+ ".json"))
             (fun _ => ret tt) ;;;
   writeFile (path_join SCRIPT_DIR (newname +:+ ".sh")) (generateScript (set_name newname config)) ;;;
   saveConfig newname (set_name newname config) ;;;
   say Renamed) w
  = (Return tt,
     printed Renamed
       (with_disk {| scripts := Some (<[newname +:+ ".sh" := generateScript (set_name newname config)]>
                                        (delete (workspace +:+ ".sh") ms));
                     configs := Some (<[newname +:+ ".json" := JSON_stringify (set_name newname config)]>
                                        (delete (workspace +:+ ".json") mc)) |} w)).
Proof.
  intros Hms Hmc Hold Hjson0.
  unfold bind. rewrite rename_file_eq. cbn [folder]. rewrite Hms, Hold.
  unfold try_catch. rewrite rename_file_eq. cbn. rewrite Hmc, Hjson0.
  unfold path_join. rewrite writeFile_eq. cbn.
  rewrite saveConfig_eq. cbn. by rewrite !insert_insert_eq.
Qed.

(** X18.  [rename old new], both file names, where every descriptor is a
    layout: the command ends normally, waits for the confirmation or exits
    with 1; it never throws.  It is all or nothing on the stored files:
    whatever the answer, it leaves the disk as it was, or it ends normally
    after it moved the script and the descriptor of [old] to [new], the
    script compiled again from the loaded layout with the new name
    (whatever the old script held), the descriptor holding that layout; no
    other file changes, and no script named [new] existed before. *)
Theorem rename_all_or_nothing {json : JSON} (old new : string) (w : World) :
  file_name old = true -> file_name new = true -> old <> "" -> new <> "" ->
  layouts_only (disk w) ->
  let r := (rename_action (Some old) (Some new) w).1 in
  let w' := (rename_action (Some old) (Some new) w).2 in
  (r = Return tt \/ r = Pending \/ r = Exit 1)
  /\ (disk w' = disk w
      \/ exists c ms mc content,
           r = Return tt
           /\ (loadConfig old w).1 = Return (Some c)
           /\ scripts (disk w) = Some ms /\ configs (disk w) = Some mc
           /\ ms !! (old +:+ ".sh") = Some content /\ ms !! (new +:+ ".sh") = None
           /\ disk w' = {| scripts := Some (<[new +:+ ".sh" := generateScript (set_name new c)]>
                                              (delete (old +:+ ".sh") ms));
                           configs := Some (<[new +:+ ".json" := JSON_stringify (set_name new c)]>
                                              (delete (old +:+ ".json") mc)) |}
           /\ last (console w') = Some Renamed).
Proof.
  intros _ _ Hold Hnew _.
  cbn zeta. destruct (rename_action (Some old) (Some new) w) as [r w'] eqn:Hrun. cbn [fst snd].
  unfold rename_action in Hrun.
  rewrite (bind_eq_return _ _ _ _ _ (getWorkspaces_eq w)) in Hrun.
  destruct (decide (length (workspaces_of (disk w)) = 0)) as [|_].
  { cbn in Hrun. simplify_eq. split; [by left | by left]. }
  assert (forall x, x <> "" -> truthy (Some x) = true) as Htruthy.
  { intros x Hx. cbn. apply negb_true_iff. by apply String.eqb_neq. }
  rewrite !Htruthy in Hrun by done. rewrite bind_ret in Hrun. cbn [default] in Hrun.
  rewrite (bind_eq_return _ _ _ _ _ (loadConfig_eq old w)) in Hrun.
  destruct (stored_config (disk w) old) as [c0|] eqn:Hc0.
  2:{ cbn in Hrun. simplify_eq. split; [right; by right | by left]. }
  rewrite bind_ret in Hrun.
  rewrite (bind_eq_return _ _ _ _ _ (existsSync_eq _ w)) in Hrun. unfold id in Hrun.
  destruct (present (disk w) (path_join SCRIPT_DIR (new +:+ ".sh"))) eqn:Hthere.
  { cbn in Hrun. simplify_eq. split; [right; by right | by left]. }
  rewrite bind_ret, bind_say in Hrun.
  (* the confirmation *)
  unfold bind in Hrun at 1.
  destruct (asks_only_ask "Confirm rename?" (fun a => match a with YesNo b => Some b | _ => None end)
              (printed (RenamePlan old new) w)) as [(yes & w3 & Hyes & Hd3 & Hc3) | Hyes];
    unfold prompt_confirm in Hrun; rewrite Hyes in Hrun; clear Hyes.
  2:{ simplify_eq. split; [right; by left | by left]. }
  cbn in Hd3, Hc3.
  destruct yes; cbn [negb] in Hrun.
  2:{ cbn in Hrun. simplify_eq. split; [by left | by left]. }
  (* the files *)
  apply present_file_false in Hthere. cbn in Hthere.
  rewrite try_catch_eq in Hrun.
  destruct (scripts (disk w)) as [ms|] eqn:Hms.
  2:{ unfold bind in Hrun at 1. rewrite rename_file_eq in Hrun. cbn in Hrun.
      rewrite Hd3, Hms in Hrun. cbn in Hrun. simplify_eq. split; [by left | by left]. }
  destruct (ms !! (old +:+ ".sh")) as [content|] eqn:Hscript.
  2:{ unfold bind in Hrun at 1. rewrite rename_file_eq in Hrun. cbn in Hrun.
      rewrite Hd3, Hms, Hscript in Hrun. cbn in Hrun. simplify_eq. split; [by left | by left]. }
  pose proof Hc0 as Hstored. unfold stored_config in Hc0.
  destruct (configs (disk w)) as [mc|] eqn:Hmc; [|discriminate].
  destruct (mc !! (old +:+ ".json")) as [json0|] eqn:Hjson0; [|discriminate].
  rewrite (rename_block old new c0 w3 ms mc content json0) in Hrun
    by (rewrite ?Hd3; done).
  injection Hrun as <- <-. split; [by left|]. right.
  exists c0, ms, mc, content. rewrite loadConfig_eq. cbn.
  repeat split; try done.
  - by rewrite Hstored.
  - apply last_snoc.
Qed.

(** [rename dev work] on the disk that holds dev, confirmed: the files are
    moved. *)
Lemma rename_all_or_nothing_witness :
  let w := start (@existing_dev JsonText.text) [YesNo true] in
  let r := (@rename_action JsonText.text (Some "dev") (Some "work") w).1 in
  let w' := (@rename_action JsonText.text (Some "dev") (Some "work") w).2 in
  (r = Return tt \/ r = Pending \/ r = Exit 1)
  /\ (disk w' = disk w
      \/ exists c ms mc content,
           r = Return tt
           /\ (@loadConfig JsonText.text "dev" w).1 = Return (Some c)
           /\ scripts (disk w) = Some ms /\ configs (disk w) = Some mc
           /\ ms !! ("dev" +:+ ".sh") = Some content /\ ms !! ("work" +:+ ".sh") = None
           /\ disk w' = {| scripts := Some (<["work" +:+ ".sh" := generateScript (set_name "work" c)]>
                                              (delete ("dev" +:+ ".sh") ms));
                           configs := Some (<["work" +:+ ".json"
                                               := @JSON_stringify JsonText.text (set_name "work" c)]>
                                              (delete ("dev" +:+ ".json") mc)) |}
           /\ last (console w') = Some Renamed).
Proof.
  apply (@rename_all_or_nothing JsonText.text "dev" "work"
           (start (@existing_dev JsonText.text) [YesNo true]));
    [reflexivity | reflexivity | discriminate | discriminate |].
  intros mc name content Hmc Hfile. injection Hmc as <-.
  apply lookup_singleton_Some in Hfile as [_ <-]. vm_compute. eauto.
Defined.



(** X20.  [delete] on a workspace whose script exists: after a yes, the script
    and the descriptor of that name are gone (a descriptor that is missing
    is no error), no other file changes, the deletion is printed, and
    [load] of the name then reports that it was not found; after a no,
    nothing changes but the line that tells the cancellation; without an
    answer the command waits. *)
Theorem delete_existing_workspace (workspace : string) (ms : gmap string string) (w : World) :
  scripts (disk w) = Some ms -> is_Some (ms !! (workspace +:+ ".sh")) ->
  let r := (delete_action workspace w).1 in
  let w' := (delete_action workspace w).2 in
  match answers w with
  | YesNo true :: _ =>
      r = Return tt
      /\ scripts (disk w') = Some (delete (workspace +:+ ".sh") ms)
      /\ configs (disk w') = delete (workspace +:+ ".json") <$> configs (disk w)
      /\ console w' = console w ++ [Deleted workspace]
      /\ load_action workspace w' = (Exit 1, printed (NotFound workspace) w')
  | YesNo false :: _ =>
      r = Return tt /\ disk w' = disk w /\ console w' = console w ++ [Cancelled]
  | _ => r = Pending /\ w' = w
  end.
Proof.
  intros Hms [content Hfile]. cbn zeta.
  destruct (delete_action workspace w) as [r w'] eqn:Hrun. cbn [fst snd].
  unfold delete_action, prompt_confirm, ask, bind in Hrun.
  destruct (answers w) as [|[n|s|[|]|z|code] rest]; try (cbn in Hrun; by simplify_eq).
  cbn in Hrun. revert Hrun. unfold try_catch, bind, path_join. rewrite unlink_eq. cbn.
  rewrite Hms, Hfile. rewrite unlink_eq. cbn.
  assert (forall w0, scripts (disk w0) = Some (delete (workspace +:+ ".sh") ms) ->
            load_action workspace w0 = (Exit 1, printed (NotFound workspace) w0)) as Hload.
  { intros w0 Hw0. unfold load_action, path_join.
    rewrite (bind_eq_return _ _ _ _ _ (existsSync_eq _ w0)). cbn. rewrite Hw0.
    rewrite bool_decide_eq_false_2; [done|]. rewrite lookup_delete_eq. by intros [? ?]. }
  destruct (configs (disk w)) as [mc|] eqn:Hmc.
  - destruct (mc !! (workspace +:+ ".json")) eqn:Hjson; cbn; intros [= <- <-]; cbn.
    + repeat split. by apply Hload.
    + rewrite (delete_id mc) by done. repeat split. by apply Hload.
  - cbn. intros [= <- <-]. cbn. repeat split. by apply Hload.
Qed.

Lemma delete_existing_workspace_witness :
  (delete_action "dev" (start (@existing_dev JsonText.text) [YesNo true])).1 = Return tt
  /\ scripts (disk (delete_action "dev" (start (@existing_dev JsonText.text) [YesNo true])).2)
     = Some (delete ("dev" +:+ ".sh") {["dev.sh" := generateScript dev_layout]})
  /\ configs (disk (delete_action "dev" (start (@existing_dev JsonText.text) [YesNo true])).2)
     = delete ("dev" +:+ ".json") <$> configs (@existing_dev JsonText.text)
  /\ console (delete_action "dev" (start (@existing_dev JsonText.text) [YesNo true])).2
     = [] ++ [Deleted "dev"]
  /\ load_action "dev" (delete_action "dev" (start (@existing_dev JsonText.text) [YesNo true])).2
     = (Exit 1, printed (NotFound "dev")
                  (delete_action "dev" (start (@existing_dev JsonText.text) [YesNo true])).2).
Proof.
  apply (delete_existing_workspace "dev" {["dev.sh" := generateScript dev_layout]}
           (start (@existing_dev JsonText.text) [YesNo true])).
  - reflexivity.
  - vm_compute. eauto.
Defined.

(* ===================================================================== *)
(** * The layouts the menus build *)
(* ===================================================================== *)

Lemma split_choices_in (n : nat) (s : string) :
  split_choices !! n = Some (Some s) -> s = "horizontal" \/ s = "vertical".
Proof. destruct n as [|[|[|n]]]; cbn; intros [=]; eauto. Qed.

Lemma size_choices_in (n : nat) (t : string) :
  size_choices !! n = Some (Some t) -> t = "width" \/ t = "height".
Proof. destruct n as [|[|[|n]]]; cbn; intros [=]; eauto. Qed.

Lemma resize_by_in (n : nat) (t : string) :
  [By "width"; By "height"; By_disable; By_cancel] !! n = Some (By t) ->
  t = "width" \/ t = "height".
Proof. destruct n as [|[|[|[|n]]]]; cbn; intros [=]; eauto. Qed.

Lemma or_null_not_empty (x : string) : or_null x <> Some "".
Proof.
  unfold or_null. destruct (String.eqb_spec x "") as [->|Hx]; [done|]. by intros [= ->].
Qed.

Lemma menu_layout_panes (c c' : Config) : panes c' = panes c -> menu_layout c -> menu_layout c'.
Proof. intros Hp (p0 & rest & Hc & H). exists p0, rest. by rewrite Hp. Qed.

Lemma menu_layout_update (f : Pane -> Pane) (i : nat) (c : Config) :
  menu_layout c ->
  (i = 0 -> forall p, menu_root p -> menu_root (f p)) ->
  (i <> 0 -> forall p, menu_pane p -> menu_pane (f p)) ->
  menu_layout (update_pane f i c).
Proof.
  intros (p0 & rest & Hc & Hroot & Hrest) Hf0 Hf. unfold menu_layout, update_pane. cbn.
  rewrite Hc. destruct i as [|i]; cbn.
  - exists (f p0), rest. split; [done|]. split; [by apply Hf0|done].
  - exists p0, (alter f i rest). split; [done|]. split; [done|].
    apply Forall_alter; [done|]. intros p _ Hp. by apply Hf.
Qed.

(** The choices that were picked, as facts about the values. *)
Ltac menu_facts :=
  repeat match goal with
  | H : split_choices !! _ = Some (Some _) |- _ => apply split_choices_in in H as [-> | ->]
  | H : size_choices !! _ = Some (Some _) |- _ => apply size_choices_in in H as [-> | ->]
  | H : [By "width"; By "height"; By_disable; By_cancel] !! _ = Some (By _) |- _ =>
      apply resize_by_in in H as [-> | ->]
  end.

Ltac menu_fields :=
  let Hs := fresh "Hs" in let Hd := fresh "Hd" in let Hr := fresh "Hr" in
  intros ? ? (Hs & Hd & Hr); try done;
  repeat split; cbn; eauto using or_null_not_empty.

Ltac menu_solve :=
  first [ assumption | apply menu_layout_update; [assumption | menu_fields | menu_fields] ].

Lemma create_edit_pane_menu (i : nat) (c c' : Config) (w w' : World) :
  create_edit_pane i c w = (Return (inl c'), w') -> menu_layout c -> menu_layout c'.
Proof.
  unfold create_edit_pane. intros H Hc. proc_inv.
  destruct (decide (i = 0)) as [->|Hi].
  - apply fieldChoices_root in Hchoice as [-> | [-> | ->]]; proc_cases; simplify_eq;
      menu_facts; menu_solve.
  - proc_cases; simplify_eq; menu_facts; menu_solve.
Qed.

Lemma edit_edit_pane_menu (i : nat) (c c' : Config) (w w' : World) :
  edit_edit_pane i c w = (Return (inl c'), w') -> menu_layout c -> menu_layout c'.
Proof.
  unfold edit_edit_pane. intros H Hc. proc_inv.
  destruct (decide (i = 0)) as [->|Hi].
  - apply fieldChoices_root in Hchoice as [-> | [-> | ->]]; proc_cases; simplify_eq;
      menu_facts; menu_solve.
  - proc_cases; simplify_eq; menu_facts; menu_solve.
Qed.

Lemma new_pane_menu (s q1 q2 q3 q4 q5 : string) (w w' : World) (pane : Pane) :
  s = "horizontal" \/ s = "vertical" ->
  new_pane s q1 q2 q3 q4 q5 w = (Return pane, w') -> menu_pane pane.
Proof.
  unfold new_pane. intros [-> | ->] H; proc_cases; simplify_eq; menu_facts;
    repeat split; cbn; eauto using or_null_not_empty.
Qed.

Lemma pane_loop_menu (step : Config -> Proc (Config + unit)) (c c' : Config) (w w' : World) :
  (forall c1 c2 w1 w2, step c1 w1 = (Return (inl c2), w2) -> menu_layout c1 -> menu_layout c2) ->
  while (fun c => r <- step c ;; ret match r with inl c' => inl c' | inr _ => inr c end) c w
  = (Return c', w') ->
  menu_layout c -> menu_layout c'.
Proof.
  intros Hstep Hrun Hc. unfold while in Hrun.
  apply (loop_invariant menu_layout) in Hrun as (c1 & w1 & Hc1 & Hlast).
  - proc_cases; by simplify_eq.
  - intros s w0 s' w0' Hs Hbody. proc_cases; simplify_eq. eauto.
  - done.
Qed.

Lemma menu_layout_add (c : Config) (pane : Pane) :
  menu_layout c -> menu_pane pane -> menu_layout (set_panes (panes c ++ [pane]) c).
Proof.
  intros (p0 & rest & Hc & Hroot & Hrest) Hpane. exists p0, (rest ++ [pane]). cbn.
  rewrite Hc. split; [done|]. split; [done|]. apply Forall_app. split; [done|]. by apply Forall_singleton.
Qed.

Lemma menu_layout_remove (c : Config) (i : nat) :
  menu_layout c -> 0 < i -> menu_layout (set_panes (delete i (panes c)) c).
Proof.
  intros (p0 & rest & Hc & Hroot & Hrest) Hi. destruct i as [|i]; [lia|].
  exists p0, (delete i rest). cbn. rewrite Hc. split; [done|]. split; [done|].
  by apply Forall_delete.
Qed.

Lemma create_turn_menu (c c' : Config) (w w' : World) :
  create_turn c w = (Return (inl c'), w') -> menu_layout c -> menu_layout c'.
Proof.
  unfold create_turn. intros H Hc. destruct (panes c) as [|p0 rest] eqn:Hpanes; [discriminate|].
  rewrite <- Hpanes in H. clear p0 rest Hpanes.
  proc_inv. destruct a.
  - proc_cases. simplify_eq. by apply (menu_layout_panes c).
  - proc_cases. simplify_eq. by apply (menu_layout_panes c).
  - destruct (panes c !! i); [|discriminate]. proc_inv.
    eapply pane_loop_menu; [|done|done]. intros ? ? ? ?. apply create_edit_pane_menu.
  - proc_inv. destruct a; proc_inv; [|done].
    menu_facts; (apply menu_layout_add; [done|]; eapply new_pane_menu; [|done]; eauto).
  - proc_inv. rewrite removelast_delete.
    apply menu_layout_remove; [done|]. apply remove_offered in Hchoice. lia.
  - discriminate.
  - proc_cases. discriminate.
Qed.

Lemma edit_turn_menu {json : JSON} (workspace : string) (c c' : Config) (w w' : World) :
  edit_turn workspace c w = (Return (inl c'), w') -> menu_layout c -> menu_layout c'.
Proof.
  unfold edit_turn. intros H Hc. proc_inv. destruct a.
  - proc_cases. simplify_eq. by apply (menu_layout_panes c).
  - proc_inv. destruct a; proc_inv; [|done].
    menu_facts; (apply menu_layout_add; [done|]; eapply new_pane_menu; [|done]; eauto).
  - proc_inv. destruct a as [i|]; proc_inv; [|done].
    destruct (panes c !! i); [|discriminate]. proc_inv.
    eapply pane_loop_menu; [|done|done]. intros ? ? ? ?. apply edit_edit_pane_menu.
  - destruct (decide (length (panes c) = 1)).
    + proc_inv. done.
    + proc_inv. destruct a as [i|]; proc_inv; [|done].
      destruct a; proc_inv; [|done].
      apply menu_layout_remove; [done|]. eapply removable_index; eauto.
  - proc_cases; discriminate.
  - proc_cases; discriminate.
  - proc_cases; by simplify_eq.
Qed.

(** X16.  The menus keep the shape of a layout: pane 0 without split and
    directory, every other pane split horizontally or vertically with a
    directory that is not the empty text, every size by width or by height.
    The layout that [create] compiles has this shape. *)
Theorem menus_build_menu_layouts {json : JSON} :
  (forall c w c' w', create_turn c w = (Return (inl c'), w') -> menu_layout c -> menu_layout c')
  /\ (forall workspace c w c' w',
        edit_turn workspace c w = (Return (inl c'), w') -> menu_layout c -> menu_layout c')
  /\ (forall cwd w c w',
        while create_turn (initial_config cwd) w = (Return (Some c), w') -> menu_layout c).
Proof.
  split; [|split].
  - intros c w c' w'. apply create_turn_menu.
  - intros ws c w c' w'. apply edit_turn_menu.
  - intros cwd w c w' Hrun. unfold while in Hrun.
    apply (loop_invariant menu_layout) in Hrun as (c1 & w1 & Hc1 & Hlast).
    + apply create_turn_create in Hlast. by subst.
    + intros s w0 s' w0' Hs Hturn. by eapply create_turn_menu.
    + by eexists _, _.
Qed.

(** A layout built in the menu of [create]: a pane is added, split
    vertically, in /srv, running top, 40 columns wide. *)
Lemma menus_build_menu_layouts_witness :
  exists c w',
    while create_turn (initial_config "/home/u")
      (start empty_disk [Pick 3; Pick 1; Text "/srv"; Text "top"; YesNo true; Pick 0; Num 40;
                         Pick 0; Text "dev"; Pick 6])
    = (Return (Some c), w')
    /\ length (panes c) = 2 /\ menu_layout c.
Proof.
  eexists _, _. split; [vm_compute; reflexivity|]. split; [reflexivity|].
  eapply (proj2 (proj2 (@menus_build_menu_layouts JsonText.text)) "/home/u"
            (start empty_disk [Pick 3; Pick 1; Text "/srv"; Text "top"; YesNo true; Pick 0; Num 40;
                               Pick 0; Text "dev"; Pick 6])).
  vm_compute. reflexivity.
Defined.

(* ===================================================================== *)
(** * The startup *)
(* ===================================================================== *)

(** X22.  With a [mkdir] that works, the startup leaves both directories in
    place, with the files they had; the console and the answers are not
    touched, and a second startup changes nothing. *)
Theorem ensureDirectories_creates (w : World) :
  exists w',
    ensureDirectories mkdir_ok w = (Return tt, w')
    /\ scripts (disk w') = Some (default ∅ (scripts (disk w)))
    /\ configs (disk w') = Some (default ∅ (configs (disk w)))
    /\ console w' = console w /\ spawned w' = spawned w /\ answers w' = answers w
    /\ ensureDirectories mkdir_ok w' = (Return tt, w').
Proof.
  destruct w as [[[ms|] [mc|]] ans tr con sp]; eexists; (split; [reflexivity|]); done.
Qed.

(** X23.  Whatever [mkdir] does, as long as it returns or throws, the startup
    returns: a failure to create a directory does not stop the program. *)
Theorem ensureDirectories_returns (mkdir : Dir -> Proc unit) (w : World) :
  (forall d w0, exists r w1, mkdir d w0 = (r, w1) /\ (r = Return tt \/ exists e, r = Throw e)) ->
  exists w', ensureDirectories mkdir w = (Return tt, w').
Proof.
  intros Hmkdir. unfold ensureDirectories, try_catch, bind.
  rewrite existsSync_eq.
  assert (forall (there : bool) d w0,
            exists r w1, (if there then ret tt else mkdir d) w0 = (r, w1)
                         /\ (r = Return tt \/ exists e, r = Throw e)) as Hstep.
  { intros [|] d w0; [by eexists _, _; split; [|left]|]. apply Hmkdir. }
  destruct (Hstep (present (disk w) (Folder SCRIPT_DIR)) SCRIPT_DIR w)
    as (r1 & w1 & -> & [-> | [e ->]]); [|by eexists].
  rewrite existsSync_eq.
  destruct (Hstep (present (disk w1) (Folder CONFIG_DIR)) CONFIG_DIR w1)
    as (r2 & w2 & -> & [-> | [e ->]]); by eexists.
Qed.

Lemma ensureDirectories_returns_witness :
  exists w',
    ensureDirectories (fun d => throw (ENOENT (Folder d)))
      (start {| scripts := None; configs := None |} [])
    = (Return tt, w').
Proof.
  apply (ensureDirectories_returns (fun d => throw (ENOENT (Folder d)))
           (start {| scripts := None; configs := None |} [])).
  intros d w0. exists (Throw (ENOENT (Folder d))), w0. split; [reflexivity|]. right. by eexists.
Defined.

(* ===================================================================== *)
(** * How [create] can fail *)
(* ===================================================================== *)

Lemma calm_ret {A : Type} (a : A) : calm (ret a).
Proof. intros w. left. by eexists _, _. Qed.

Lemma calm_say (msg : Message) : calm (say msg).
Proof. intros w. left. by eexists _, _. Qed.

Lemma calm_ask {A : Type} (message : string) (resolve : Answer -> option A) :
  calm (ask message resolve).
Proof.
  intros w. unfold ask. destruct (answers w) as [|a rest]; [right; by eexists|].
  destruct (resolve a); [left; by eexists _, _ | right; by eexists].
Qed.

(** The continuation needs to be calm only on the values [m] returns. *)
Lemma calm_bind {A B : Type} (m : Proc A) (k : A -> Proc B) :
  calm m -> (forall a w w', m w = (Return a, w') -> calm (k a)) -> calm (bind m k).
Proof.
  intros Hm Hk w. unfold bind.
  destruct (Hm w) as [(a & w1 & Hrun) | (w1 & Hrun)]; rewrite Hrun; [|right; by eexists].
  apply (Hk a w w1 Hrun).
Qed.

Lemma calm_loop {St R : Type} (I : St -> Prop) (body : St -> Proc (St + R)) :
  (forall s, I s -> calm (body s)) ->
  (forall s w s' w', I s -> body s w = (Return (inl s'), w') -> I s') ->
  forall fuel s, I s -> calm (loop fuel body s).
Proof.
  intros Hcalm Hstep. induction fuel as [|fuel IH]; intros s Hs.
  - intros w. right. by eexists.
  - cbn [loop]. apply calm_bind; [by apply Hcalm|].
    intros [s'|r] w w' Hrun; [|apply calm_ret]. apply IH. by eapply Hstep.
Qed.

Lemma calm_while {St R : Type} (I : St -> Prop) (body : St -> Proc (St + R)) (s : St) :
  (forall s, I s -> calm (body s)) ->
  (forall s w s' w', I s -> body s w = (Return (inl s'), w') -> I s') ->
  I s -> calm (while body s).
Proof. intros Hcalm Hstep Hs w. unfold while. by apply (calm_loop I). Qed.

Ltac calm_step :=
  first
    [ apply calm_ret | apply calm_say | apply calm_ask
    | apply calm_bind; [|intros ? ? ? ?]
    | apply (calm_while (fun _ => True)); [intros ? _ | done | done]
    | match goal with
      | |- calm (match ?x with _ => _ end) => destruct x
      end ].

Ltac calm_all :=
  unfold create_edit_pane, edit_edit_pane, new_pane;
  unfold prompt_list, prompt_input, prompt_confirm, prompt_number; repeat calm_step.

Lemma calm_create_edit_pane (i : nat) (c : Config) : calm (create_edit_pane i c).
Proof. calm_all. Qed.

(** A pane that the menu of [create] offers for editing is there. *)
Lemma edit_pane_offered (c : Config) (n i : nat) :
  panes c <> [] -> create_choices c !! n = Some (C_edit_pane i) -> is_Some (panes c !! i).
Proof.
  intros Hne H%list_elem_of_lookup_2. unfold create_choices in H.
  rewrite !elem_of_app in H. destruct H as [H|[H|[H|[H|[H|H]]]]].
  - rewrite !elem_of_cons in H. destruct H as [H|[H|[H|H]]]; try discriminate.
    + injection H as ->. destruct (panes c); [done|]. by eexists.
    + by apply elem_of_nil in H.
  - apply list_elem_of_lookup in H as [k H]. rewrite list_lookup_imap in H.
    destruct (drop 1 (panes c) !! k) as [p|] eqn:Hk; [|discriminate].
    injection H as <-. rewrite lookup_drop in Hk.
    replace (k + 1) with (1 + k) by lia. by eexists.
  - apply list_elem_of_singleton in H. discriminate.
  - destruct (decide (1 < length (panes c))); [apply list_elem_of_singleton in H; discriminate|].
    by apply elem_of_nil in H.
  - destruct (truthy (Some (name c))); [apply list_elem_of_singleton in H; discriminate|].
    by apply elem_of_nil in H.
  - apply list_elem_of_singleton in H. discriminate.
Qed.

Lemma calm_create_turn (c : Config) : panes c <> [] -> calm (create_turn c).
Proof.
  intros Hne. unfold create_turn. destruct (panes c) as [|p0 rest] eqn:Hpanes; [done|].
  rewrite <- Hpanes in Hne |- *. clear p0 rest Hpanes.
  apply calm_bind; [apply calm_ask|]. intros action w w' Hrun.
  apply prompt_list_return in Hrun as (n & Hn & _).
  destruct action; try solve [calm_all].
  destruct (edit_pane_offered c n i Hne Hn) as [p ->].
  apply calm_bind; [|intros; apply calm_ret].
  apply (calm_while (fun _ => True)); [|done|done]. intros c1 _.
  apply calm_bind; [apply calm_create_edit_pane|]. intros; apply calm_ret.
Qed.

(** The menu of [create] returns or waits. *)
Lemma calm_create_menu (cwd : string) : calm (while create_turn (initial_config cwd)).
Proof.
  apply (calm_while root_ok).
  - intros c (p0 & rest & Hc & _). apply calm_create_turn. by rewrite Hc.
  - intros s w s' w' Hs Hturn. eapply same_root_ok; [|done]. by eapply create_turn_same_root.
  - apply initial_config_root_ok.
Qed.

(** X13.  The menu of [create] returns or waits: it neither throws nor
    exits.  When it returns a layout whose name is a file name, [create]
    ends normally or throws for a missing directory.  When the script
    directory is missing nothing is written.  When the descriptor directory
    is missing the script has been written by then: it stays, without a
    descriptor. *)
Theorem create_failures {json : JSON} (cwd : string) (w : World) :
  calm (while create_turn (initial_config cwd))
  /\ forall c w1,
       while create_turn (initial_config cwd) w = (Return (Some c), w1) ->
       file_name (name c) = true ->
       let r := (create_action cwd w).1 in
       let w' := (create_action cwd w).2 in
       r = Return tt
       \/ (r = Throw (ENOENT (File SCRIPT_DIR (name c +:+ ".sh")))
           /\ scripts (disk w) = None /\ disk w' = disk w)
       \/ (exists ms, r = Throw (ENOENT (File CONFIG_DIR ".gitkeep"))
                      /\ configs (disk w) = None /\ scripts (disk w) = Some ms
                      /\ disk w' = {| scripts := Some (<[name c +:+ ".sh" := generateScript c]> ms);
                                      configs := None |}).
Proof.
  split; [apply calm_create_menu|]. intros c w1 Hrun _.
  cbn zeta. destruct (create_action cwd w) as [r w'] eqn:Hall. cbn [fst snd].
  unfold create_action in Hall. unfold bind at 1 in Hall.
  pose proof (keeps_while disk create_turn (initial_config cwd)
                (fun c => keeps_create_turn disk c prompt_free_disk (fun _ _ => eq_refl)) w) as Hdisk.
  rewrite Hrun in Hdisk, Hall; cbn [fst snd] in Hdisk.
  unfold path_join in Hall. unfold bind at 1 in Hall. rewrite writeFile_eq in Hall.
  cbn [folder] in Hall. simpl in Hdisk.
  destruct (scripts (disk w1)) as [ms|] eqn:Hms; rewrite Hdisk in Hms.
  2:{ right; left. simplify_eq; repeat split; done. }
  unfold bind at 1 in Hall. cbn [spawn] in Hall. unfold bind at 1 in Hall.
  rewrite saveConfig_eq in Hall. cbn in Hall.
  destruct (configs (disk w1)) as [mc|] eqn:Hmc; rewrite Hdisk in Hmc.
  - left. cbn in Hall. by simplify_eq.
  - right; right. exists ms. simplify_eq; repeat split; try done; cbn; by rewrite ?Hmc.
Qed.

(** [create] where the descriptor directory is missing, the user setting
    the name dev and saving: the script is written and the saving of the
    descriptor throws. *)
Lemma create_failures_witness :
  let w := start {| scripts := Some ∅; configs := None |} [Pick 0; Text "dev"; Pick 4] in
  let c := fresh_dev "/home/u" in
  let r := (@create_action JsonText.text "/home/u" w).1 in
  let w' := (@create_action JsonText.text "/home/u" w).2 in
  r = Return tt
  \/ (r = Throw (ENOENT (File SCRIPT_DIR (name c +:+ ".sh")))
      /\ scripts (disk w) = None /\ disk w' = disk w)
  \/ (exists ms, r = Throw (ENOENT (File CONFIG_DIR ".gitkeep"))
                 /\ configs (disk w) = None /\ scripts (disk w) = Some ms
                 /\ disk w' = {| scripts := Some (<[name c +:+ ".sh" := generateScript c]> ms);
                                 configs := None |}).
Proof.
  eapply (proj2 (@create_failures JsonText.text "/home/u"
                   (start {| scripts := Some ∅; configs := None |} [Pick 0; Text "dev"; Pick 4]))
            (fresh_dev "/home/u")).
  - vm_compute. reflexivity.
  - reflexivity.
Defined.

(* ===================================================================== *)
(** * More examples *)
(* ===================================================================== *)


(* ===================================================================== *)
(** * Editing one pane, and loading what was created *)
(* ===================================================================== *)

(** X17.  One turn of a loop that edits pane [i], in [create] or in [edit],
    changes neither the name, nor the base directory, nor the number of
    panes, nor any pane but pane [i]. *)
Theorem pane_edit_is_local (i : nat) (c c' : Config) (w w' : World) :
  create_edit_pane i c w = (Return (inl c'), w') \/ edit_edit_pane i c w = (Return (inl c'), w') ->
  name c' = name c /\ baseDir c' = baseDir c
  /\ length (panes c') = length (panes c)
  /\ forall j, j <> i -> panes c' !! j = panes c !! j.
Proof.
  intros H.
  assert (name c' = name c /\ baseDir c' = baseDir c) as [Hn Hb].
  { destruct H as [H|H]; [unfold create_edit_pane in H | unfold edit_edit_pane in H];
      proc_cases; by simplify_eq. }
  assert (edits_pane i c c') as (Hl & Ho & _).
  { destruct H as [H|H]; [by eapply create_edit_pane_edits | by eapply edit_edit_pane_edits]. }
  done.
Qed.

Lemma pane_edit_is_local_witness :
  exists c' w',
    create_edit_pane 1 two_panes (start empty_disk [Pick 2; Text "btop"]) = (Return (inl c'), w')
    /\ name c' = name two_panes /\ baseDir c' = baseDir two_panes
    /\ length (panes c') = length (panes two_panes)
    /\ forall j, j <> 1 -> panes c' !! j = panes two_panes !! j.
Proof.
  eexists _, _. split; [reflexivity|].
  eapply (pane_edit_is_local 1 two_panes _ (start empty_disk [Pick 2; Text "btop"])).
  left. reflexivity.
Defined.

(** X14.  What [create] reports as created can be loaded: [load] of the name
    runs its script, which is the compiled layout, and [loadConfig] reads
    what [JSON.parse] makes of the text written for that layout. *)
Theorem created_workspace_loads {json : JSON} (cwd n : string) (w w' : World) :
  create_action cwd w = (Return tt, w') ->
  console w' = console w ++ [Created n] ->
  exists c,
    name c = n
    /\ load_action n w' = (Return tt, with_child (Bash (File SCRIPT_DIR (n +:+ ".sh"))) w')
    /\ readFile (File SCRIPT_DIR (n +:+ ".sh")) w' = (Return (generateScript c), w')
    /\ loadConfig n w' = (Return (JSON_parse (JSON_stringify c)), w').
Proof.
  intros Hrun Hconsole.
  apply create_run in Hrun as ([c|] & w1 & _ & _ & Hend).
  2:{ destruct Hend as (Hcancelled & _).
      rewrite Hcancelled in Hconsole. apply app_inv_head in Hconsole. discriminate. }
  destruct Hend as (ms & mc & _ & _ & Hms & Hmc & Hdisk & Hcreated & _).
  rewrite Hcreated in Hconsole. apply app_inv_head in Hconsole. injection Hconsole as <-.
  exists c. split; [done|]. split; [|split].
  - unfold load_action, path_join. rewrite (bind_eq_return _ _ _ _ _ (existsSync_eq _ w')).
    cbn. rewrite Hdisk. cbn. rewrite bool_decide_eq_true_2; [done|].
    rewrite lookup_insert_eq. by eexists.
  - unfold readFile, bind, get_disk. cbn. rewrite Hdisk. cbn. by rewrite lookup_insert_eq.
  - rewrite loadConfig_eq. unfold stored_config. rewrite Hdisk. cbn. by rewrite lookup_insert_eq.
Qed.

Lemma created_workspace_loads_witness :
  exists c,
    name c = "dev"
    /\ load_action "dev"
         (@create_action JsonText.text "/home/u" (start empty_disk [Pick 0; Text "dev"; Pick 4])).2
       = (Return tt,
          with_child (Bash (File SCRIPT_DIR ("dev" +:+ ".sh")))
            (@create_action JsonText.text "/home/u" (start empty_disk [Pick 0; Text "dev"; Pick 4])).2)
    /\ readFile (File SCRIPT_DIR ("dev" +:+ ".sh"))
         (@create_action JsonText.text "/home/u" (start empty_disk [Pick 0; Text "dev"; Pick 4])).2
       = (Return (generateScript c),
          (@create_action JsonText.text "/home/u" (start empty_disk [Pick 0; Text "dev"; Pick 4])).2)
    /\ @loadConfig JsonText.text "dev"
         (@create_action JsonText.text "/home/u" (start empty_disk [Pick 0; Text "dev"; Pick 4])).2
       = (Return (@JSON_parse JsonText.text (@JSON_stringify JsonText.text c)),
          (@create_action JsonText.text "/home/u" (start empty_disk [Pick 0; Text "dev"; Pick 4])).2).
Proof.
  apply (@created_workspace_loads JsonText.text "/home/u" "dev"
           (start empty_disk [Pick 0; Text "dev"; Pick 4])).
  - vm_compute. reflexivity.
  - vm_compute. reflexivity.
Defined.

(* ===================================================================== *)
(** * How [edit] can fail *)
(* ===================================================================== *)

(** How a loop ends: it waits, or its last turn ended the same way. *)
Lemma loop_ends {St R : Type} (I : St -> World -> Prop) (body : St -> Proc (St + R)) :
  (forall s w s' w', I s w -> body s w = (Return (inl s'), w') -> I s' w') ->
  forall fuel s w r w',
    I s w -> loop fuel body s w = (r, w') ->
    r = Pending
    \/ exists s1 w1,
         I s1 w1
         /\ match r with
            | Return v => body s1 w1 = (Return (inr v), w')
            | Throw e => body s1 w1 = (Throw e, w')
            | Exit code => body s1 w1 = (Exit code, w')
            | Pending => False
            end.
Proof.
  intros Hstep. induction fuel as [|fuel IH]; intros s w r w' Hs Hrun.
  { cbn in Hrun. left. by simplify_eq. }
  cbn [loop] in Hrun. unfold bind in Hrun.
  destruct (body s w) as [[[s'|v]|e|code|] w1] eqn:Hbody.
  - eapply IH; [|exact Hrun]. by eapply Hstep.
  - cbn in Hrun. simplify_eq. right. by exists s, w.
  - simplify_eq. right. by exists s, w.
  - simplify_eq. right. by exists s, w.
  - simplify_eq. by left.
Qed.

Lemma prompt_list_cases {A : Type} (message : string) (choices : list A) (w : World) :
  (exists a n w1, prompt_list message choices w = (Return a, w1)
                  /\ choices !! n = Some a /\ disk w1 = disk w)
  \/ prompt_list message choices w = (Pending, w).
Proof.
  unfold prompt_list, ask. destruct (answers w) as [|[n|s|b|z|code] rest]; try by right.
  destruct (choices !! n) as [a|] eqn:Hn; [|by right]. left. by eexists a, n, _.
Qed.

Lemma calm_edit_script (target : Path) :
  calm (try_catch (openEditor target ;;; say EditorDone) (fun err => say (FailedToOpenEditor err))).
Proof.
  intros w. unfold try_catch, openEditor, ask, bind. cbn.
  destruct (answers w) as [|[n|s|b|z|code] rest]; try (right; by eexists).
  cbn. destruct (decide (code = 0)); left; by eexists _, _.
Qed.

Lemma pane_offered (panes : list Pane) (n i : nat) :
  (imap (fun i _ => Some i) panes ++ [None]) !! n = Some (Some i) -> is_Some (panes !! i).
Proof.
  intros H. apply lookup_app_Some in H as [H|[_ H]].
  - rewrite list_lookup_imap in H. destruct (panes !! n) eqn:Hn; [|discriminate].
    injection H as <-. by eexists.
  - destruct (n - _) as [|[|k]]; cbn in H; discriminate.
Qed.

(** A step that is calm ends in no other way. *)
Ltac calm_run H :=
  match type of H with
  | ?m ?w0 = (?r, _) =>
      let Hc := fresh "Hc" in
      assert (calm m) as Hc by calm_all;
      destruct (Hc w0) as [(? & ? & Hc') | (? & Hc')]; rewrite Hc' in H; by simplify_eq
  end.

(** One turn of the menu of [edit], where the descriptor directory
    exists: it throws only when it saves and the script directory is
    missing, and then nothing was written; it never exits. *)
Lemma edit_turn_ends {json : JSON} (workspace : string) (c : Config) (w w' : World)
    (r : Completion (Config + unit)) :
  is_Some (configs (disk w)) ->
  edit_turn workspace c w = (r, w') ->
  match r with
  | Return _ | Pending => True
  | Exit _ => False
  | Throw e => e = ENOENT (File SCRIPT_DIR (workspace +:+ ".sh"))
               /\ scripts (disk w) = None /\ disk w' = disk w
  end.
Proof.
  intros [mc Hmc] Hrun. unfold edit_turn in Hrun. unfold bind at 1 in Hrun.
  destruct (prompt_list_cases "What do you want to edit?"
              [E_base_directory; E_add_pane; E_edit_pane; E_remove_pane; E_edit_script;
               E_save_and_exit; E_cancel] w) as [(a & n & w1 & Hq & _ & Hdisk) | Hq];
    rewrite Hq in Hrun; [|by simplify_eq].
  rewrite <- Hdisk in *. clear Hq Hdisk.
  destruct a.
  - calm_run Hrun.
  - calm_run Hrun.
  - unfold bind at 1 in Hrun.
    destruct (prompt_list_cases "Which pane to edit?"
                (imap (fun i _ => Some i) (panes c) ++ [None]) w1)
      as [(a & k & w2 & Hq & Hk & _) | Hq]; rewrite Hq in Hrun; [|by simplify_eq].
    destruct a as [i|]; [|cbn in Hrun; by simplify_eq].
    destruct (pane_offered _ _ _ Hk) as [p Hp]. rewrite Hp in Hrun. calm_run Hrun.
  - destruct (decide (length (panes c) = 1)); calm_run Hrun.
  - unfold bind at 1 in Hrun.
    destruct (calm_edit_script (path_join SCRIPT_DIR (workspace +:+ ".sh")) w1)
      as [(? & ? & Hc) | (? & Hc)]; rewrite Hc in Hrun; cbn in Hrun; by simplify_eq.
  - unfold path_join in Hrun. unfold bind at 1 in Hrun. rewrite writeFile_eq in Hrun.
    cbn [folder] in Hrun.
    destruct (scripts (disk w1)) as [ms|] eqn:Hms; [|by simplify_eq].
    unfold bind at 1 in Hrun. rewrite saveConfig_eq in Hrun. cbn in Hrun.
    rewrite Hmc in Hrun. cbn in Hrun. by simplify_eq.
  - calm_run Hrun.
Qed.

(** X24.  For a file name, where every descriptor is a layout, [edit] ends
    normally, waits for an answer, exits with 1 when the name has no
    descriptor (after printing that the workspace was not found, and
    nothing else), or throws because the script directory is missing when
    it saves, and then it wrote nothing.  It ends in no other way, whatever
    the loaded layout holds. *)
Theorem edit_failures {json : JSON} (workspace : string) (w : World) :
  file_name workspace = true -> layouts_only (disk w) ->
  let r := (edit_action workspace w).1 in
  let w' := (edit_action workspace w).2 in
  r = Return tt \/ r = Pending
  \/ (r = Exit 1 /\ (loadConfig workspace w).1 = Return None
      /\ w' = printed (NotFound workspace) w)
  \/ (r = Throw (ENOENT (File SCRIPT_DIR (workspace +:+ ".sh")))
      /\ scripts (disk w) = None /\ disk w' = disk w).
Proof.
  intros _ _.
  cbn zeta. destruct (edit_action workspace w) as [r w'] eqn:Hrun. cbn [fst snd].
  unfold edit_action in Hrun.
  rewrite (bind_eq_return _ _ _ _ _ (loadConfig_eq workspace w)) in Hrun. rewrite loadConfig_eq.
  destruct (stored_config (disk w) workspace) as [c0|] eqn:Hc0.
  2:{ cbn in Hrun. simplify_eq. right; right; left. done. }
  assert (is_Some (configs (disk w))) as Hconf.
  { unfold stored_config in Hc0. by destruct (configs (disk w)). }
  unfold while in Hrun.
  apply (loop_ends (fun _ w0 => disk w0 = disk w)) in Hrun as [-> | (c1 & w1 & Hd & Hlast)].
  - right; by left.
  - destruct r as [[]|e|code|]; [by left | | | done].
    + apply edit_turn_ends in Hlast; [|by rewrite Hd]. destruct Hlast as (-> & Hms & Hdisk).
      right; right; right. rewrite Hd in Hms, Hdisk. done.
    + apply edit_turn_ends in Hlast; [done|by rewrite Hd].
  - intros s w0 s' w0' Hs Hturn. apply edit_turn_goes_on in Hturn as [? _]. congruence.
  - done.
Qed.

(** [edit dev] where dev has its descriptor and the script directory is
    missing: the base directory is changed, and the saving throws. *)
Lemma edit_failures_witness :
  let w := start {| scripts := None;
                    configs := Some {["dev.json" := @JSON_stringify JsonText.text dev_layout]} |}
             [Pick 0; Text "/srv"; Pick 5] in
  let r := (@edit_action JsonText.text "dev" w).1 in
  let w' := (@edit_action JsonText.text "dev" w).2 in
  r = Return tt \/ r = Pending
  \/ (r = Exit 1 /\ (@loadConfig JsonText.text "dev" w).1 = Return None
      /\ w' = printed (NotFound "dev") w)
  \/ (r = Throw (ENOENT (File SCRIPT_DIR ("dev" +:+ ".sh")))
      /\ scripts (disk w) = None /\ disk w' = disk w).
Proof.
  apply (@edit_failures JsonText.text "dev").
  - reflexivity.
  - intros mc name content Hmc Hfile. injection Hmc as <-.
    apply lookup_singleton_Some in Hfile as [_ <-]. vm_compute. eauto.
Defined.
